(** * ElectrumX block processor: UTXO cache, advance/backup engine, flush
    coordinator and reorg controller

    A shallow embedding of [electrumx/server/block_processor.py] (class
    [BlockProcessor]) together with the properties its design document
    states about it.

    Conventions of the embedding:
    - Python [bytes] are [list byte]; Python [int] is [Z].
    - [struct.pack] / [struct.unpack] are written out (little endian,
      range checked, raising [StructError]).
    - Python dicts ([utxo_cache]) and the LevelDB store ([utxo_db]) are
      [gmap bytes bytes]; the store's prefix iterator returns its entries
      sorted by key, as LevelDB does.
    - Methods are computations in a state-and-exception monad over the
      record [BlockProcessor]; a raised exception carries the state at
      the moment it was raised (Python mutates [self] in place).
    - Log output and the floating point ETA statistics of [flush] have no
      effect on the state and are left out.  [time.time()] is an integer
      reading of a clock oracle kept in the state. *)

From Stdlib Require Import ZArith List Lia.
From Stdlib.Strings Require Import Byte.
From stdpp Require Import sorting countable gmap list.

Open Scope Z_scope.

(** ** Bytes *)

#[global] Instance byte_eq_dec : EqDecision byte := Byte.byte_eq_dec.

Definition byte_of_N (n : N) : byte :=
  match Byte.of_N n with Some b => b | None => x00 end.

Lemma byte_of_to_N (b : byte) : byte_of_N (Byte.to_N b) = b.
Proof. unfold byte_of_N. now rewrite Byte.of_to_N. Qed.

#[global] Instance byte_countable : Countable byte :=
  inj_countable' Byte.to_N byte_of_N byte_of_to_N.

Abbreviation bytes := (list byte).

Definition byte_of_Z (z : Z) : byte := byte_of_N (Z.to_N (z mod 256)).
Definition Z_of_byte (b : byte) : Z := Z.of_N (Byte.to_N b).

Lemma Z_of_byte_range (b : byte) : 0 <= Z_of_byte b < 256.
Proof.
  unfold Z_of_byte. pose proof (Byte.to_N_bounded b) as Hb. lia.
Qed.


(** [struct.pack('<H'|'<I'|'<Q', v)]: [n] bytes, least significant first. *)
Fixpoint le_bytes (n : nat) (v : Z) : bytes :=
  match n with
  | O => []
  | S n' => byte_of_Z v :: le_bytes n' (v / 256)
  end.

Fixpoint le_value (b : bytes) : Z :=
  match b with
  | [] => 0
  | x :: r => Z_of_byte x + 256 * le_value r
  end.

(** [pack] raises [struct.error] when the value does not fit. *)
Definition pack_le (n : nat) (v : Z) : option bytes :=
  if (0 <=? v) && (v <? 256 ^ Z.of_nat n) then Some (le_bytes n v) else None.

(** [unpack] raises [struct.error] unless the buffer has exactly [n] bytes. *)
Definition unpack_le (n : nat) (b : bytes) : option Z :=
  if decide (length b = n) then Some (le_value b) else None.

(** [pack('>I', v)], used by the undo keys of the store. *)
Definition be_bytes (n : nat) (v : Z) : bytes := rev (le_bytes n v).

Lemma length_le_bytes n v : length (le_bytes n v) = n.
Proof. revert v. induction n as [|n IH]; intros v; simpl; [done|]. now rewrite IH. Qed.



Lemma pack_le_Some n v b : pack_le n v = Some b ->
  b = le_bytes n v /\ 0 <= v < 256 ^ Z.of_nat n /\ length b = n.
Proof.
  unfold pack_le. destruct (0 <=? v) eqn:E1; destruct (v <? 256 ^ Z.of_nat n) eqn:E2;
    simpl; intros [= <-]. rewrite length_le_bytes.
  apply Z.leb_le in E1. apply Z.ltb_lt in E2. repeat split; lia.
Qed.

Lemma pack_le_in_range n v :
  0 <= v < 256 ^ Z.of_nat n -> pack_le n v = Some (le_bytes n v).
Proof.
  intros Hv. unfold pack_le.
  destruct (Z.leb_spec 0 v); destruct (Z.ltb_spec v (256 ^ Z.of_nat n)); simpl; try done; lia.
Qed.

(** Python slices [l[a:b]], [l[a:]] and [l[:b]]: a negative index counts
    from the end and every index is clamped to the sequence. *)
Definition py_index (len i : Z) : Z :=
  if i <? 0 then Z.max (i + len) 0 else Z.min i len.

Definition slice {A} (l : list A) (a b : Z) : list A :=
  let n := Z.of_nat (length l) in
  take (Z.to_nat (py_index n b - py_index n a)) (drop (Z.to_nat (py_index n a)) l).

Definition slice_from {A} (l : list A) (a : Z) : list A :=
  drop (Z.to_nat (py_index (Z.of_nat (length l)) a)) l.

Definition slice_to {A} (l : list A) (b : Z) : list A :=
  take (Z.to_nat (py_index (Z.of_nat (length l)) b)) l.

(** Truth value of an optional byte string: [None] and [b''] are false. *)
Definition truthy (o : option bytes) : bool :=
  match o with Some (_ :: _) => true | _ => false end.

(** Lexicographic order on byte strings (LevelDB's comparator, and the
    order of [sorted] on a list of [bytes]). *)
Fixpoint bytes_leb (a b : bytes) : bool :=
  match a, b with
  | [], _ => true
  | _ :: _, [] => false
  | x :: a', y :: b' =>
      if (Byte.to_N x <? Byte.to_N y)%N then true
      else if (Byte.to_N x =? Byte.to_N y)%N then bytes_leb a' b'
      else false
  end.

Definition bytes_le (a b : bytes) : Prop := bytes_leb a b = true.

#[global] Instance bytes_le_dec (a b : bytes) : Decision (bytes_le a b).
Proof. unfold bytes_le. apply _. Defined.

Definition key_le (p q : bytes * bytes) : Prop := bytes_le p.1 q.1.

#[global] Instance key_le_dec (p q : bytes * bytes) : Decision (key_le p q).
Proof. unfold key_le. apply _. Defined.

(** Slices of concatenations of known length. *)
Lemma slice_to_neg_app {A} (l k : list A) (n : Z) :
  0 < n -> n = Z.of_nat (length k) -> slice_to (l ++ k) (- n) = l.
Proof.
  intros Hn ->. unfold slice_to, py_index. rewrite length_app.
  destruct (Z.ltb_spec (- Z.of_nat (length k)) 0); [|lia].
  replace (Z.to_nat _) with (length l) by lia. apply take_app_length.
Qed.

Lemma slice_from_neg_app {A} (l k : list A) (n : Z) :
  0 < n -> n = Z.of_nat (length k) -> slice_from (l ++ k) (- n) = k.
Proof.
  intros Hn ->. unfold slice_from, py_index. rewrite length_app.
  destruct (Z.ltb_spec (- Z.of_nat (length k)) 0); [|lia].
  replace (Z.to_nat _) with (length l) by lia. apply drop_app_length.
Qed.

Lemma slice_neg_app {A} (l m k : list A) (a b : Z) :
  0 < b -> a = Z.of_nat (length m) + b -> b = Z.of_nat (length k) ->
  slice (l ++ m ++ k) (- a) (- b) = m.
Proof.
  intros Hb -> ->. unfold slice, py_index. rewrite !length_app.
  destruct (Z.ltb_spec (- (Z.of_nat (length m) + Z.of_nat (length k))) 0); [|lia].
  destruct (Z.ltb_spec (- Z.of_nat (length k)) 0); [|lia].
  replace (Z.to_nat (Z.max _ 0 - Z.max _ 0)) with (length m) by lia.
  replace (Z.to_nat (Z.max _ 0)) with (length l) by lia.
  rewrite drop_app_length. apply take_app_length.
Qed.

(** ** Parsed blocks and the external collaborators *)

(** [electrumx.lib.tx]: a transaction input names the output it spends;
    an output carries its value and pay-to script. *)
Record TxInput := mkTxInput { prev_hash : bytes; prev_idx : Z }.
Record TxOutput := mkTxOutput { value : Z; pk_script : bytes }.
Record Tx := mkTx {
  is_coinbase : bool;
  inputs : list TxInput;
  outputs : list TxOutput
}.

(** What [coin.block(raw, height)] returns; [transactions] pairs every
    transaction with its hash. *)
Record Block := mkBlock {
  raw : bytes;
  header : bytes;
  transactions : list (Tx * bytes)
}.

(** The coin decoder is a capability set with one variant per chain. *)
Class Coin := {
  coin_block : bytes -> Z -> Block;
  header_hash : bytes -> bytes;
  header_prevhash : bytes -> bytes;
  (** [None] for an unspendable script, else the 11 byte hashX. *)
  hashX_from_script : bytes -> option bytes
}.

(** The address-history sub-index is an external collaborator; the block
    processor only relies on the interface below.  [hist_flushed] is the
    condition [history.assert_flushed()] asserts, and a flush establishes
    it. *)
Class HistoryIndex := {
  History : Type;
  hist_add_unflushed : list (list bytes) -> Z -> History -> History;
  hist_flush : History -> History * Z;
  hist_backup : gset bytes -> Z -> History -> History * Z;
  hist_cancel_compaction : History -> History;
  hist_unflushed_memsize : History -> Z;
  hist_flush_count : History -> Z;
  hist_flushed : History -> bool;
  hist_flush_flushed : forall h, hist_flushed (hist_flush h).1 = true
}.

(** [HASHX_LEN] of [electrumx.lib.hash]. *)
Definition HASHX_LEN : Z := 11.

(** The daemon as the block processor sees it while a reorg is handled. *)
Record Daemon := mkDaemon {
  block_hex_hashes : Z -> Z -> list bytes;
  raw_blocks : list bytes -> list bytes
}.

(** Exceptions.  [ChainError] is the fatal error of the module; the
    others are the Python run-time errors the code can run into. *)
Inductive chain_error :=
| BackupNotTip      (* 'backup block {} not tip {} at height {}' *)
| NoUndoInfo        (* 'no undo information found for height {}' *)
| UtxoNotFound.     (* 'UTXO {} / {} not found in "h" table' *)

Inductive exn :=
| ChainError (e : chain_error)
| AssertionError
| StructError
| IndexError
| OverflowError.

#[global] Instance chain_error_eq_dec : EqDecision chain_error.
Proof. solve_decision. Defined.
#[global] Instance exn_eq_dec : EqDecision exn.
Proof. solve_decision. Defined.

(** A write batch of the store: puts and deletes, applied in order when
    the batch is committed. *)
Inductive batch_op :=
| BPut (k v : bytes)
| BDelete (k : bytes).

Definition apply_op (db : gmap bytes bytes) (o : batch_op) : gmap bytes bytes :=
  match o with
  | BPut k v => <[k := v]> db
  | BDelete k => delete k db
  end.

Definition commit (db : gmap bytes bytes) (ops : list batch_op) : gmap bytes bytes :=
  foldl apply_op db ops.

(** [utxo_db.iterator(prefix=p)]: the entries whose key starts with [p],
    in key order. *)
Definition db_iterator (p : bytes) (db : gmap bytes bytes) : list (bytes * bytes) :=
  merge_sort key_le (filter (fun kv => p `prefix_of` kv.1) (map_to_list db)).

(** ** The state-and-exception monad

    A method either returns a value and the state it leaves behind, or
    raises an exception; the state the exception escapes with is kept. *)

Inductive result (S A : Type) : Type :=
| Ok (a : A) (st : S)
| Raise (e : exn) (st : S).
Arguments Ok {S A} a st.
Arguments Raise {S A} e st.

Definition M (S A : Type) : Type := S -> result S A.

Definition ret {S A} (a : A) : M S A := fun st => Ok a st.

Definition bind {S A B} (m : M S A) (k : A -> M S B) : M S B :=
  fun st => match m st with
            | Ok a st' => k a st'
            | Raise e st' => Raise e st'
            end.

Definition raise {S A} (e : exn) : M S A := fun st => Raise e st.
Definition get {S} : M S S := fun st => Ok st st.
Definition gets {S A} (f : S -> A) : M S A := fun st => Ok (f st) st.
Definition modify {S} (f : S -> S) : M S unit := fun st => Ok tt (f st).

Notation "'let*' x ':=' c1 'in' c2" := (bind c1 (fun x => c2))
  (at level 10, x name, c1 at level 100, c2 at level 200).
Notation "'let*' ' p ':=' c1 'in' c2" := (bind c1 (fun x => match x with p => c2 end))
  (at level 10, p pattern, c1 at level 100, c2 at level 200).
Notation "'do*' c1 'in' c2" := (bind c1 (fun _ => c2))
  (at level 10, c1 at level 100, c2 at level 200).

(** [assert b] *)
Definition py_assert {S} (b : bool) : M S unit :=
  if b then ret tt else raise AssertionError.

(** [struct.pack] and [struct.unpack] raise [struct.error]. *)
Definition struct_op {S A} (o : option A) : M S A :=
  match o with Some a => ret a | None => raise StructError end.

(** [for x in l: body(x)] *)
Fixpoint for_each {S A} (l : list A) (body : A -> M S unit) : M S unit :=
  match l with
  | [] => ret tt
  | x :: l' => do* body x in for_each l' body
  end.

Section BlockProcessor.
Context `{HI : HistoryIndex} `{CN : Coin}.

(** ** The state of a [BlockProcessor]

    The first group of fields is inherited from [electrumx.server.db.DB]
    (the store, the flushed counters and the file system archive), the
    second is [BlockProcessor]'s own, the last is the environment: the
    configured reorg limit, the daemon's cached height and the clock. *)
Record BlockProcessor := mkBP {
  utxo_db : gmap bytes bytes;
  history : History;
  db_height : Z;
  db_tx_count : Z;
  db_tip : bytes;
  fs_height : Z;
  fs_tx_count : Z;
  tx_counts : list Z;
  utxo_flush_count : Z;
  wall_time : Z;
  headers_file : list bytes;
  hashes_file : bytes;
  raw_block_files : gmap Z bytes;
  height : Z;
  tip : bytes;
  tx_count : Z;
  cache_MB : Z;
  next_cache_check : Z;
  last_flush : Z;
  last_flush_tx_count : Z;
  touched : gset bytes;
  headers : list bytes;
  tx_hashes : list bytes;
  undo_infos : list (list bytes * Z);
  utxo_cache : gmap bytes bytes;
  db_deletes : list bytes;
  caught_up_event : bool;
  reorg_limit : Z;
  daemon_height : Z;
  clock : nat -> Z;
  ticks : nat
}.

Definition set_utxo_db (v : gmap bytes bytes) (st : BlockProcessor) : BlockProcessor :=
  mkBP v (history st) (db_height st) (db_tx_count st) (db_tip st) (fs_height st) (fs_tx_count st) (tx_counts st) (utxo_flush_count st) (wall_time st) (headers_file st) (hashes_file st) (raw_block_files st) (height st) (tip st) (tx_count st) (cache_MB st) (next_cache_check st) (last_flush st) (last_flush_tx_count st) (touched st) (headers st) (tx_hashes st) (undo_infos st) (utxo_cache st) (db_deletes st) (caught_up_event st) (reorg_limit st) (daemon_height st) (clock st) (ticks st).
Definition set_history (v : History) (st : BlockProcessor) : BlockProcessor :=
  mkBP (utxo_db st) v (db_height st) (db_tx_count st) (db_tip st) (fs_height st) (fs_tx_count st) (tx_counts st) (utxo_flush_count st) (wall_time st) (headers_file st) (hashes_file st) (raw_block_files st) (height st) (tip st) (tx_count st) (cache_MB st) (next_cache_check st) (last_flush st) (last_flush_tx_count st) (touched st) (headers st) (tx_hashes st) (undo_infos st) (utxo_cache st) (db_deletes st) (caught_up_event st) (reorg_limit st) (daemon_height st) (clock st) (ticks st).
Definition set_db_height (v : Z) (st : BlockProcessor) : BlockProcessor :=
  mkBP (utxo_db st) (history st) v (db_tx_count st) (db_tip st) (fs_height st) (fs_tx_count st) (tx_counts st) (utxo_flush_count st) (wall_time st) (headers_file st) (hashes_file st) (raw_block_files st) (height st) (tip st) (tx_count st) (cache_MB st) (next_cache_check st) (last_flush st) (last_flush_tx_count st) (touched st) (headers st) (tx_hashes st) (undo_infos st) (utxo_cache st) (db_deletes st) (caught_up_event st) (reorg_limit st) (daemon_height st) (clock st) (ticks st).
Definition set_db_tx_count (v : Z) (st : BlockProcessor) : BlockProcessor :=
  mkBP (utxo_db st) (history st) (db_height st) v (db_tip st) (fs_height st) (fs_tx_count st) (tx_counts st) (utxo_flush_count st) (wall_time st) (headers_file st) (hashes_file st) (raw_block_files st) (height st) (tip st) (tx_count st) (cache_MB st) (next_cache_check st) (last_flush st) (last_flush_tx_count st) (touched st) (headers st) (tx_hashes st) (undo_infos st) (utxo_cache st) (db_deletes st) (caught_up_event st) (reorg_limit st) (daemon_height st) (clock st) (ticks st).
Definition set_db_tip (v : bytes) (st : BlockProcessor) : BlockProcessor :=
  mkBP (utxo_db st) (history st) (db_height st) (db_tx_count st) v (fs_height st) (fs_tx_count st) (tx_counts st) (utxo_flush_count st) (wall_time st) (headers_file st) (hashes_file st) (raw_block_files st) (height st) (tip st) (tx_count st) (cache_MB st) (next_cache_check st) (last_flush st) (last_flush_tx_count st) (touched st) (headers st) (tx_hashes st) (undo_infos st) (utxo_cache st) (db_deletes st) (caught_up_event st) (reorg_limit st) (daemon_height st) (clock st) (ticks st).
Definition set_fs_height (v : Z) (st : BlockProcessor) : BlockProcessor :=
  mkBP (utxo_db st) (history st) (db_height st) (db_tx_count st) (db_tip st) v (fs_tx_count st) (tx_counts st) (utxo_flush_count st) (wall_time st) (headers_file st) (hashes_file st) (raw_block_files st) (height st) (tip st) (tx_count st) (cache_MB st) (next_cache_check st) (last_flush st) (last_flush_tx_count st) (touched st) (headers st) (tx_hashes st) (undo_infos st) (utxo_cache st) (db_deletes st) (caught_up_event st) (reorg_limit st) (daemon_height st) (clock st) (ticks st).
Definition set_fs_tx_count (v : Z) (st : BlockProcessor) : BlockProcessor :=
  mkBP (utxo_db st) (history st) (db_height st) (db_tx_count st) (db_tip st) (fs_height st) v (tx_counts st) (utxo_flush_count st) (wall_time st) (headers_file st) (hashes_file st) (raw_block_files st) (height st) (tip st) (tx_count st) (cache_MB st) (next_cache_check st) (last_flush st) (last_flush_tx_count st) (touched st) (headers st) (tx_hashes st) (undo_infos st) (utxo_cache st) (db_deletes st) (caught_up_event st) (reorg_limit st) (daemon_height st) (clock st) (ticks st).
Definition set_tx_counts (v : list Z) (st : BlockProcessor) : BlockProcessor :=
  mkBP (utxo_db st) (history st) (db_height st) (db_tx_count st) (db_tip st) (fs_height st) (fs_tx_count st) v (utxo_flush_count st) (wall_time st) (headers_file st) (hashes_file st) (raw_block_files st) (height st) (tip st) (tx_count st) (cache_MB st) (next_cache_check st) (last_flush st) (last_flush_tx_count st) (touched st) (headers st) (tx_hashes st) (undo_infos st) (utxo_cache st) (db_deletes st) (caught_up_event st) (reorg_limit st) (daemon_height st) (clock st) (ticks st).
Definition set_utxo_flush_count (v : Z) (st : BlockProcessor) : BlockProcessor :=
  mkBP (utxo_db st) (history st) (db_height st) (db_tx_count st) (db_tip st) (fs_height st) (fs_tx_count st) (tx_counts st) v (wall_time st) (headers_file st) (hashes_file st) (raw_block_files st) (height st) (tip st) (tx_count st) (cache_MB st) (next_cache_check st) (last_flush st) (last_flush_tx_count st) (touched st) (headers st) (tx_hashes st) (undo_infos st) (utxo_cache st) (db_deletes st) (caught_up_event st) (reorg_limit st) (daemon_height st) (clock st) (ticks st).
Definition set_wall_time (v : Z) (st : BlockProcessor) : BlockProcessor :=
  mkBP (utxo_db st) (history st) (db_height st) (db_tx_count st) (db_tip st) (fs_height st) (fs_tx_count st) (tx_counts st) (utxo_flush_count st) v (headers_file st) (hashes_file st) (raw_block_files st) (height st) (tip st) (tx_count st) (cache_MB st) (next_cache_check st) (last_flush st) (last_flush_tx_count st) (touched st) (headers st) (tx_hashes st) (undo_infos st) (utxo_cache st) (db_deletes st) (caught_up_event st) (reorg_limit st) (daemon_height st) (clock st) (ticks st).
Definition set_headers_file (v : list bytes) (st : BlockProcessor) : BlockProcessor :=
  mkBP (utxo_db st) (history st) (db_height st) (db_tx_count st) (db_tip st) (fs_height st) (fs_tx_count st) (tx_counts st) (utxo_flush_count st) (wall_time st) v (hashes_file st) (raw_block_files st) (height st) (tip st) (tx_count st) (cache_MB st) (next_cache_check st) (last_flush st) (last_flush_tx_count st) (touched st) (headers st) (tx_hashes st) (undo_infos st) (utxo_cache st) (db_deletes st) (caught_up_event st) (reorg_limit st) (daemon_height st) (clock st) (ticks st).
Definition set_hashes_file (v : bytes) (st : BlockProcessor) : BlockProcessor :=
  mkBP (utxo_db st) (history st) (db_height st) (db_tx_count st) (db_tip st) (fs_height st) (fs_tx_count st) (tx_counts st) (utxo_flush_count st) (wall_time st) (headers_file st) v (raw_block_files st) (height st) (tip st) (tx_count st) (cache_MB st) (next_cache_check st) (last_flush st) (last_flush_tx_count st) (touched st) (headers st) (tx_hashes st) (undo_infos st) (utxo_cache st) (db_deletes st) (caught_up_event st) (reorg_limit st) (daemon_height st) (clock st) (ticks st).
Definition set_raw_block_files (v : gmap Z bytes) (st : BlockProcessor) : BlockProcessor :=
  mkBP (utxo_db st) (history st) (db_height st) (db_tx_count st) (db_tip st) (fs_height st) (fs_tx_count st) (tx_counts st) (utxo_flush_count st) (wall_time st) (headers_file st) (hashes_file st) v (height st) (tip st) (tx_count st) (cache_MB st) (next_cache_check st) (last_flush st) (last_flush_tx_count st) (touched st) (headers st) (tx_hashes st) (undo_infos st) (utxo_cache st) (db_deletes st) (caught_up_event st) (reorg_limit st) (daemon_height st) (clock st) (ticks st).
Definition set_height (v : Z) (st : BlockProcessor) : BlockProcessor :=
  mkBP (utxo_db st) (history st) (db_height st) (db_tx_count st) (db_tip st) (fs_height st) (fs_tx_count st) (tx_counts st) (utxo_flush_count st) (wall_time st) (headers_file st) (hashes_file st) (raw_block_files st) v (tip st) (tx_count st) (cache_MB st) (next_cache_check st) (last_flush st) (last_flush_tx_count st) (touched st) (headers st) (tx_hashes st) (undo_infos st) (utxo_cache st) (db_deletes st) (caught_up_event st) (reorg_limit st) (daemon_height st) (clock st) (ticks st).
Definition set_tip (v : bytes) (st : BlockProcessor) : BlockProcessor :=
  mkBP (utxo_db st) (history st) (db_height st) (db_tx_count st) (db_tip st) (fs_height st) (fs_tx_count st) (tx_counts st) (utxo_flush_count st) (wall_time st) (headers_file st) (hashes_file st) (raw_block_files st) (height st) v (tx_count st) (cache_MB st) (next_cache_check st) (last_flush st) (last_flush_tx_count st) (touched st) (headers st) (tx_hashes st) (undo_infos st) (utxo_cache st) (db_deletes st) (caught_up_event st) (reorg_limit st) (daemon_height st) (clock st) (ticks st).
Definition set_tx_count (v : Z) (st : BlockProcessor) : BlockProcessor :=
  mkBP (utxo_db st) (history st) (db_height st) (db_tx_count st) (db_tip st) (fs_height st) (fs_tx_count st) (tx_counts st) (utxo_flush_count st) (wall_time st) (headers_file st) (hashes_file st) (raw_block_files st) (height st) (tip st) v (cache_MB st) (next_cache_check st) (last_flush st) (last_flush_tx_count st) (touched st) (headers st) (tx_hashes st) (undo_infos st) (utxo_cache st) (db_deletes st) (caught_up_event st) (reorg_limit st) (daemon_height st) (clock st) (ticks st).
Definition set_cache_MB (v : Z) (st : BlockProcessor) : BlockProcessor :=
  mkBP (utxo_db st) (history st) (db_height st) (db_tx_count st) (db_tip st) (fs_height st) (fs_tx_count st) (tx_counts st) (utxo_flush_count st) (wall_time st) (headers_file st) (hashes_file st) (raw_block_files st) (height st) (tip st) (tx_count st) v (next_cache_check st) (last_flush st) (last_flush_tx_count st) (touched st) (headers st) (tx_hashes st) (undo_infos st) (utxo_cache st) (db_deletes st) (caught_up_event st) (reorg_limit st) (daemon_height st) (clock st) (ticks st).
Definition set_next_cache_check (v : Z) (st : BlockProcessor) : BlockProcessor :=
  mkBP (utxo_db st) (history st) (db_height st) (db_tx_count st) (db_tip st) (fs_height st) (fs_tx_count st) (tx_counts st) (utxo_flush_count st) (wall_time st) (headers_file st) (hashes_file st) (raw_block_files st) (height st) (tip st) (tx_count st) (cache_MB st) v (last_flush st) (last_flush_tx_count st) (touched st) (headers st) (tx_hashes st) (undo_infos st) (utxo_cache st) (db_deletes st) (caught_up_event st) (reorg_limit st) (daemon_height st) (clock st) (ticks st).
Definition set_last_flush (v : Z) (st : BlockProcessor) : BlockProcessor :=
  mkBP (utxo_db st) (history st) (db_height st) (db_tx_count st) (db_tip st) (fs_height st) (fs_tx_count st) (tx_counts st) (utxo_flush_count st) (wall_time st) (headers_file st) (hashes_file st) (raw_block_files st) (height st) (tip st) (tx_count st) (cache_MB st) (next_cache_check st) v (last_flush_tx_count st) (touched st) (headers st) (tx_hashes st) (undo_infos st) (utxo_cache st) (db_deletes st) (caught_up_event st) (reorg_limit st) (daemon_height st) (clock st) (ticks st).
Definition set_last_flush_tx_count (v : Z) (st : BlockProcessor) : BlockProcessor :=
  mkBP (utxo_db st) (history st) (db_height st) (db_tx_count st) (db_tip st) (fs_height st) (fs_tx_count st) (tx_counts st) (utxo_flush_count st) (wall_time st) (headers_file st) (hashes_file st) (raw_block_files st) (height st) (tip st) (tx_count st) (cache_MB st) (next_cache_check st) (last_flush st) v (touched st) (headers st) (tx_hashes st) (undo_infos st) (utxo_cache st) (db_deletes st) (caught_up_event st) (reorg_limit st) (daemon_height st) (clock st) (ticks st).
Definition set_touched (v : gset bytes) (st : BlockProcessor) : BlockProcessor :=
  mkBP (utxo_db st) (history st) (db_height st) (db_tx_count st) (db_tip st) (fs_height st) (fs_tx_count st) (tx_counts st) (utxo_flush_count st) (wall_time st) (headers_file st) (hashes_file st) (raw_block_files st) (height st) (tip st) (tx_count st) (cache_MB st) (next_cache_check st) (last_flush st) (last_flush_tx_count st) v (headers st) (tx_hashes st) (undo_infos st) (utxo_cache st) (db_deletes st) (caught_up_event st) (reorg_limit st) (daemon_height st) (clock st) (ticks st).
Definition set_headers (v : list bytes) (st : BlockProcessor) : BlockProcessor :=
  mkBP (utxo_db st) (history st) (db_height st) (db_tx_count st) (db_tip st) (fs_height st) (fs_tx_count st) (tx_counts st) (utxo_flush_count st) (wall_time st) (headers_file st) (hashes_file st) (raw_block_files st) (height st) (tip st) (tx_count st) (cache_MB st) (next_cache_check st) (last_flush st) (last_flush_tx_count st) (touched st) v (tx_hashes st) (undo_infos st) (utxo_cache st) (db_deletes st) (caught_up_event st) (reorg_limit st) (daemon_height st) (clock st) (ticks st).
Definition set_tx_hashes (v : list bytes) (st : BlockProcessor) : BlockProcessor :=
  mkBP (utxo_db st) (history st) (db_height st) (db_tx_count st) (db_tip st) (fs_height st) (fs_tx_count st) (tx_counts st) (utxo_flush_count st) (wall_time st) (headers_file st) (hashes_file st) (raw_block_files st) (height st) (tip st) (tx_count st) (cache_MB st) (next_cache_check st) (last_flush st) (last_flush_tx_count st) (touched st) (headers st) v (undo_infos st) (utxo_cache st) (db_deletes st) (caught_up_event st) (reorg_limit st) (daemon_height st) (clock st) (ticks st).
Definition set_undo_infos (v : list (list bytes * Z)) (st : BlockProcessor) : BlockProcessor :=
  mkBP (utxo_db st) (history st) (db_height st) (db_tx_count st) (db_tip st) (fs_height st) (fs_tx_count st) (tx_counts st) (utxo_flush_count st) (wall_time st) (headers_file st) (hashes_file st) (raw_block_files st) (height st) (tip st) (tx_count st) (cache_MB st) (next_cache_check st) (last_flush st) (last_flush_tx_count st) (touched st) (headers st) (tx_hashes st) v (utxo_cache st) (db_deletes st) (caught_up_event st) (reorg_limit st) (daemon_height st) (clock st) (ticks st).
Definition set_utxo_cache (v : gmap bytes bytes) (st : BlockProcessor) : BlockProcessor :=
  mkBP (utxo_db st) (history st) (db_height st) (db_tx_count st) (db_tip st) (fs_height st) (fs_tx_count st) (tx_counts st) (utxo_flush_count st) (wall_time st) (headers_file st) (hashes_file st) (raw_block_files st) (height st) (tip st) (tx_count st) (cache_MB st) (next_cache_check st) (last_flush st) (last_flush_tx_count st) (touched st) (headers st) (tx_hashes st) (undo_infos st) v (db_deletes st) (caught_up_event st) (reorg_limit st) (daemon_height st) (clock st) (ticks st).
Definition set_db_deletes (v : list bytes) (st : BlockProcessor) : BlockProcessor :=
  mkBP (utxo_db st) (history st) (db_height st) (db_tx_count st) (db_tip st) (fs_height st) (fs_tx_count st) (tx_counts st) (utxo_flush_count st) (wall_time st) (headers_file st) (hashes_file st) (raw_block_files st) (height st) (tip st) (tx_count st) (cache_MB st) (next_cache_check st) (last_flush st) (last_flush_tx_count st) (touched st) (headers st) (tx_hashes st) (undo_infos st) (utxo_cache st) v (caught_up_event st) (reorg_limit st) (daemon_height st) (clock st) (ticks st).
Definition set_caught_up_event (v : bool) (st : BlockProcessor) : BlockProcessor :=
  mkBP (utxo_db st) (history st) (db_height st) (db_tx_count st) (db_tip st) (fs_height st) (fs_tx_count st) (tx_counts st) (utxo_flush_count st) (wall_time st) (headers_file st) (hashes_file st) (raw_block_files st) (height st) (tip st) (tx_count st) (cache_MB st) (next_cache_check st) (last_flush st) (last_flush_tx_count st) (touched st) (headers st) (tx_hashes st) (undo_infos st) (utxo_cache st) (db_deletes st) v (reorg_limit st) (daemon_height st) (clock st) (ticks st).
Definition set_reorg_limit (v : Z) (st : BlockProcessor) : BlockProcessor :=
  mkBP (utxo_db st) (history st) (db_height st) (db_tx_count st) (db_tip st) (fs_height st) (fs_tx_count st) (tx_counts st) (utxo_flush_count st) (wall_time st) (headers_file st) (hashes_file st) (raw_block_files st) (height st) (tip st) (tx_count st) (cache_MB st) (next_cache_check st) (last_flush st) (last_flush_tx_count st) (touched st) (headers st) (tx_hashes st) (undo_infos st) (utxo_cache st) (db_deletes st) (caught_up_event st) v (daemon_height st) (clock st) (ticks st).
Definition set_daemon_height (v : Z) (st : BlockProcessor) : BlockProcessor :=
  mkBP (utxo_db st) (history st) (db_height st) (db_tx_count st) (db_tip st) (fs_height st) (fs_tx_count st) (tx_counts st) (utxo_flush_count st) (wall_time st) (headers_file st) (hashes_file st) (raw_block_files st) (height st) (tip st) (tx_count st) (cache_MB st) (next_cache_check st) (last_flush st) (last_flush_tx_count st) (touched st) (headers st) (tx_hashes st) (undo_infos st) (utxo_cache st) (db_deletes st) (caught_up_event st) (reorg_limit st) v (clock st) (ticks st).
Definition set_clock (v : nat -> Z) (st : BlockProcessor) : BlockProcessor :=
  mkBP (utxo_db st) (history st) (db_height st) (db_tx_count st) (db_tip st) (fs_height st) (fs_tx_count st) (tx_counts st) (utxo_flush_count st) (wall_time st) (headers_file st) (hashes_file st) (raw_block_files st) (height st) (tip st) (tx_count st) (cache_MB st) (next_cache_check st) (last_flush st) (last_flush_tx_count st) (touched st) (headers st) (tx_hashes st) (undo_infos st) (utxo_cache st) (db_deletes st) (caught_up_event st) (reorg_limit st) (daemon_height st) v (ticks st).
Definition set_ticks (v : nat) (st : BlockProcessor) : BlockProcessor :=
  mkBP (utxo_db st) (history st) (db_height st) (db_tx_count st) (db_tip st) (fs_height st) (fs_tx_count st) (tx_counts st) (utxo_flush_count st) (wall_time st) (headers_file st) (hashes_file st) (raw_block_files st) (height st) (tip st) (tx_count st) (cache_MB st) (next_cache_check st) (last_flush st) (last_flush_tx_count st) (touched st) (headers st) (tx_hashes st) (undo_infos st) (utxo_cache st) (db_deletes st) (caught_up_event st) (reorg_limit st) (daemon_height st) (clock st) v.

Abbreviation BP := (M BlockProcessor).

(** [time.time()]: the next reading of the clock. *)
Definition time_time : BP Z :=
  fun st => Ok (clock st (ticks st)) (set_ticks (S (ticks st)) st).

(** ** Methods inherited from [DB]

    [electrumx/server/db.py] is not among the sources; the helpers of it
    that the block processor calls are written from the design document. *)

(** Modelled from the spec: [DB.min_undo_height] is missing; undo
    information is kept for the heights within [reorg_limit] of the
    daemon's tip. *)
Definition min_undo_height (st : BlockProcessor) (max_height : Z) : Z :=
  max_height - reorg_limit st + 1.

(** Modelled from the spec: [DB.fs_update] is missing; headers and
    transaction hashes are appended to the archive, indexed by height:
    the headers after the first [fs_height + 1] ones, the hashes after
    those of the first [fs_tx_count] transactions. *)
Definition fs_update (fsh : Z) (hdrs txhs : list bytes) : BP unit :=
  modify (fun st =>
    set_hashes_file (take (Z.to_nat (32 * fs_tx_count st)) (hashes_file st) ++ concat txhs)
      (set_headers_file (take (Z.to_nat (fsh + 1)) (headers_file st) ++ hdrs) st)).

(** Modelled from the spec: [DB.fs_tx_hash] is missing; it maps a
    transaction ordinal back to the 32 byte hash archived for it, [None]
    when the archive does not reach that far.  (The height it also
    returns is not used by the block processor.) *)
Definition fs_tx_hash (st : BlockProcessor) (tx_num : Z) : option bytes :=
  if (0 <=? tx_num) && (32 * tx_num + 32 <=? Z.of_nat (length (hashes_file st)))
  then Some (slice (hashes_file st) (32 * tx_num) (32 * tx_num + 32))
  else None.

(** Modelled from the spec: [DB.fs_block_hashes] is missing; the header
    hashes of the archived heights [start .. start + count - 1]. *)
Definition fs_block_hashes (st : BlockProcessor) (start count : Z) : list bytes :=
  map header_hash (take (Z.to_nat count) (drop (Z.to_nat start) (headers_file st))).

(** Modelled from the spec: [DB.write_raw_block] and [DB.read_raw_block]
    are missing; the raw block archive is indexed by height and reading
    a height that was never written fails. *)
Definition write_raw_block (raw_block : bytes) (h : Z) : BP unit :=
  modify (fun st => set_raw_block_files (<[h := raw_block]> (raw_block_files st)) st).

Definition read_raw_block (st : BlockProcessor) (h : Z) : option bytes :=
  raw_block_files st !! h.

(** Modelled from the spec: [DB.undo_key], [DB.flush_undo_infos] and
    [DB.read_undo_info] are missing; the undo record of a height is the
    flat concatenation of the values spent at that height, stored in the
    key/value store under a key of the height (db.py's choice of key:
    ['U'] and the height as 4 big endian bytes). *)
Definition undo_key (h : Z) : bytes := x55 :: be_bytes 4 h.

Definition flush_undo_infos (infos : list (list bytes * Z)) : list batch_op :=
  map (fun '(undo_info, h) => BPut (undo_key h) (concat undo_info)) infos.

Definition read_undo_info (st : BlockProcessor) (h : Z) : option bytes :=
  utxo_db st !! undo_key h.

(** Modelled from the spec: [DB.write_utxo_state] is missing; the chain
    state (height, tip, tx count, flush count, wall time) is written
    under one key.  The byte format of the record is a choice of this
    model. *)
Definition state_key : bytes := [x73; x74; x61; x74; x65].

Definition write_utxo_state (st : BlockProcessor) : list batch_op :=
  [BPut state_key
     (le_bytes 4 (db_height st) ++ le_bytes 4 (db_tx_count st) ++
      le_bytes 4 (utxo_flush_count st) ++ le_bytes 8 (wall_time st) ++ db_tip st)].

(** ** The UTXO cache *)

Definition h_prefix : bytes := [x68].
Definition u_prefix : bytes := [x75].

(** [self.utxo_cache.pop(key, None)] *)
Definition cache_pop (key : bytes) : BP (option bytes) :=
  fun st => match utxo_cache st !! key with
            | Some v => Ok (Some v) (set_utxo_cache (delete key (utxo_cache st)) st)
            | None => Ok None st
            end.

(** [self.utxo_cache.__setitem__] *)
Definition put_utxo (key val : bytes) : BP unit :=
  modify (fun st => set_utxo_cache (<[key := val]> (utxo_cache st)) st).

(** The loop of [spend_utxo] over the candidates of the prefix scan;
    [ncand] is [len(candidates)]. *)
Fixpoint spend_scan (tx_hash : bytes) (ncand : nat) (cands : list (bytes * bytes))
  : BP bytes :=
  match cands with
  | [] => raise (ChainError UtxoNotFound)
  | (hdb_key, hashX) :: rest =>
      let tx_num_packed := slice_from hdb_key (-4) in
      let* skip :=
        (if decide (1 < ncand)%nat then
           let* tx_num := struct_op (unpack_le 4 tx_num_packed) in
           let* hash := gets (fun st => fs_tx_hash st tx_num) in
           if decide (hash = Some tx_hash) then ret false
           else do* py_assert (bool_decide (hash <> None)) in ret true
         else ret false) in
      if (skip : bool) then spend_scan tx_hash ncand rest
      else
        let udb_key := u_prefix ++ hashX ++ slice_from hdb_key (-6) in
        let* utxo_value_packed := gets (fun st => utxo_db st !! udb_key) in
        if truthy utxo_value_packed then
          do* modify (fun st => set_db_deletes (db_deletes st ++ [hdb_key]) st) in
          do* modify (fun st => set_db_deletes (db_deletes st ++ [udb_key]) st) in
          ret (hashX ++ tx_num_packed ++ default [] utxo_value_packed)
        else spend_scan tx_hash ncand rest
  end.

Definition spend_utxo (tx_hash : bytes) (tx_idx : Z) : BP bytes :=
  let* idx_packed := struct_op (pack_le 2 tx_idx) in
  let* cache_value := cache_pop (tx_hash ++ idx_packed) in
  if truthy cache_value then ret (default [] cache_value)
  else
    let prefix := h_prefix ++ slice_to tx_hash 4 ++ idx_packed in
    let* candidates := gets (fun st => db_iterator prefix (utxo_db st)) in
    spend_scan tx_hash (length candidates) candidates.

(** ** Flushing *)

(** [flush_state(batch)]: account the wall time and write the chain
    state.  The writes are returned; the caller adds them to its batch or
    applies them to the store directly. *)
Definition flush_state : BP (list batch_op) :=
  let* now := time_time in
  do* modify (fun st => set_wall_time (wall_time st + (now - last_flush st)) st) in
  do* modify (set_last_flush now) in
  do* modify (fun st => set_last_flush_tx_count (tx_count st) st) in
  gets write_utxo_state.

Definition assert_flushed : BP unit :=
  let* st := get in
  do* py_assert (bool_decide (tx_count st = fs_tx_count st /\ fs_tx_count st = db_tx_count st)) in
  do* py_assert (bool_decide (height st = fs_height st /\ fs_height st = db_height st)) in
  do* py_assert (bool_decide (undo_infos st = [])) in
  do* py_assert (bool_decide (utxo_cache st = ∅)) in
  do* py_assert (bool_decide (db_deletes st = [])) in
  py_assert (hist_flushed (history st)).

(** [fs_flush].  The second assertion reads
    [assert self.tx_count == self.tx_counts[-1] if self.tx_counts else 0]:
    with an empty [tx_counts] it asserts [0]. *)
Definition fs_flush : BP unit :=
  let* st := get in
  do* py_assert (bool_decide (fs_height st + Z.of_nat (length (headers st)) = height st)) in
  do* py_assert (match last (tx_counts st) with
                 | Some c => bool_decide (tx_count st = c)
                 | None => false
                 end) in
  do* fs_update (fs_height st) (headers st) (tx_hashes st) in
  do* modify (fun st => set_fs_height (height st) st) in
  do* modify (fun st => set_fs_tx_count (tx_count st) st) in
  do* modify (set_tx_hashes []) in
  modify (set_headers []).

(** The two records a cache entry is written as. *)
Definition utxo_puts (kv : bytes * bytes) : list batch_op :=
  let '(cache_key, cache_value) := kv in
  let hashX := slice_to cache_value (-12) in
  let suffix := slice_from cache_key (-2) ++ slice cache_value (-12) (-8) in
  [BPut (h_prefix ++ slice_to cache_key 4 ++ suffix) hashX;
   BPut (u_prefix ++ hashX ++ suffix) (slice_from cache_value (-8))].

(** [flush_utxos(batch)]: the writes for the batch are returned.  The
    dict is walked in the order of [map_to_list]; Python walks it in
    insertion order, which only matters if two entries write one key. *)
Definition flush_utxos : BP (list batch_op) :=
  let* st := get in
  let deletes := map BDelete (merge_sort bytes_le (db_deletes st)) in
  do* modify (set_db_deletes []) in
  let puts := flat_map utxo_puts (map_to_list (utxo_cache st)) in
  do* modify (set_utxo_cache ∅) in
  let undos := flush_undo_infos (undo_infos st) in
  do* modify (set_undo_infos []) in
  do* modify (fun st => set_utxo_flush_count (hist_flush_count (history st)) st) in
  do* modify (fun st => set_db_tx_count (tx_count st) st) in
  do* modify (fun st => set_db_height (height st) st) in
  do* modify (fun st => set_db_tip (tip st) st) in
  ret (deletes ++ puts ++ undos).

Definition flush (flush_utxos_flag : bool) : BP unit :=
  let* st := get in
  if decide (height st = db_height st) then assert_flushed
  else
    do* fs_flush in
    do* modify (fun st => set_history (hist_flush (history st)).1 st) in
    let* ops1 := (if flush_utxos_flag then flush_utxos else ret []) in
    let* ops2 := flush_state in
    do* modify (fun st => set_utxo_db (commit (utxo_db st) (ops1 ++ ops2)) st) in
    let* ops3 := flush_state in
    modify (fun st => set_utxo_db (commit (utxo_db st) ops3) st).

Definition backup_flush : BP unit :=
  let* st := get in
  do* py_assert (bool_decide (height st < db_height st)) in
  do* py_assert (hist_flushed (history st)) in
  do* modify (fun st => set_fs_height (height st) st) in
  do* modify (fun st => set_fs_tx_count (tx_count st) st) in
  do* py_assert (bool_decide (headers st = [])) in
  do* py_assert (bool_decide (tx_hashes st = [])) in
  do* modify (fun st =>
        set_history (hist_backup (touched st) (tx_count st) (history st)).1 st) in
  let* ops1 := flush_utxos in
  let* ops2 := flush_state in
  modify (fun st => set_utxo_db (commit (utxo_db st) (ops1 ++ ops2)) st).

(** The estimates of [check_cache_size], in whole megabytes. *)
Definition one_MB : Z := 1000 * 1000.

Definition utxo_MB (st : BlockProcessor) : Z :=
  let utxo_cache_size := Z.of_nat (size (utxo_cache st)) * 205 in
  let db_deletes_size := Z.of_nat (length (db_deletes st)) * 57 in
  (db_deletes_size + utxo_cache_size) / one_MB.

Definition hist_MB (st : BlockProcessor) : Z :=
  let hist_cache_size := hist_unflushed_memsize (history st) in
  let tx_hash_size := (tx_count st - fs_tx_count st) * 32
                      + (height st - fs_height st) * 42 in
  (hist_cache_size + tx_hash_size) / one_MB.

(** What [check_cache_size] decides: [None] when it does not flush,
    [Some b] when it calls [flush(b)]. *)
Definition cache_flush_decision (st : BlockProcessor) : option bool :=
  if (cache_MB st <=? utxo_MB st + hist_MB st) || (cache_MB st / 5 <=? hist_MB st)
  then Some (cache_MB st * 4 / 5 <=? utxo_MB st)
  else None.

Definition check_cache_size : BP unit :=
  let* st := get in
  match cache_flush_decision st with
  | Some b => flush b
  | None => ret tt
  end.

(** ** Advancing *)

(** [for txin in tx.inputs] of [advance_txs]. *)
Fixpoint spend_inputs (ins : list TxInput) (undo_info hashXs : list bytes)
  : BP (list bytes * list bytes) :=
  match ins with
  | [] => ret (undo_info, hashXs)
  | txin :: rest =>
      let* cache_value := spend_utxo (prev_hash txin) (prev_idx txin) in
      spend_inputs rest (undo_info ++ [cache_value])
                   (hashXs ++ [slice_to cache_value (-12)])
  end.

(** [for idx, txout in enumerate(tx.outputs)] of [advance_txs]. *)
Fixpoint add_outputs (tx_hash tx_numb : bytes) (idx : Z) (outs : list TxOutput)
  (hashXs : list bytes) : BP (list bytes) :=
  match outs with
  | [] => ret hashXs
  | txout :: rest =>
      let hashX := hashX_from_script (pk_script txout) in
      if truthy hashX then
        let hashXs := hashXs ++ [default [] hashX] in
        let* idx_packed := struct_op (pack_le 2 idx) in
        let* value_packed := struct_op (pack_le 8 (value txout)) in
        do* put_utxo (tx_hash ++ idx_packed)
                     (default [] hashX ++ tx_numb ++ value_packed) in
        add_outputs tx_hash tx_numb (idx + 1) rest hashXs
      else add_outputs tx_hash tx_numb (idx + 1) rest hashXs
  end.

(** [for tx, tx_hash in txs] of [advance_txs]. *)
Fixpoint advance_txs_loop (txs : list (Tx * bytes)) (tx_num : Z)
  (undo_info : list bytes) (hashXs_by_tx : list (list bytes))
  : BP (Z * list bytes * list (list bytes)) :=
  match txs with
  | [] => ret (tx_num, undo_info, hashXs_by_tx)
  | (tx, tx_hash) :: rest =>
      let* tx_numb := struct_op (pack_le 4 tx_num) in
      let* '(undo_info, hashXs) :=
        (if is_coinbase tx then ret (undo_info, [])
         else spend_inputs (inputs tx) undo_info []) in
      let* hashXs := add_outputs tx_hash tx_numb 0 (outputs tx) hashXs in
      do* modify (fun st => set_touched (touched st ∪ list_to_set hashXs) st) in
      advance_txs_loop rest (tx_num + 1) undo_info (hashXs_by_tx ++ [hashXs])
  end.

(** [self.tx_counts.append(n)] on an [array('I')]. *)
Definition tx_counts_append (n : Z) : BP unit :=
  if (0 <=? n) && (n <? 2 ^ 32)
  then modify (fun st => set_tx_counts (tx_counts st ++ [n]) st)
  else raise OverflowError.

Definition advance_txs (txs : list (Tx * bytes)) : BP (list bytes) :=
  do* modify (fun st => set_tx_hashes (tx_hashes st ++ [concat (map snd txs)]) st) in
  let* tx_num0 := gets tx_count in
  let* '(tx_num, undo_info, hashXs_by_tx) := advance_txs_loop txs tx_num0 [] [] in
  do* modify (fun st =>
        set_history (hist_add_unflushed hashXs_by_tx (tx_count st) (history st)) st) in
  do* modify (set_tx_count tx_num) in
  do* tx_counts_append tx_num in
  ret undo_info.

(** [for block in blocks] of [advance_blocks]; [h] is the local [height]. *)
Fixpoint advance_blocks_loop (blocks : list Block) (min_height h : Z) : BP Z :=
  match blocks with
  | [] => ret h
  | block :: rest =>
      let h := h + 1 in
      let* undo_info := advance_txs (transactions block) in
      do* (if min_height <=? h then
             do* modify (fun st => set_undo_infos (undo_infos st ++ [(undo_info, h)]) st) in
             write_raw_block (raw block) h
           else ret tt) in
      advance_blocks_loop rest min_height h
  end.

Definition advance_blocks (blocks : list Block) : BP unit :=
  let* min_height := gets (fun st => min_undo_height st (daemon_height st)) in
  let* h0 := gets height in
  let* h := advance_blocks_loop blocks min_height h0 in
  let hdrs := map header blocks in
  do* modify (set_height h) in
  do* modify (fun st => set_headers (headers st ++ hdrs) st) in
  let* last_header :=
    (match last hdrs with Some x => ret x | None => raise IndexError end) in
  do* modify (set_tip (header_hash last_header)) in
  let* caught_up := gets caught_up_event in
  if (caught_up : bool) then flush true
  else
    let* now := time_time in
    let* next := gets next_cache_check in
    if next <? now then
      do* check_cache_size in
      let* now' := time_time in
      modify (set_next_cache_check (now' + 30))
    else ret tt.

(** ** Backing up *)

Definition undo_entry_len : Z := 12 + HASHX_LEN.

(** [for idx, txout in enumerate(tx.outputs)] of [backup_txs]. *)
Fixpoint backup_outputs (tx_hash : bytes) (idx : Z) (outs : list TxOutput) : BP unit :=
  match outs with
  | [] => ret tt
  | txout :: rest =>
      do* (if truthy (hashX_from_script (pk_script txout)) then
             let* cache_value := spend_utxo tx_hash idx in
             modify (fun st => set_touched (touched st ∪ {[slice_to cache_value (-12)]}) st)
           else ret tt) in
      backup_outputs tx_hash (idx + 1) rest
  end.

(** [for txin in reversed(tx.inputs)] of [backup_txs]; [n] is the cursor
    into the undo record. *)
Fixpoint backup_inputs (undo_info : bytes) (rev_ins : list TxInput) (n : Z) : BP Z :=
  match rev_ins with
  | [] => ret n
  | txin :: rest =>
      let n := n - undo_entry_len in
      let undo_item := slice undo_info n (n + undo_entry_len) in
      let* idx_packed := struct_op (pack_le 2 (prev_idx txin)) in
      do* put_utxo (prev_hash txin ++ idx_packed) undo_item in
      do* modify (fun st => set_touched (touched st ∪ {[slice_to undo_item (-12)]}) st) in
      backup_inputs undo_info rest n
  end.

(** [for tx, tx_hash in reversed(txs)] of [backup_txs]. *)
Fixpoint backup_txs_loop (undo_info : bytes) (rev_txs : list (Tx * bytes)) (n : Z) : BP Z :=
  match rev_txs with
  | [] => ret n
  | (tx, tx_hash) :: rest =>
      do* backup_outputs tx_hash 0 (outputs tx) in
      let* n := (if is_coinbase tx then ret n
                 else backup_inputs undo_info (rev (inputs tx)) n) in
      backup_txs_loop undo_info rest n
  end.

Definition backup_txs (txs : list (Tx * bytes)) : BP unit :=
  let* undo_info := gets (fun st => read_undo_info st (height st)) in
  match undo_info with
  | None => raise (ChainError NoUndoInfo)
  | Some undo_info =>
      let* n := backup_txs_loop undo_info (rev txs) (Z.of_nat (length undo_info)) in
      do* py_assert (bool_decide (n = 0)) in
      modify (fun st => set_tx_count (tx_count st - Z.of_nat (length txs)) st)
  end.

(** [self.tx_counts.pop()] *)
Definition tx_counts_pop : BP unit :=
  let* cs := gets tx_counts in
  match cs with
  | [] => raise IndexError
  | _ => modify (set_tx_counts (removelast cs))
  end.

(** One turn of [for raw_block in raw_blocks] of [backup_blocks]. *)
Definition backup_block (raw_block : bytes) : BP unit :=
  let* st := get in
  let block := coin_block raw_block (height st) in
  let hh := header_hash (header block) in
  if decide (hh <> tip st) then raise (ChainError BackupNotTip)
  else
    do* modify (set_tip (header_prevhash (header block))) in
    do* backup_txs (transactions block) in
    do* modify (fun st => set_height (height st - 1) st) in
    tx_counts_pop.

Definition backup_blocks (raw_blocks : list bytes) : BP unit :=
  do* assert_flushed in
  let* h := gets height in
  do* py_assert (Z.of_nat (length raw_blocks) <=? h) in
  do* for_each raw_blocks backup_block in
  backup_flush.

(** ** Opening *)


End BlockProcessor.

Abbreviation BP := (M BlockProcessor).

(** Normalise projections of updated states.  Call-by-value keeps the
    terms small: every update is reduced to a constructor before it is
    projected. *)
Ltac simpl_state :=
  cbv beta iota delta [set_utxo_db set_history set_db_height set_db_tx_count set_db_tip set_fs_height set_fs_tx_count set_tx_counts set_utxo_flush_count set_wall_time set_headers_file set_hashes_file set_raw_block_files set_height set_tip set_tx_count set_cache_MB set_next_cache_check set_last_flush set_last_flush_tx_count set_touched set_headers set_tx_hashes set_undo_infos set_utxo_cache set_db_deletes set_caught_up_event set_reorg_limit set_daemon_height set_clock set_ticks utxo_db history db_height db_tx_count db_tip fs_height fs_tx_count tx_counts utxo_flush_count wall_time headers_file hashes_file raw_block_files height tip tx_count cache_MB next_cache_check last_flush last_flush_tx_count touched headers tx_hashes undo_infos utxo_cache db_deletes caught_up_event reorg_limit daemon_height clock ticks].
Ltac simpl_state_in H :=
  cbv beta iota delta [set_utxo_db set_history set_db_height set_db_tx_count set_db_tip set_fs_height set_fs_tx_count set_tx_counts set_utxo_flush_count set_wall_time set_headers_file set_hashes_file set_raw_block_files set_height set_tip set_tx_count set_cache_MB set_next_cache_check set_last_flush set_last_flush_tx_count set_touched set_headers set_tx_hashes set_undo_infos set_utxo_cache set_db_deletes set_caught_up_event set_reorg_limit set_daemon_height set_clock set_ticks utxo_db history db_height db_tx_count db_tip fs_height fs_tx_count tx_counts utxo_flush_count wall_time headers_file hashes_file raw_block_files height tip tx_count cache_MB next_cache_check last_flush last_flush_tx_count touched headers tx_hashes undo_infos utxo_cache db_deletes caught_up_event reorg_limit daemon_height clock ticks] in H.



(** ** Reorganisations *)

(** Modelled from the spec: [electrumx.lib.util.chunks] is missing; the
    consecutive slices of [size] items, the last one possibly shorter. *)
Fixpoint chunks_fuel {A} (fuel size : nat) (l : list A) : list (list A) :=
  match fuel with
  | O => []
  | S fuel' =>
      match l with
      | [] => []
      | _ => take size l :: chunks_fuel fuel' size (drop size l)
      end
  end.

Definition chunks {A} (l : list A) (size : nat) : list (list A) :=
  chunks_fuel (length l) size l.

(** [diff_pos] of [reorg_hashes]: the index of the first difference of
    the zipped lists, else [len(hashes)], where [hashes] is the local
    list of the enclosing scope. *)
Fixpoint diff_pos_zip (n : Z) (hashes1 hashes2 : list bytes) : option Z :=
  match hashes1, hashes2 with
  | hash1 :: r1, hash2 :: r2 =>
      if decide (hash1 <> hash2) then Some n else diff_pos_zip (n + 1) r1 r2
  | _, _ => None
  end.

Definition diff_pos (hashes hashes1 hashes2 : list bytes) : Z :=
  default (Z.of_nat (length hashes)) (diff_pos_zip 0 hashes1 hashes2).

Section Reorg.
Context `{HI : HistoryIndex} `{CN : Coin}.

(** [electrumx.lib.hash.hash_to_hex_str] is not among the sources; it is
    a parameter here. *)
Variable hash_to_hex_str : bytes -> bytes.

(** The [while start > 0] loop of [reorg_hashes]; [None] when the loop
    is still running after [fuel] turns. *)
Fixpoint fork_search (fuel : nat) (st : BlockProcessor) (d : Daemon) (start count : Z)
  : option Z :=
  if 0 <? start then
    match fuel with
    | O => None
    | S fuel' =>
        let hashes := fs_block_hashes st start count in
        let hex_hashes := map hash_to_hex_str hashes in
        let d_hex_hashes := block_hex_hashes d start count in
        let n := diff_pos hashes hex_hashes d_hex_hashes in
        if 0 <? n then Some (start + n)
        else
          let count := Z.min (count * 2) start in
          fork_search fuel' st d (start - count) count
    end
  else Some start.

(** [reorg_hashes(count)]; the search is given [height] turns. *)
Definition reorg_hashes (d : Daemon) (count : option Z) (st : BlockProcessor)
  : option (Z * list bytes) :=
  match count with
  | None =>
      match fork_search (Z.to_nat (height st)) st d (height st - 1) 1 with
      | Some start =>
          let count := (height st - start) + 1 in
          Some (start, fs_block_hashes st start count)
      | None => None
      end
  | Some count =>
      let start := (height st - count) + 1 in
      Some (start, fs_block_hashes st start count)
  end.

(** The heights [get_raw_blocks] reads from the archive:
    [range(last_height, last_height - len(hex_hashes), -1)]. *)
Definition raw_block_heights (last_height : Z) (hex_hashes : list bytes) : list Z :=
  map (fun i => last_height - Z.of_nat i) (seq 0 (length hex_hashes)).

(** [get_raw_blocks]: the blocks of the local archive, or the daemon's
    if reading any of them fails. *)
Definition get_raw_blocks (d : Daemon) (st : BlockProcessor) (last_height : Z)
  (hex_hashes : list bytes) : list bytes :=
  match mapM (read_raw_block st) (raw_block_heights last_height hex_hashes) with
  | Some blocks => blocks
  | None => raw_blocks d hex_hashes
  end.

(** [for hex_hashes in chunks(hashes, 50)] of [reorg_chain]. *)
Fixpoint reorg_backup_loop (d : Daemon) (hash_chunks : list (list bytes)) (last : Z)
  : BP unit :=
  match hash_chunks with
  | [] => ret tt
  | hex_hashes :: rest =>
      let* st := get in
      let raw_blocks := get_raw_blocks d st last hex_hashes in
      do* backup_blocks raw_blocks in
      reorg_backup_loop d rest (last - Z.of_nat (length raw_blocks))
  end.

(** [last] as [reorg_chain] sets it before the loop. *)
Definition reorg_last (count : option Z) (start : Z) : Z :=
  match count with
  | Some count => start + count - 1
  | None => start
  end.

(** [reorg_chain(count)].  The header merkle cache and the prefetcher,
    which it resets at the end, are not part of the state modelled.
    [None] stands for a fork search that does not end. *)
Definition reorg_chain (d : Daemon) (count : option Z) (st : BlockProcessor)
  : option (result BlockProcessor unit) :=
  match flush true st with
  | Raise e st' => Some (Raise e st')
  | Ok _ st1 =>
      match reorg_hashes d count st1 with
      | None => None
      | Some (start, hashes) =>
          let hashes := map hash_to_hex_str (rev hashes) in
          let last := reorg_last count start in
          Some (reorg_backup_loop d (chunks hashes 50) last st1)
      end
  end.

End Reorg.
(** ** A small coin, history index and store for the worked examples *)

(** Scripts starting with [OP_RETURN] (0x6a) and the empty script are
    unspendable; the hashX of any other script is the script padded or
    cut to 11 bytes. *)
Definition toy_hashX (s : bytes) : option bytes :=
  match s with
  | [] => None
  | x6a :: _ => None
  | _ => Some (take 11 (s ++ repeat x00 11))
  end.

(** Raw blocks are decoded by looking them up in a table. *)
Definition toy_block (table : list (bytes * Block)) (raw_block : bytes) (h : Z) : Block :=
  match list_find (fun p => p.1 = raw_block) table with
  | Some (_, (_, b)) => b
  | None => mkBlock raw_block [] []
  end.

(** A header is the byte naming the block followed by the byte naming
    its predecessor. *)
Definition toy_coin (table : list (bytes * Block)) : Coin :=
  {| coin_block := toy_block table;
     header_hash := fun h => take 1 h;
     header_prevhash := fun h => take 1 (drop 1 h);
     hashX_from_script := toy_hashX |}.

(** A history index that keeps its unflushed batches in a list and
    counts its flushes. *)
Definition toy_history : HistoryIndex :=
  {| History := (list (list (list bytes) * Z) * Z)%type;
     hist_add_unflushed := fun hs n h => (h.1 ++ [(hs, n)], h.2);
     hist_flush := fun h => (([], h.2 + 1), Z.of_nat (length h.1));
     hist_backup := fun _ _ h => (h, 0);
     hist_cancel_compaction := fun h => h;
     hist_unflushed_memsize := fun h => Z.of_nat (length h.1) * 180;
     hist_flush_count := fun h => h.2;
     hist_flushed := fun h => bool_decide (h.1 = []);
     hist_flush_flushed := fun h => eq_refl |}.

(** A freshly opened processor over the store [db] and the archived
    transaction hashes [hashes]. *)
Definition toy_state (db : gmap bytes bytes) (hashes : bytes)
  : @BlockProcessor toy_history :=
  {| utxo_db := db; history := (([], 0) : @History toy_history);
     db_height := 0; db_tx_count := 0; db_tip := [x00];
     fs_height := 0; fs_tx_count := 0; tx_counts := [0];
     utxo_flush_count := 0; wall_time := 0;
     headers_file := [[x00; x00]]; hashes_file := hashes; raw_block_files := ∅;
     height := 0; tip := [x00]; tx_count := 0;
     cache_MB := 5; next_cache_check := 0; last_flush := 0; last_flush_tx_count := 0;
     touched := ∅; headers := []; tx_hashes := []; undo_infos := [];
     utxo_cache := ∅; db_deletes := [];
     caught_up_event := true;
     reorg_limit := 100; daemon_height := 0;
     clock := fun n => Z.of_nat n; ticks := 0%nat |}.

(** Two transaction hashes that agree on their first four bytes. *)
Definition hash_A : bytes := [xaa; xbb; xcc; xdd] ++ repeat x01 28.
Definition hash_B : bytes := [xaa; xbb; xcc; xdd] ++ repeat x02 28.
Definition hashX_A : bytes := repeat x0a 11.
Definition hashX_B : bytes := repeat x0b 11.

(** The ['h'] and ['u'] records of output [idx] of the transaction with
    ordinal [tx_num], hash [tx_hash], paying [amount] to [hashX]. *)
Definition utxo_records (tx_hash : bytes) (idx tx_num : Z) (hashX : bytes) (amount : Z)
  (db : gmap bytes bytes) : gmap bytes bytes :=
  <[h_prefix ++ take 4 tx_hash ++ le_bytes 2 idx ++ le_bytes 4 tx_num := hashX]>
    (<[u_prefix ++ hashX ++ le_bytes 2 idx ++ le_bytes 4 tx_num := le_bytes 8 amount]> db).

(** Output 0 of A (ordinal 0) and output 0 of B (ordinal 1) are stored. *)
Definition two_colliding : @BlockProcessor toy_history :=
  toy_state (utxo_records hash_A 0 0 hashX_A 50 (utxo_records hash_B 0 1 hashX_B 70 ∅))
            (hash_A ++ hash_B).

(** Only output 0 of A is stored. *)
Definition one_stored : @BlockProcessor toy_history :=
  toy_state (utxo_records hash_A 0 0 hashX_A 50 ∅) hash_A.

(** Only output 1 of A is stored. *)
Definition lone_collision : @BlockProcessor toy_history :=
  toy_state (utxo_records hash_A 1 0 hashX_A 70 ∅) hash_A.

(** A short chain.  Block 1 pays its coinbase to one script; block 2
    spends that output in its second transaction; block 3 only has a
    coinbase.  Headers name the block and its predecessor. *)
Definition hash32 (b : byte) : bytes := b :: repeat x00 31.

Definition block1 : Block :=
  mkBlock [x01] [x01; x00]
    [(mkTx true [] [mkTxOutput 5000000000 [x01; x02]], hash32 x11)].

Definition block2 : Block :=
  mkBlock [x02] [x02; x01]
    [(mkTx true [] [mkTxOutput 5000000000 [x09]], hash32 x21);
     (mkTx false [mkTxInput (hash32 x11) 0]
        [mkTxOutput 4000000000 [x03]; mkTxOutput 1000000000 [x6a]], hash32 x22)].

Definition block3 : Block :=
  mkBlock [x03] [x03; x02]
    [(mkTx true [] [mkTxOutput 5000000000 [x0c]], hash32 x31)].

Definition toy_table : list (bytes * Block) :=
  [([x01], block1); ([x02], block2); ([x03], block3)].

Definition toy_chain_coin : Coin := toy_coin toy_table.

(** The state a method ends in, however it ends. *)
Definition state_of {S A} (r : result S A) : S :=
  match r with Ok _ st => st | Raise _ st => st end.

(** An empty store at height 0, serving (caught up) or still syncing. *)
Definition genesis : @BlockProcessor toy_history := toy_state ∅ [].
Definition genesis_syncing : @BlockProcessor toy_history :=
  set_caught_up_event false genesis.

(** Block 1 advanced while syncing: nothing is flushed yet. *)
Definition syncing_at_1 : @BlockProcessor toy_history :=
  state_of (@advance_blocks toy_history toy_chain_coin [block1] genesis_syncing).

Definition syncing_at_1_flushed : @BlockProcessor toy_history :=
  state_of (flush true syncing_at_1).

(** The same with 72000 keys waiting to be deleted. *)
Definition many_deletes : @BlockProcessor toy_history :=
  set_db_deletes (repeat [x00] (Z.to_nat 72000)) syncing_at_1.

(** A longer chain of blocks that only have a coinbase, to reorganise. *)
Definition simple_block (i : Z) : Block :=
  mkBlock [byte_of_Z i] [byte_of_Z i; byte_of_Z (i - 1)]
    [(mkTx true [] [mkTxOutput 5000000000 [byte_of_Z i]], hash32 (byte_of_Z (i + 100)))].

Definition long_chain : list Block := map (fun i => simple_block (Z.of_nat i)) (seq 1 10).

Definition long_coin : Coin := toy_coin (map (fun b => (raw b, b)) long_chain).

(** Ten blocks advanced and flushed; the raw blocks of heights 1 to 10
    are in the local archive. *)
Definition at_10 : @BlockProcessor toy_history :=
  state_of (@advance_blocks toy_history long_coin long_chain genesis).

(** A daemon whose chain agrees with the local one up to height 7 and
    has other blocks from height 8 on; it still serves the old raw
    blocks by hash.  Hex strings are the hashes themselves here. *)
Definition reorged_daemon : Daemon :=
  {| block_hex_hashes := fun start count =>
       map (fun i => let h := start + Z.of_nat i in
                     if h <=? 7 then [byte_of_Z h] else [byte_of_Z (h + 50)])
           (seq 0 (Z.to_nat count));
     raw_blocks := fun hex_hashes => hex_hashes |}.


(** * The prefetcher and the work queue *)

(** The items of the work queue: [(RAW_BLOCKS, blocks, first)],
    [(PREFETCHER_CAUGHT_UP, )] and [(REORG_CHAIN, count)]. *)
Inductive work :=
| RAW_BLOCKS (blocks : list bytes) (first : Z)
| PREFETCHER_CAUGHT_UP
| REORG_CHAIN (count : option Z).

(** The attributes of [Prefetcher].  The queue is the block processor's
    own queue object; [fetched_height] is [None] until [reset_height] is
    called.  Under the semaphore, which [reset_height] takes as well,
    [_prefetch_blocks] runs on its own, as it does here. *)
Record Prefetcher := mkPrefetcher {
  caught_up : bool;
  fetched_height : option Z;
  refill_event : bool;
  cache_size : Z;
  min_cache_size : Z;
  ave_size : Z;
  queue : list work
}.

(** The run-time errors of [_prefetch_blocks]. *)
Inductive pf_exn :=
| PfAssertionError      (* assert count == len(blocks) *)
| PfZeroDivisionError   (* min_cache_size // ave_size *)
| PfTypeError           (* daemon_height - None *)
| PfIndexError.         (* hex_hashes[-1], hex_hashes[0] *)

Inductive pf_result :=
| PfOk (r : bool) (p : Prefetcher)
| PfRaise (e : pf_exn) (p : Prefetcher).

(** [sum(len(block) for block in blocks)] *)
Definition blocks_size (blocks : list bytes) : Z :=
  foldr (fun block acc => Z.of_nat (length block) + acc) 0 blocks.

(** [Prefetcher.processing_blocks] *)
Definition processing_blocks (blocks : list bytes) (p : Prefetcher) : Prefetcher :=
  let size := cache_size p - blocks_size blocks in
  {| caught_up := caught_up p; fetched_height := fetched_height p;
     refill_event := if size <? min_cache_size p then true else refill_event p;
     cache_size := size; min_cache_size := min_cache_size p;
     ave_size := ave_size p; queue := queue p |}.

(** [Prefetcher.reset_height], without its logging. *)
Definition reset_height (h : Z) (p : Prefetcher) : Prefetcher :=
  {| caught_up := caught_up p; fetched_height := Some h;
     refill_event := true;
     cache_size := cache_size p; min_cache_size := min_cache_size p;
     ave_size := ave_size p; queue := queue p |}.

Section Prefetch.

(** [coin.genesis_block] is not among the sources; it is a parameter
    here. *)
Variable genesis_block : bytes -> bytes.

(** The number of blocks one turn of the loop asks for. *)
Definition fetch_count (daemon_height fetched : Z) (p : Prefetcher) : Z :=
  let cache_room := min_cache_size p / ave_size p in
  let count := Z.min (daemon_height - fetched) cache_room in
  Z.min 500 (Z.max count 0).

(** The [while self.cache_size < self.min_cache_size] loop of
    [_prefetch_blocks] and the two lines after it; [None] when the loop
    is still running after [fuel] turns. *)
Fixpoint prefetch_loop (fuel : nat) (d : Daemon) (daemon_height : Z) (p : Prefetcher)
  : option pf_result :=
  if cache_size p <? min_cache_size p then
    match fuel with
    | O => None
    | S fuel' =>
        if ave_size p =? 0 then Some (PfRaise PfZeroDivisionError p)
        else
          match fetched_height p with
          | None => Some (PfRaise PfTypeError p)
          | Some fetched =>
              let count := fetch_count daemon_height fetched p in
              if count =? 0 then
                if caught_up p then Some (PfOk false p)
                else Some (PfOk false
                       {| caught_up := true; fetched_height := fetched_height p;
                          refill_event := refill_event p;
                          cache_size := cache_size p; min_cache_size := min_cache_size p;
                          ave_size := ave_size p;
                          queue := queue p ++ [PREFETCHER_CAUGHT_UP] |})
              else
                let first := fetched + 1 in
                let hex_hashes := block_hex_hashes d first count in
                if caught_up p && bool_decide (hex_hashes = [])
                then Some (PfRaise PfIndexError p)
                else
                  let blocks := raw_blocks d hex_hashes in
                  if negb (count =? Z.of_nat (length blocks))
                  then Some (PfRaise PfAssertionError p)
                  else
                    let blocks :=
                      if first =? 0
                      then match blocks with
                           | b :: rest => genesis_block b :: rest
                           | [] => []
                           end
                      else blocks in
                    if (first =? 0) && bool_decide (hex_hashes = [])
                    then Some (PfRaise PfIndexError p)
                    else
                      let size := blocks_size blocks in
                      let ave :=
                        if 10 <=? count then size / count
                        else (size + (10 - count) * ave_size p) / 10 in
                      prefetch_loop fuel' d daemon_height
                        {| caught_up := caught_up p;
                           fetched_height := Some (fetched + count);
                           refill_event := refill_event p;
                           cache_size := cache_size p + size;
                           min_cache_size := min_cache_size p;
                           ave_size := ave;
                           queue := queue p ++ [RAW_BLOCKS blocks first] |}
          end
    end
  else
    Some (PfOk true
            {| caught_up := caught_up p; fetched_height := fetched_height p;
               refill_event := false;
               cache_size := cache_size p; min_cache_size := min_cache_size p;
               ave_size := ave_size p; queue := queue p |}).

(** [_prefetch_blocks]; every turn of the loop that does not leave it
    moves [fetched_height] up towards the daemon's height, which bounds
    the turns. *)
Definition prefetch_blocks (d : Daemon) (daemon_height : Z) (p : Prefetcher)
  : option pf_result :=
  prefetch_loop (S (Z.to_nat (daemon_height - default daemon_height (fetched_height p))))
    d daemon_height p.

End Prefetch.

(** ** The block processor with its prefetcher *)

Section Server.
Context `{HI : HistoryIndex} `{CN : Coin}.
Variable hash_to_hex_str : bytes -> bytes.

(** The block processor, its prefetcher (whose queue is the work
    queue), [first_sync] of the DB and the calls made to
    [notifications.on_block]. *)
Record Server := mkServer {
  bp : BlockProcessor;
  prefetcher : Prefetcher;
  first_sync : bool;
  notified : list (gset bytes * Z)
}.

Definition set_bp (st : BlockProcessor) (sv : Server) : Server :=
  {| bp := st; prefetcher := prefetcher sv; first_sync := first_sync sv;
     notified := notified sv |}.
Definition set_prefetcher (p : Prefetcher) (sv : Server) : Server :=
  {| bp := bp sv; prefetcher := p; first_sync := first_sync sv;
     notified := notified sv |}.

(** [notifications.on_block(touched, height)] *)
Definition on_block (touched : gset bytes) (h : Z) (sv : Server) : Server :=
  {| bp := bp sv; prefetcher := prefetcher sv; first_sync := first_sync sv;
     notified := notified sv ++ [(touched, h)] |}.

(** [reorg_chain] with the reset of the prefetcher at its end.  The
    header merkle cache it truncates is not part of the state. *)
Definition reorg_chain_server (d : Daemon) (count : option Z) (sv : Server)
  : option (result Server unit) :=
  match reorg_chain hash_to_hex_str d count (bp sv) with
  | None => None
  | Some (Raise e st) => Some (Raise e (set_bp st sv))
  | Some (Ok _ st) =>
      Some (Ok tt (set_prefetcher (reset_height (height st) (prefetcher sv)) (set_bp st sv)))
  end.

(** [[self.coin.block(raw_block, first + n) for n, raw_block in
    enumerate(raw_blocks)]] *)
Definition parse_blocks (raw_blocks : list bytes) (first : Z) : list Block :=
  imap (fun n raw_block => coin_block raw_block (first + Z.of_nat n)) raw_blocks.

(** [check_and_advance_blocks(raw_blocks, first)]; [None] stands for a
    fork search that does not end. *)
Definition check_and_advance_blocks (d : Daemon) (raw_blocks : list bytes) (first : Z)
  (sv : Server) : option (result Server unit) :=
  let sv := set_prefetcher (processing_blocks raw_blocks (prefetcher sv)) sv in
  let st := bp sv in
  if decide (first <> height st + 1) then Some (Ok tt sv)
  else
    let blocks := parse_blocks raw_blocks first in
    let headers := map header blocks in
    let hprevs := map header_prevhash headers in
    let chain := tip st :: map header_hash (removelast headers) in
    if decide (hprevs = chain) then
      match (let* start := time_time in advance_blocks blocks) st with
      | Raise e st' => Some (Raise e (set_bp st' sv))
      | Ok _ st1 =>
          let st2 := if first_sync sv then st1 else state_of (time_time st1) in
          let sv := set_bp st2 sv in
          let sv := if caught_up_event st2 then on_block (touched st2) (height st2) sv
                    else sv in
          Some (Ok tt (set_bp (set_touched ∅ (bp sv)) sv))
      end
    else
      match hprevs with
      | [] => Some (Raise IndexError sv)
      | hprev :: _ =>
          if decide (hprev <> tip st) then reorg_chain_server d None sv
          else Some (Ok tt (set_prefetcher (reset_height (height st) (prefetcher sv)) sv))
      end.

(** [force_chain_reorg(count)] *)
Definition force_chain_reorg (count : option Z) (sv : Server) : bool * Server :=
  if caught_up_event (bp sv) then
    let p := prefetcher sv in
    (true, set_prefetcher
             {| caught_up := caught_up p; fetched_height := fetched_height p;
                refill_event := refill_event p;
                cache_size := cache_size p; min_cache_size := min_cache_size p;
                ave_size := ave_size p; queue := queue p ++ [REORG_CHAIN count] |} sv)
  else (false, sv).

(** One turn of the loop of [_process_queue], on a queue that is not
    empty ([queue.get] waits on an empty one). *)
Definition process_work (d : Daemon) (sv : Server) : option (result Server unit) :=
  let p := prefetcher sv in
  match queue p with
  | [] => Some (Ok tt sv)
  | w :: rest =>
      let sv := set_prefetcher
                  {| caught_up := caught_up p; fetched_height := fetched_height p;
                     refill_event := refill_event p;
                     cache_size := cache_size p; min_cache_size := min_cache_size p;
                     ave_size := ave_size p; queue := rest |} sv in
      match w with
      | RAW_BLOCKS raw_blocks first => check_and_advance_blocks d raw_blocks first sv
      | PREFETCHER_CAUGHT_UP =>
          let st := set_caught_up_event true (bp sv) in
          Some (Ok tt (on_block ∅ (height st) (set_bp st sv)))
      | REORG_CHAIN count => reorg_chain_server d count sv
      end
  end.

End Server.
(** * Properties *)

(** ** Reasoning in the monad *)

Lemma bind_Ok {S A B} (m : M S A) (k : A -> M S B) st a st' :
  m st = Ok a st' -> bind m k st = k a st'.
Proof. unfold bind. now intros ->. Qed.

Lemma bind_Raise {S A B} (m : M S A) (k : A -> M S B) st e st' :
  m st = Raise e st' -> bind m k st = Raise e st'.
Proof. unfold bind. now intros ->. Qed.

Lemma bind_Ok_inv {S A B} (m : M S A) (k : A -> M S B) st b st'' :
  bind m k st = Ok b st'' -> exists a st', m st = Ok a st' /\ k a st' = Ok b st''.
Proof. unfold bind. destruct (m st) as [a st'|e st']; [eauto|discriminate]. Qed.

Lemma bind_Raise_inv {S A B} (m : M S A) (k : A -> M S B) st e st'' :
  bind m k st = Raise e st'' ->
  m st = Raise e st'' \/ exists a st', m st = Ok a st' /\ k a st' = Raise e st''.
Proof. unfold bind. destruct (m st) as [a st'|e' st']; [eauto|]. intros [= -> ->]. now left. Qed.

Lemma truthy_Some (o : option bytes) :
  truthy o = true <-> exists v, o = Some v /\ v <> [].
Proof.
  destruct o as [[|b v]|]; simpl; split.
  - discriminate.
  - intros (v & [= <-] & Hv). done.
  - intros _. exists (b :: v). done.
  - done.
  - discriminate.
  - intros (v & E & _). discriminate.
Qed.

(** ** [spend_utxo] *)

Section SpendUtxo.
Context `{HI : HistoryIndex}.

(** The companion ['u'] key [spend_utxo] computes for a candidate. *)
Definition udb_key_of (hdb_key hashX : bytes) : bytes :=
  u_prefix ++ hashX ++ slice_from hdb_key (-6).

(** What a successful scan of the candidates returns and does. *)
Lemma spend_scan_Ok tx_hash n cands (st : BlockProcessor) v st' :
  spend_scan tx_hash n cands st = Ok v st' ->
  exists hdb_key hashX amount,
    (hdb_key, hashX) ∈ cands /\
    ((1 < n)%nat -> exists tx_num,
        unpack_le 4 (slice_from hdb_key (-4)) = Some tx_num /\
        fs_tx_hash st tx_num = Some tx_hash) /\
    utxo_db st !! udb_key_of hdb_key hashX = Some amount /\ amount <> [] /\
    v = hashX ++ slice_from hdb_key (-4) ++ amount /\
    st' = set_db_deletes (db_deletes st ++ [hdb_key; udb_key_of hdb_key hashX]) st.
Proof.
  induction cands as [|[hk hx] rest IH]; [discriminate|].
  cbn [spend_scan]. intros Hrun.
  assert (Hnext : spend_scan tx_hash n rest st = Ok v st' ->
    exists hdb_key hashX amount,
      (hdb_key, hashX) ∈ (hk, hx) :: rest /\
      ((1 < n)%nat -> exists tx_num,
        unpack_le 4 (slice_from hdb_key (-4)) = Some tx_num /\
        fs_tx_hash st tx_num = Some tx_hash) /\
      utxo_db st !! udb_key_of hdb_key hashX = Some amount /\ amount <> [] /\
      v = hashX ++ slice_from hdb_key (-4) ++ amount /\
      st' = set_db_deletes (db_deletes st ++ [hdb_key; udb_key_of hdb_key hashX]) st).
  { intros H. destruct (IH H) as (k & x & a & Hin & ?). exists k, x, a.
    split; [now apply list_elem_of_further|done]. }
  assert (Htake : forall (Hn : (1 < n)%nat -> exists tx_num,
        unpack_le 4 (slice_from hk (-4)) = Some tx_num /\
        fs_tx_hash st tx_num = Some tx_hash),
    (let udb_key := u_prefix ++ hx ++ slice_from hk (-6) in
     let* utxo_value_packed := gets (fun st => utxo_db st !! udb_key) in
     if truthy utxo_value_packed then
       do* modify (fun st => set_db_deletes (db_deletes st ++ [hk]) st) in
       do* modify (fun st => set_db_deletes (db_deletes st ++ [udb_key]) st) in
       ret (hx ++ slice_from hk (-4) ++ default [] utxo_value_packed)
     else spend_scan tx_hash n rest) st = Ok v st' ->
    exists hdb_key hashX amount,
      (hdb_key, hashX) ∈ (hk, hx) :: rest /\
      ((1 < n)%nat -> exists tx_num,
        unpack_le 4 (slice_from hdb_key (-4)) = Some tx_num /\
        fs_tx_hash st tx_num = Some tx_hash) /\
      utxo_db st !! udb_key_of hdb_key hashX = Some amount /\ amount <> [] /\
      v = hashX ++ slice_from hdb_key (-4) ++ amount /\
      st' = set_db_deletes (db_deletes st ++ [hdb_key; udb_key_of hdb_key hashX]) st).
  { intros Hn. cbv zeta. unfold bind at 1, gets at 1.
    destruct (truthy (utxo_db st !! (u_prefix ++ hx ++ slice_from hk (-6)))) eqn:Et;
      [|exact Hnext].
    apply truthy_Some in Et as (a & Ea & Hne).
    unfold bind, modify, ret. rewrite Ea. cbn [default]. intros [= <- <-].
    exists hk, hx, a. unfold udb_key_of. rewrite <- (assoc_L (++)). cbn [app].
    repeat split; try done. apply list_elem_of_here. }
  revert Hrun. unfold bind at 1.
  destruct (decide (1 < n)%nat) as [Hn|Hn].
  - unfold bind at 1, struct_op.
    destruct (unpack_le 4 (slice_from hk (-4))) as [tx_num|] eqn:Eu; [|discriminate].
    unfold ret at 1, bind at 1, gets at 1.
    destruct (decide (fs_tx_hash st tx_num = Some tx_hash)) as [Eh|Eh].
    + unfold ret at 1. apply Htake. eauto.
    + unfold bind at 1, py_assert.
      destruct (bool_decide (fs_tx_hash st tx_num <> None)); [|discriminate].
      unfold ret at 1 2. exact Hnext.
  - unfold ret at 1. apply Htake. intros; lia.
Qed.

(** Which candidates the scan passes over without raising: with
    several candidates one whose archived hash is another transaction's,
    and otherwise one whose companion ['u'] entry is missing. *)
Definition passed_over (st : BlockProcessor) (tx_hash : bytes) (n : nat)
  (c : bytes * bytes) : bool :=
  let has_u := truthy (utxo_db st !! udb_key_of c.1 c.2) in
  if decide (1 < n)%nat then
    match unpack_le 4 (slice_from c.1 (-4)) with
    | Some tx_num =>
        match fs_tx_hash st tx_num with
        | Some h => if decide (h = tx_hash) then negb has_u else true
        | None => false
        end
    | None => false
    end
  else negb has_u.

(** A stored record really is the output [(tx_hash, tx_idx)]: its
    ordinal maps back to [tx_hash] and its ['u'] entry is present. *)
Definition candidate_matches (st : BlockProcessor) (tx_hash : bytes)
  (c : bytes * bytes) : bool :=
  match unpack_le 4 (slice_from c.1 (-4)) with
  | Some tx_num =>
      bool_decide (fs_tx_hash st tx_num = Some tx_hash)
      && truthy (utxo_db st !! udb_key_of c.1 c.2)
  | None => false
  end.

(** An entry for [(tx_hash, tx_idx)] exists, in the cache or in the
    ['h']/['u'] tables. *)
Definition matching_entry (st : BlockProcessor) (tx_hash : bytes) (tx_idx : Z) : bool :=
  match pack_le 2 tx_idx with
  | Some idx_packed =>
      truthy (utxo_cache st !! (tx_hash ++ idx_packed))
      || existsb (candidate_matches st tx_hash)
           (db_iterator (h_prefix ++ slice_to tx_hash 4 ++ idx_packed) (utxo_db st))
  | None => false
  end.

(** The ['h'] and ['u'] tables hold values of the widths the data model
    gives them. *)
Definition utxo_tables_wf (db : gmap bytes bytes) : Prop :=
  forall k x, db !! k = Some x ->
    (h_prefix `prefix_of` k -> length k = 11%nat /\ length x = 11%nat) /\
    (u_prefix `prefix_of` k -> length x = 8%nat).

Lemma elem_of_db_iterator (p : bytes) (db : gmap bytes bytes) (k x : bytes) :
  (k, x) ∈ db_iterator p db <-> db !! k = Some x /\ p `prefix_of` k.
Proof.
  unfold db_iterator. rewrite merge_sort_Permutation.
  rewrite list_elem_of_filter, elem_of_map_to_list. simpl. tauto.
Qed.

Lemma length_slice_from_neg {A} (l : list A) (n : Z) :
  0 < n <= Z.of_nat (length l) -> Z.of_nat (length (slice_from l (- n))) = n.
Proof.
  intros Hn. unfold slice_from, py_index.
  destruct (Z.ltb_spec (- n) 0); [|lia].
  rewrite length_drop. lia.
Qed.

Lemma spend_scan_ChainError tx_hash n cands (st : BlockProcessor) st' :
  spend_scan tx_hash n cands st = Raise (ChainError UtxoNotFound) st' <->
  st' = st /\ forallb (passed_over st tx_hash n) cands = true.
Proof.
  induction cands as [|[hk hx] rest IH].
  - cbn. unfold raise. split; [intros [= <-]; done|intros [-> _]; done].
  - cbn [spend_scan forallb]. rewrite andb_true_iff.
    transitivity (passed_over st tx_hash n (hk, hx) = true /\
                  spend_scan tx_hash n rest st = Raise (ChainError UtxoNotFound) st');
      [|rewrite IH; tauto].
    clear IH. unfold passed_over. cbn [fst snd]. unfold udb_key_of.
    set (has_u := truthy (utxo_db st !! (u_prefix ++ hx ++ slice_from hk (-6)))).
    assert (Htake :
      (let udb_key := u_prefix ++ hx ++ slice_from hk (-6) in
       let* utxo_value_packed := gets (fun st => utxo_db st !! udb_key) in
       if truthy utxo_value_packed then
         do* modify (fun st => set_db_deletes (db_deletes st ++ [hk]) st) in
         do* modify (fun st => set_db_deletes (db_deletes st ++ [udb_key]) st) in
         ret (hx ++ slice_from hk (-4) ++ default [] utxo_value_packed)
       else spend_scan tx_hash n rest) st = Raise (ChainError UtxoNotFound) st' <->
      negb has_u = true /\
      spend_scan tx_hash n rest st = Raise (ChainError UtxoNotFound) st').
    { cbv zeta. unfold bind at 1, gets at 1. fold has_u.
      destruct has_u; cbn [negb]; [|tauto].
      unfold bind, modify, ret. split; [discriminate|intros [[=] _]]. }
    unfold bind at 1.
    destruct (decide (1 < n)%nat) as [Hn|Hn].
    + unfold bind at 1, struct_op.
      destruct (unpack_le 4 (slice_from hk (-4))) as [tx_num|];
        [|unfold raise; split; [discriminate|intros [[=] _]]].
      unfold ret at 1, bind at 1, gets at 1.
      destruct (fs_tx_hash st tx_num) as [h|] eqn:Eh.
      * destruct (decide (Some h = Some tx_hash)) as [[= ->]|Hne].
        -- rewrite decide_True by done. unfold ret at 1. exact Htake.
        -- rewrite decide_False by congruence.
           unfold bind at 1, py_assert. rewrite bool_decide_true by done.
           unfold ret at 1 2. tauto.
      * rewrite decide_False by done.
        unfold bind at 1, py_assert. rewrite bool_decide_false by (intros H; now apply H).
        unfold raise. split; [discriminate|intros [[=] _]].
    + unfold ret at 1. exact Htake.
Qed.

Lemma spend_utxo_miss_unfold (st : BlockProcessor) tx_hash tx_idx idx_packed :
  pack_le 2 tx_idx = Some idx_packed ->
  utxo_cache st !! (tx_hash ++ idx_packed) = None ->
  spend_utxo tx_hash tx_idx st =
  let candidates := db_iterator (h_prefix ++ slice_to tx_hash 4 ++ idx_packed) (utxo_db st) in
  spend_scan tx_hash (length candidates) candidates st.
Proof.
  intros Hp Hc. unfold spend_utxo, bind at 1, struct_op. rewrite Hp.
  unfold ret at 1, bind at 1, cache_pop. rewrite Hc. cbn [truthy].
  reflexivity.
Qed.

(** C3. On a cache miss [spend_utxo] scans the ['h'] table under
    ['h' ++ tx_hash[:4] ++ idx] and, when it returns, it returns for one
    of the candidates found there: with more than one candidate that
    candidate's trailing ordinal maps through [fs_tx_hash] to the full
    [tx_hash]; the companion ['u'] entry holds the amount; the two keys
    are appended to [db_deletes] and nothing else changes; the value is
    fingerprint ++ ordinal ++ amount, 23 bytes long on well-formed
    tables. *)
Theorem spend_utxo_cache_miss (st : BlockProcessor) tx_hash tx_idx idx_packed v st' :
  pack_le 2 tx_idx = Some idx_packed ->
  utxo_cache st !! (tx_hash ++ idx_packed) = None ->
  spend_utxo tx_hash tx_idx st = Ok v st' ->
  let candidates :=
    db_iterator (h_prefix ++ slice_to tx_hash 4 ++ idx_packed) (utxo_db st) in
  exists hdb_key hashX amount,
    (hdb_key, hashX) ∈ candidates /\
    ((1 < length candidates)%nat -> exists tx_num,
        unpack_le 4 (slice_from hdb_key (-4)) = Some tx_num /\
        fs_tx_hash st tx_num = Some tx_hash) /\
    utxo_db st !! (u_prefix ++ hashX ++ slice_from hdb_key (-6)) = Some amount /\
    st' = set_db_deletes
            (db_deletes st ++ [hdb_key; u_prefix ++ hashX ++ slice_from hdb_key (-6)]) st /\
    v = hashX ++ slice_from hdb_key (-4) ++ amount /\
    (utxo_tables_wf (utxo_db st) -> length v = 23%nat).
Proof.
  intros Hp Hc Hrun candidates.
  rewrite (spend_utxo_miss_unfold _ _ _ _ Hp Hc) in Hrun. cbv zeta in Hrun.
  apply spend_scan_Ok in Hrun as (hk & hx & a & Hin & Hres & Hu & Hne & -> & ->).
  exists hk, hx, a. repeat split; try done.
  intros Hwf. apply elem_of_db_iterator in Hin as [Hh Hpre].
  destruct (Hwf _ _ Hh) as [Hhk _]. destruct (Hwf _ _ Hu) as [_ Huk].
  destruct Hhk as [Lk Lx].
  { etransitivity; [|exact Hpre]. now exists (slice_to tx_hash 4 ++ idx_packed). }
  specialize (Huk ltac:(now eexists)).
  assert (H4 : Z.of_nat (length (slice_from hk (- (4)))) = 4).
  { apply length_slice_from_neg. rewrite Lk. lia. }
  rewrite !length_app, Lx, Huk. change (-4) with (- (4)). lia.
Qed.

(** C10. On a cache miss with exactly one candidate under the prefix,
    that candidate is spent whatever transaction it belongs to:
    [fs_tx_hash] is not consulted, so a request for an output that is
    not stored, colliding in its 4 byte hash prefix and index with one
    stored output of another transaction, returns that output and marks
    its two keys for deletion instead of raising [ChainError]. *)
Theorem spend_utxo_lone_candidate (st : BlockProcessor)
    tx_hash tx_idx idx_packed hdb_key hashX amount :
  pack_le 2 tx_idx = Some idx_packed ->
  utxo_cache st !! (tx_hash ++ idx_packed) = None ->
  db_iterator (h_prefix ++ slice_to tx_hash 4 ++ idx_packed) (utxo_db st)
    = [(hdb_key, hashX)] ->
  utxo_db st !! udb_key_of hdb_key hashX = Some amount ->
  amount <> [] ->
  spend_utxo tx_hash tx_idx st =
    Ok (hashX ++ slice_from hdb_key (-4) ++ amount)
       (set_db_deletes (db_deletes st ++ [hdb_key; udb_key_of hdb_key hashX]) st).
Proof.
  intros Hp Hc Hit Hu Hne.
  rewrite (spend_utxo_miss_unfold _ _ _ _ Hp Hc). cbv zeta. rewrite Hit.
  cbn [spend_scan length]. rewrite decide_False by lia.
  unfold bind at 1, ret at 1, bind at 1, gets. fold (udb_key_of hdb_key hashX).
  rewrite Hu. destruct amount as [|b amount]; [done|]. cbn [truthy default].
  unfold bind, modify, ret. f_equal.
  unfold set_db_deletes. cbn. now rewrite <- (assoc_L (++)).
Qed.

Lemma spend_utxo_ChainError_inv (st : BlockProcessor) tx_hash tx_idx st' :
  spend_utxo tx_hash tx_idx st = Raise (ChainError UtxoNotFound) st' ->
  exists idx_packed,
    pack_le 2 tx_idx = Some idx_packed /\
    truthy (utxo_cache st !! (tx_hash ++ idx_packed)) = false /\
    let candidates :=
      db_iterator (h_prefix ++ slice_to tx_hash 4 ++ idx_packed) (utxo_db st) in
    forallb (passed_over st tx_hash (length candidates)) candidates = true.
Proof.
  unfold spend_utxo, bind at 1, struct_op.
  destruct (pack_le 2 tx_idx) as [idx_packed|]; [|discriminate].
  unfold ret at 1, bind at 1, cache_pop. intros Hrun. exists idx_packed.
  split; [done|].
  destruct (utxo_cache st !! (tx_hash ++ idx_packed)) as [[|b c]|] eqn:Ec;
    cbn [truthy] in *; [| discriminate |].
  - split; [done|]. unfold bind, gets in Hrun.
    apply spend_scan_ChainError in Hrun as [_ Hall]. exact Hall.
  - split; [done|]. unfold bind, gets in Hrun.
    apply spend_scan_ChainError in Hrun as [_ Hall]. exact Hall.
Qed.

(** C4 (as the code has it). [spend_utxo] raises the fatal [ChainError]
    exactly when the cache holds no value for the output and the scan
    passes over every candidate of the prefix: with several candidates
    those whose ordinal maps to another hash, and otherwise (a lone
    candidate, or a matching hash) those without a companion ['u']
    entry.  Whenever it raises, no matching entry exists; a lone
    candidate is never compared, so the converse fails. *)
Theorem spend_utxo_chain_error_iff (st : BlockProcessor) tx_hash tx_idx :
  ((exists st', spend_utxo tx_hash tx_idx st = Raise (ChainError UtxoNotFound) st') <->
   (exists idx_packed,
      pack_le 2 tx_idx = Some idx_packed /\
      truthy (utxo_cache st !! (tx_hash ++ idx_packed)) = false /\
      let candidates :=
        db_iterator (h_prefix ++ slice_to tx_hash 4 ++ idx_packed) (utxo_db st) in
      forallb (passed_over st tx_hash (length candidates)) candidates = true)) /\
  ((exists st', spend_utxo tx_hash tx_idx st = Raise (ChainError UtxoNotFound) st') ->
   matching_entry st tx_hash tx_idx = false).
Proof.
  split; [split|].
  - intros [st' Hrun]. eapply spend_utxo_ChainError_inv, Hrun.
  - intros (idx_packed & Hp & Hc & Hall). cbv zeta in Hall.
    unfold spend_utxo, bind at 1, struct_op. rewrite Hp.
    unfold ret at 1, bind at 1, cache_pop.
    destruct (utxo_cache st !! (tx_hash ++ idx_packed)) as [[|b c]|] eqn:Ec;
      cbn [truthy] in *; [| discriminate |].
    + eexists. unfold bind, gets. apply spend_scan_ChainError. split; [reflexivity|].
      exact Hall.
    + eexists. unfold bind, gets. apply spend_scan_ChainError. split; [reflexivity|].
      exact Hall.
  - intros [st' Hrun]. apply spend_utxo_ChainError_inv in Hrun
      as (idx_packed & Hp & Hc & Hall). cbv zeta in Hall.
    unfold matching_entry. rewrite Hp, Hc. cbn [orb].
    apply not_true_is_false. intros Hex. apply existsb_exists in Hex as (c & Hin & Hm).
    rewrite forallb_forall in Hall. specialize (Hall c Hin).
    unfold candidate_matches in Hm. unfold passed_over in Hall.
    destruct (unpack_le 4 (slice_from c.1 (-4))) as [tx_num|]; [|discriminate].
    apply andb_true_iff in Hm as [Hh Hu]. apply bool_decide_eq_true in Hh.
    rewrite Hu in Hall. cbn [negb] in Hall.
    destruct (decide (1 < _)%nat); [|discriminate].
    rewrite Hh in Hall. cbv beta iota in Hall.
    rewrite decide_True in Hall by done. discriminate.
Qed.

End SpendUtxo.

(** ** The flush coordinator *)

Section Flush.
Context `{HI : HistoryIndex} `{CN : Coin}.

(** What [assert_flushed] asserts. *)
Definition flushed (st : BlockProcessor) : Prop :=
  (tx_count st = fs_tx_count st /\ fs_tx_count st = db_tx_count st) /\
  (height st = fs_height st /\ fs_height st = db_height st) /\
  undo_infos st = [] /\ utxo_cache st = ∅ /\ db_deletes st = [] /\
  hist_flushed (history st) = true.

Lemma assert_flushed_Ok (st st' : BlockProcessor) :
  assert_flushed st = Ok tt st' <-> st' = st /\ flushed st.
Proof.
  unfold assert_flushed, flushed, bind, get, py_assert, ret, raise.
  repeat case_bool_decide; destruct (hist_flushed (history st));
    split; try discriminate; try (intros [= <-]; tauto);
    try (intros [-> ?]; tauto); intros (_ & _ & _ & _ & _ & _ & [=]).
Qed.



(** What a flush that has work to do leaves behind. *)
Lemma flush_Ok_inv b (st st' : BlockProcessor) :
  flush b st = Ok tt st' ->
  (height st = db_height st /\ st' = st /\ flushed st) \/
  (height st <> db_height st /\
   height st' = height st /\ tx_count st' = tx_count st /\ tip st' = tip st /\
   fs_height st' = height st /\ fs_tx_count st' = tx_count st /\
   headers st' = [] /\ tx_hashes st' = [] /\
   hist_flushed (history st') = true /\
   if b then
     db_height st' = height st /\ db_tx_count st' = tx_count st /\
     db_tip st' = tip st /\
     undo_infos st' = [] /\ utxo_cache st' = ∅ /\ db_deletes st' = []
   else
     db_height st' = db_height st /\ db_tx_count st' = db_tx_count st /\
     db_tip st' = db_tip st /\
     undo_infos st' = undo_infos st /\ utxo_cache st' = utxo_cache st /\
     db_deletes st' = db_deletes st).
Proof.
  unfold flush. unfold bind at 1, get.
  destruct (decide (height st = db_height st)) as [E|E].
  - intros H. apply assert_flushed_Ok in H as [-> H]. now left.
  - intros H. right. split; [done|]. revert H. clear E.
    destruct st.
    unfold fs_flush, fs_update, flush_utxos, flush_state, time_time,
      bind, get, gets, modify, py_assert, ret, raise.
    simpl_state.
    case_bool_decide; [|discriminate].
    destruct (last _) as [c|]; [|discriminate].
    case_bool_decide; [|discriminate].
    destruct b; intros Hrun; injection Hrun as <-; simpl_state;
      repeat split; auto using hist_flush_flushed.
Qed.

(** C5. A second [flush(True)] with no advance in between finds
    [height == db_height], passes [assert_flushed] and changes
    nothing. *)
Theorem flush_idempotent (st st1 : BlockProcessor) :
  flush true st = Ok tt st1 ->
  height st1 = db_height st1 /\
  flush true st1 = Ok tt st1 /\
  assert_flushed st1 = Ok tt st1.
Proof.
  intros H.
  assert (Hf : height st1 = db_height st1 /\ flushed st1).
  { apply flush_Ok_inv in H as [(E & -> & Hf)|(_ & Hh & Ht & _ & Hfh & Hft & _ & _ & Hhist & H)].
    - done.
    - destruct H as (Hdh & Hdt & _ & Hu & Hc & Hd).
      unfold flushed. rewrite Hh, Ht, Hfh, Hft, Hdh, Hdt. done. }
  destruct Hf as [E Hf]. split; [done|].
  assert (Ha : assert_flushed st1 = Ok tt st1) by (apply assert_flushed_Ok; done).
  split; [|done].
  unfold flush, bind at 1, get. now rewrite decide_True.
Qed.

End Flush.

(** ** What a method leaves alone

    [preserves R m] says that every normal return of [m] relates the
    state before to the state after by [R]. *)

Definition preserves {S A} (R : relation S) (m : M S A) : Prop :=
  forall st a st', m st = Ok a st' -> R st st'.

Section Preserves.
Context {S : Type} (R : relation S) `{!PreOrder R}.

Lemma preserves_ret {A} (a : A) : preserves R (ret a).
Proof. intros st a' st' [= _ <-]. reflexivity. Qed.

Lemma preserves_raise {A} e : preserves R (@raise S A e).
Proof. intros st a st' [=]. Qed.

Lemma preserves_get : preserves R get.
Proof. intros st a st' [= _ <-]. reflexivity. Qed.

Lemma preserves_gets {A} (f : S -> A) : preserves R (gets f).
Proof. intros st a st' [= _ <-]. reflexivity. Qed.

Lemma preserves_modify (f : S -> S) : (forall st, R st (f st)) -> preserves R (modify f).
Proof. intros Hf st a st' [= _ <-]. apply Hf. Qed.

Lemma preserves_assert b : preserves R (py_assert b).
Proof. destruct b; [apply preserves_ret|apply preserves_raise]. Qed.

Lemma preserves_struct_op {A} (o : option A) : preserves R (struct_op o).
Proof. destruct o; [apply preserves_ret|apply preserves_raise]. Qed.

Lemma preserves_bind {A B} (m : M S A) (k : A -> M S B) :
  preserves R m -> (forall a, preserves R (k a)) -> preserves R (bind m k).
Proof.
  intros Hm Hk st b st'' H. apply bind_Ok_inv in H as (a & st' & H1 & H2).
  transitivity st'; [eapply Hm, H1|eapply Hk, H2].
Qed.

Lemma preserves_for_each {A} (l : list A) (body : A -> M S unit) :
  (forall x, preserves R (body x)) -> preserves R (for_each l body).
Proof.
  intros Hb. induction l as [|x l IH]; cbn [for_each].
  - apply preserves_ret.
  - apply preserves_bind; [apply Hb|intros _; exact IH].
Qed.

End Preserves.

(** Walk down a method built from the monad's operations. *)
Ltac preserves_step :=
  lazymatch goal with
  | |- preserves _ (bind _ _) => refine (preserves_bind _ _ _ _ _); [|intros ?]
  | |- preserves _ (ret _) => refine (preserves_ret _ _)
  | |- preserves _ (raise _) => refine (preserves_raise _ _)
  | |- preserves _ get => refine (preserves_get _)
  | |- preserves _ (gets _) => refine (preserves_gets _ _)
  | |- preserves _ (py_assert _) => refine (preserves_assert _ _)
  | |- preserves _ (struct_op _) => refine (preserves_struct_op _ _)
  | |- preserves _ (for_each _ _) => refine (preserves_for_each _ _ _ _); intros ?
  | |- preserves _ (if ?b then _ else _) => destruct b
  | |- preserves _ (match ?x with _ => _ end) => destruct x
  end.

Section Frames.
Context `{HI : HistoryIndex} `{CN : Coin}.

(** The flushed copies and the in-memory chain state are untouched. *)
Definition shadow_same (st st' : BlockProcessor) : Prop :=
  db_height st' = db_height st /\ db_tx_count st' = db_tx_count st /\
  db_tip st' = db_tip st /\
  fs_height st' = fs_height st /\ fs_tx_count st' = fs_tx_count st /\
  height st' = height st /\ tx_count st' = tx_count st /\ tip st' = tip st.

(** As [shadow_same], except that [tx_count] may have grown. *)
Definition shadow_grow (st st' : BlockProcessor) : Prop :=
  db_height st' = db_height st /\ db_tx_count st' = db_tx_count st /\
  db_tip st' = db_tip st /\
  fs_height st' = fs_height st /\ fs_tx_count st' = fs_tx_count st /\
  height st' = height st /\ tx_count st <= tx_count st' /\ tip st' = tip st.

#[global] Instance shadow_same_preorder : PreOrder shadow_same.
Proof.
  split.
  - intros st. unfold shadow_same. tauto.
  - intros a b c. unfold shadow_same. intuition congruence.
Qed.

#[global] Instance shadow_grow_preorder : PreOrder shadow_grow.
Proof.
  split.
  - intros st. unfold shadow_grow. intuition lia.
  - intros a b c. unfold shadow_grow. intros H1 H2.
    destruct H1 as (?&?&?&?&?&?&?&?), H2 as (?&?&?&?&?&?&?&?).
    repeat split; try congruence. lia.
Qed.

Lemma shadow_same_grow st st' : shadow_same st st' -> shadow_grow st st'.
Proof. unfold shadow_same, shadow_grow. intuition lia. Qed.

(** Only the UTXO cache, the pending deletes and the touched set
    differ. *)
Definition caches_only (st st' : BlockProcessor) : Prop :=
  exists c d t, st' = set_touched t (set_db_deletes d (set_utxo_cache c st)).

#[global] Instance caches_only_preorder : PreOrder caches_only.
Proof.
  split.
  - intros st. exists (utxo_cache st), (db_deletes st), (touched st). now destruct st.
  - intros a b c (c1 & d1 & t1 & ->) (c2 & d2 & t2 & ->).
    exists c2, d2, t2. now destruct a.
Qed.



(** Discharge [caches_only st (f st)] for an update [f] of those fields. *)
Ltac caches_modify :=
  lazymatch goal with
  | |- preserves caches_only (modify _) =>
      let st := fresh "st" in
      refine (preserves_modify _ _ _); intros st; destruct st;
      eexists _, _, _; simpl_state; reflexivity
  end.

Lemma cache_pop_caches key : preserves caches_only (cache_pop key).
Proof.
  intros st a st'. unfold cache_pop.
  destruct (utxo_cache st !! key); intros [= _ <-]; [|reflexivity].
  destruct st. eexists _, _, _. simpl_state. reflexivity.
Qed.

Lemma put_utxo_caches key val : preserves caches_only (put_utxo key val).
Proof. unfold put_utxo. caches_modify. Qed.

Lemma spend_scan_caches tx_hash n cands :
  preserves caches_only (spend_scan tx_hash n cands).
Proof.
  induction cands as [|[hk hx] rest IH]; cbn [spend_scan].
  - refine (preserves_raise _ _).
  - repeat first [exact IH | caches_modify | preserves_step].
Qed.

Lemma spend_utxo_caches tx_hash tx_idx :
  preserves caches_only (spend_utxo tx_hash tx_idx).
Proof.
  unfold spend_utxo.
  repeat first [apply cache_pop_caches | apply spend_scan_caches | preserves_step].
Qed.

Lemma spend_inputs_caches ins undo_info hashXs :
  preserves caches_only (spend_inputs ins undo_info hashXs).
Proof.
  revert undo_info hashXs. induction ins as [|txin rest IH]; intros; cbn [spend_inputs].
  - refine (preserves_ret _ _).
  - repeat first [apply IH | apply spend_utxo_caches | preserves_step].
Qed.

Lemma add_outputs_caches tx_hash tx_numb idx outs hashXs :
  preserves caches_only (add_outputs tx_hash tx_numb idx outs hashXs).
Proof.
  revert idx hashXs. induction outs as [|txout rest IH]; intros; cbn [add_outputs].
  - refine (preserves_ret _ _).
  - repeat first [apply IH | apply put_utxo_caches | preserves_step].
Qed.

Lemma advance_txs_loop_caches txs tx_num undo_info hashXs_by_tx :
  preserves caches_only (advance_txs_loop txs tx_num undo_info hashXs_by_tx).
Proof.
  revert tx_num undo_info hashXs_by_tx.
  induction txs as [|[tx tx_hash] rest IH]; intros; cbn [advance_txs_loop].
  - refine (preserves_ret _ _).
  - repeat first [apply IH | apply spend_inputs_caches | apply add_outputs_caches
                 | caches_modify | preserves_step].
Qed.


Lemma backup_outputs_caches tx_hash idx outs :
  preserves caches_only (backup_outputs tx_hash idx outs).
Proof.
  revert idx. induction outs as [|txout rest IH]; intros; cbn [backup_outputs].
  - refine (preserves_ret _ _).
  - repeat first [apply IH | apply spend_utxo_caches | caches_modify | preserves_step].
Qed.

Lemma backup_inputs_caches undo_info rev_ins n :
  preserves caches_only (backup_inputs undo_info rev_ins n).
Proof.
  revert n. induction rev_ins as [|txin rest IH]; intros; cbn [backup_inputs].
  - refine (preserves_ret _ _).
  - cbv zeta.
    repeat first [apply IH | apply put_utxo_caches | caches_modify | preserves_step].
Qed.

Lemma backup_txs_loop_caches undo_info rev_txs n :
  preserves caches_only (backup_txs_loop undo_info rev_txs n).
Proof.
  revert n. induction rev_txs as [|[tx tx_hash] rest IH]; intros; cbn [backup_txs_loop].
  - refine (preserves_ret _ _).
  - repeat first [apply IH | apply backup_outputs_caches | apply backup_inputs_caches
                 | preserves_step].
Qed.

(** The ordinal the loop returns counts the transactions it walked. *)
Lemma advance_txs_loop_tx_num txs tx_num undo_info hashXs_by_tx
    (st : BlockProcessor) n u h st' :
  advance_txs_loop txs tx_num undo_info hashXs_by_tx st = Ok (n, u, h) st' ->
  n = tx_num + Z.of_nat (length txs).
Proof.
  revert tx_num undo_info hashXs_by_tx st.
  induction txs as [|[tx tx_hash] rest IH]; intros tx_num undo_info hashXs_by_tx st;
    cbn [advance_txs_loop].
  - intros [= <- _ _ _]. cbn. lia.
  - intros H.
    apply bind_Ok_inv in H as (? & ? & _ & H).
    apply bind_Ok_inv in H as ([? ?] & ? & _ & H).
    apply bind_Ok_inv in H as (? & ? & _ & H).
    apply bind_Ok_inv in H as (? & ? & _ & H).
    apply IH in H. cbn [length]. lia.
Qed.



Lemma advance_blocks_loop_height blocks min_height h (st : BlockProcessor) h' st' :
  advance_blocks_loop blocks min_height h st = Ok h' st' ->
  h' = h + Z.of_nat (length blocks).
Proof.
  revert h st. induction blocks as [|block rest IH]; intros h st; cbn [advance_blocks_loop].
  - intros [= <- _]. cbn. lia.
  - intros H.
    apply bind_Ok_inv in H as (? & ? & _ & H).
    apply bind_Ok_inv in H as (? & ? & _ & H).
    apply IH in H. cbn [length]. lia.
Qed.

End Frames.

(** ** The shadow copies of the chain state *)

Section Shadow.
Context `{HI : HistoryIndex} `{CN : Coin}.

Lemma backup_flush_Ok_inv (st st' : BlockProcessor) :
  backup_flush st = Ok tt st' ->
  height st < db_height st /\ hist_flushed (history st) = true /\
  headers st = [] /\ tx_hashes st = [] /\
  height st' = height st /\ tx_count st' = tx_count st /\ tip st' = tip st /\
  fs_height st' = height st /\ fs_tx_count st' = tx_count st /\
  db_height st' = height st /\ db_tx_count st' = tx_count st /\ db_tip st' = tip st /\
  undo_infos st' = [] /\ utxo_cache st' = ∅ /\ db_deletes st' = [].
Proof.
  destruct st.
  unfold backup_flush, flush_utxos, flush_state, time_time,
    bind, get, gets, modify, py_assert, ret, raise.
  simpl_state.
  case_bool_decide; [|discriminate].
  destruct (hist_flushed _) eqn:Eh; [|discriminate].
  case_bool_decide; [|discriminate].
  case_bool_decide; [|discriminate].
  intros Hrun; injection Hrun as <-; simpl_state. repeat split; auto.
Qed.










Lemma check_cache_size_unfold (st : BlockProcessor) :
  check_cache_size st =
  match cache_flush_decision st with
  | Some b => flush b st
  | None => Ok tt st
  end.
Proof.
  unfold check_cache_size, bind, get. now destruct (cache_flush_decision st).
Qed.






(** C6 (as the code has it).  With both estimates in whole megabytes,
    [check_cache_size] flushes exactly when the two together reach the
    budget or the history side reaches a fifth of it, and it passes
    [flush_utxos = True] exactly when the UTXO side reaches four fifths
    of the budget; otherwise it does nothing.  The UTXO estimate counts
    205 bytes per cache entry and 57 per pending delete. *)
Theorem check_cache_size_decides (st : BlockProcessor) :
  (cache_MB st <= utxo_MB st + hist_MB st \/ cache_MB st / 5 <= hist_MB st ->
   check_cache_size st = flush (cache_MB st * 4 / 5 <=? utxo_MB st) st) /\
  (utxo_MB st + hist_MB st < cache_MB st /\ hist_MB st < cache_MB st / 5 ->
   check_cache_size st = Ok tt st) /\
  utxo_MB st =
    (Z.of_nat (length (db_deletes st)) * 57 + Z.of_nat (size (utxo_cache st)) * 205)
    / 1000000 /\
  hist_MB st =
    (hist_unflushed_memsize (history st)
     + ((tx_count st - fs_tx_count st) * 32 + (height st - fs_height st) * 42))
    / 1000000.
Proof.
  rewrite check_cache_size_unfold. unfold cache_flush_decision.
  split; [|split; [|split; reflexivity]].
  - intros Ht.
    destruct (Z.leb_spec (cache_MB st) (utxo_MB st + hist_MB st));
      destruct (Z.leb_spec (cache_MB st / 5) (hist_MB st)); cbn [orb]; try done; lia.
  - intros [H1 H2].
    destruct (Z.leb_spec (cache_MB st) (utxo_MB st + hist_MB st));
      destruct (Z.leb_spec (cache_MB st / 5) (hist_MB st)); cbn [orb]; try done; lia.
Qed.

End Shadow.

(** ** Backing up: the tip check *)

Section BackupTip.
Context `{HI : HistoryIndex} `{CN : Coin}.

(** The tip the loop of [backup_blocks] expects block after block,
    starting from tip [t] at height [h]: [None] as soon as a block's
    header hash is not the tip expected of it, else the tip left when all
    blocks are backed up. *)
Fixpoint backup_tips (t : bytes) (h : Z) (raw_blocks : list bytes) : option bytes :=
  match raw_blocks with
  | [] => Some t
  | raw_block :: rest =>
      let hdr := header (coin_block raw_block h) in
      if decide (header_hash hdr = t)
      then backup_tips (header_prevhash hdr) (h - 1) rest
      else None
  end.

Lemma backup_txs_tip_height txs (st st' : BlockProcessor) :
  backup_txs txs st = Ok tt st' -> tip st' = tip st /\ height st' = height st.
Proof.
  unfold backup_txs. intros H.
  apply bind_Ok_inv in H as (u & st0 & H0 & H). injection H0 as _ <-.
  destruct u as [undo_info|]; [|discriminate].
  apply bind_Ok_inv in H as (n & st1 & H1 & H).
  apply backup_txs_loop_caches in H1 as (c & d & t & ->).
  apply bind_Ok_inv in H as ([] & st2 & H2 & H).
  unfold py_assert in H2. destruct (bool_decide (n = 0)); [|discriminate].
  injection H2 as <-. injection H as <-.
  destruct st. simpl_state. done.
Qed.

Lemma backup_block_Ok_inv raw_block (st st' : BlockProcessor) :
  backup_block raw_block st = Ok tt st' ->
  header_hash (header (coin_block raw_block (height st))) = tip st /\
  tip st' = header_prevhash (header (coin_block raw_block (height st))) /\
  height st' = height st - 1.
Proof.
  unfold backup_block. unfold bind at 1, get.
  destruct (decide (header_hash (header (coin_block raw_block (height st))) <> tip st))
    as [Hne|He]; [discriminate|].
  apply dec_stable in He. intros H. split; [done|].
  apply bind_Ok_inv in H as ([] & st1 & H1 & H). injection H1 as <-.
  apply bind_Ok_inv in H as ([] & st2 & H2 & H).
  apply backup_txs_tip_height in H2 as [Ht Hh].
  apply bind_Ok_inv in H as ([] & st3 & H3 & H). injection H3 as <-.
  unfold tx_counts_pop, bind, gets, modify in H.
  destruct (tx_counts _); [discriminate|]. injection H as <-.
  revert Ht Hh. destruct st, st2. simpl_state. intros -> ->. done.
Qed.

Lemma backup_loop_Ok_inv raw_blocks (st st' : BlockProcessor) :
  for_each raw_blocks backup_block st = Ok tt st' ->
  backup_tips (tip st) (height st) raw_blocks = Some (tip st') /\
  height st' = height st - Z.of_nat (length raw_blocks).
Proof.
  revert st. induction raw_blocks as [|raw_block rest IH]; intros st; cbn [for_each].
  - intros [= <-]. cbn. split; [done|lia].
  - intros H. apply bind_Ok_inv in H as ([] & st1 & H1 & H).
    apply backup_block_Ok_inv in H1 as (E & Ht & Hh).
    apply IH in H as [H Hh']. cbn [backup_tips length].
    rewrite decide_True by done. rewrite <- Ht, <- Hh. split; [done|lia].
Qed.


End BackupTip.

(** ** The fork-point search *)

Section ForkSearch.
Context `{HI : HistoryIndex} `{CN : Coin}.
Variable hash_to_hex_str : bytes -> bytes.


Lemma diff_pos_zip_bound n (l1 l2 : list bytes) k :
  diff_pos_zip n l1 l2 = Some k -> n <= k < n + Z.of_nat (length l1).
Proof.
  revert n l2. induction l1 as [|x l1 IH]; intros n [|y l2]; cbn; try discriminate.
  destruct (decide (x <> y)).
  - intros [= <-]. lia.
  - intros H. apply IH in H. lia.
Qed.


(** [diff_pos] is the length of the longest common prefix of the zipped
    lists when they differ. *)
Lemma diff_pos_zip_agree n (l1 l2 : list bytes) k :
  diff_pos_zip n l1 l2 = Some k ->
  take (Z.to_nat (k - n)) l1 = take (Z.to_nat (k - n)) l2 /\
  l1 !! Z.to_nat (k - n) <> l2 !! Z.to_nat (k - n).
Proof.
  revert n l2. induction l1 as [|x l1 IH]; intros n [|y l2]; cbn; try discriminate.
  destruct (decide (x <> y)) as [Hne|He].
  - intros [= <-]. rewrite Z.sub_diag. cbn. split; [done|]. intros [= E]. done.
  - apply dec_stable in He as ->. intros H.
    pose proof (diff_pos_zip_bound _ _ _ _ H) as Hb.
    apply IH in H as [H1 H2].
    replace (Z.to_nat (k - n)) with (S (Z.to_nat (k - (n + 1)))) by lia.
    cbn. now rewrite H1.
Qed.





(** A simulated reorg of [count] blocks starts at [height - count + 1]. *)
Lemma reorg_hashes_simulated (st : BlockProcessor) d count :
  reorg_hashes hash_to_hex_str d (Some count) st
  = Some (height st - count + 1, fs_block_hashes st (height st - count + 1) count).
Proof. reflexivity. Qed.

End ForkSearch.

(** ** UTXO records and their keys *)

(** The 32 bytes archived for ordinal [n] in the file of transaction
    hashes. *)
Definition hash_at (file : bytes) (n : Z) : option bytes :=
  if (0 <=? n) && (32 * n + 32 <=? Z.of_nat (length file))
  then Some (slice file (32 * n) (32 * n + 32))
  else None.

(** The keys of the two records of a cache entry, as [flush_utxos]
    writes them. *)
Definition hkey_of (k v : bytes) : bytes :=
  h_prefix ++ slice_to k 4 ++ slice_from k (-2) ++ slice v (-12) (-8).
Definition ukey_of (k v : bytes) : bytes :=
  u_prefix ++ slice_to v (-12) ++ slice_from k (-2) ++ slice v (-12) (-8).

(** Keys of the ['h'] and ['u'] tables. *)
Definition is_utxo_key (key : bytes) : Prop :=
  h_prefix `prefix_of` key \/ u_prefix `prefix_of` key.

(** The ordinal packed in a cache value. *)
Definition value_tx_num (v : bytes) : Z := le_value (take 4 (drop 11 v)).

(** A cache entry of the right widths whose ordinal is archived with the
    hash in its key. *)
Definition entry_wf (file : bytes) (k v : bytes) : Prop :=
  length k = 34%nat /\ length v = 23%nat /\
  hash_at file (value_tx_num v) = Some (take 32 k).

Definition entries_wf (file : bytes) (U : gmap bytes bytes) : Prop :=
  forall k v, U !! k = Some v -> entry_wf file k v.

(** [key := val] is one of the two records of the entry [(k, v)]. *)
Definition record_of (k v key val : bytes) : Prop :=
  (key = hkey_of k v /\ val = slice_to v (-12)) \/
  (key = ukey_of k v /\ val = slice_from v (-8)).

(** The ['h'] and ['u'] tables of [db] hold exactly the records of the
    UTXO set [U]. *)
Definition represents (U db : gmap bytes bytes) : Prop :=
  forall key val, is_utxo_key key ->
    (db !! key = Some val <-> exists k v, U !! k = Some v /\ record_of k v key val).

Section Records.

Lemma slice_nonneg {A} (l : list A) a b :
  0 <= a <= b -> b <= Z.of_nat (length l) ->
  slice l a b = take (Z.to_nat (b - a)) (drop (Z.to_nat a) l).
Proof.
  intros Ha Hb. unfold slice, py_index.
  destruct (Z.ltb_spec a 0); [lia|]. destruct (Z.ltb_spec b 0); [lia|].
  rewrite !Z.min_l by lia. reflexivity.
Qed.

Lemma fs_tx_hash_hash_at `{HI : HistoryIndex} (st : BlockProcessor) n :
  fs_tx_hash st n = hash_at (hashes_file st) n.
Proof. reflexivity. Qed.

Lemma hash_at_Some file n h :
  hash_at file n = Some h ->
  0 <= n /\ 32 * n + 32 <= Z.of_nat (length file) /\
  h = take 32 (drop (Z.to_nat (32 * n)) file) /\ length h = 32%nat.
Proof.
  unfold hash_at.
  destruct (Z.leb_spec 0 n); destruct (Z.leb_spec (32 * n + 32) (Z.of_nat (length file)));
    cbn; try discriminate.
  intros [= <-]. rewrite slice_nonneg by lia.
  replace (Z.to_nat (32 * n + 32 - 32 * n)) with 32%nat by lia.
  repeat split; try lia. rewrite length_take, length_drop. lia.
Qed.

Lemma hash_at_in_range file n :
  0 <= n -> 32 * n + 32 <= Z.of_nat (length file) ->
  hash_at file n = Some (take 32 (drop (Z.to_nat (32 * n)) file)).
Proof.
  intros H1 H2. unfold hash_at.
  destruct (Z.leb_spec 0 n); destruct (Z.leb_spec (32 * n + 32) (Z.of_nat (length file)));
    cbn; try lia.
  rewrite slice_nonneg by lia.
  now replace (Z.to_nat (32 * n + 32 - 32 * n)) with 32%nat by lia.
Qed.


Lemma hash_at_take file tc n h :
  hash_at file n = Some h -> n < tc -> 32 * tc <= Z.of_nat (length file) ->
  hash_at (take (Z.to_nat (32 * tc)) file) n = Some h.
Proof.
  intros H Hn Hlen. apply hash_at_Some in H as (H0 & H1 & -> & _).
  rewrite hash_at_in_range; [|lia|rewrite length_take; lia].
  f_equal. rewrite skipn_firstn_comm, take_take. f_equal. lia.
Qed.


(** The slices the code takes of a well-sized key and value. *)
Lemma key_slices (k : bytes) :
  length k = 34%nat ->
  slice_to k 4 = take 4 k /\ slice_from k (-2) = drop 32 k.
Proof.
  intros Hk. unfold slice_to, slice_from, py_index. rewrite Hk. done.
Qed.

Lemma value_slices (v : bytes) :
  length v = 23%nat ->
  slice_to v (-12) = take 11 v /\ slice v (-12) (-8) = take 4 (drop 11 v) /\
  slice_from v (-8) = drop 15 v.
Proof.
  intros Hv. unfold slice_to, slice_from, slice, py_index. rewrite Hv. done.
Qed.

Lemma hkey_of_wf (k v : bytes) :
  length k = 34%nat -> length v = 23%nat ->
  hkey_of k v = h_prefix ++ take 4 k ++ drop 32 k ++ take 4 (drop 11 v).
Proof.
  intros Hk Hv. unfold hkey_of.
  destruct (key_slices k Hk) as [-> ->]. destruct (value_slices v Hv) as (_ & -> & _).
  done.
Qed.

Lemma ukey_of_wf (k v : bytes) :
  length k = 34%nat -> length v = 23%nat ->
  ukey_of k v = u_prefix ++ take 11 v ++ drop 32 k ++ take 4 (drop 11 v).
Proof.
  intros Hk Hv. unfold ukey_of.
  destruct (key_slices k Hk) as [_ ->]. destruct (value_slices v Hv) as (-> & -> & _).
  done.
Qed.

Lemma value_parts (v : bytes) :
  length v = 23%nat -> v = take 11 v ++ take 4 (drop 11 v) ++ drop 15 v.
Proof.
  intros Hv. rewrite <- (take_drop 11 v) at 1. f_equal.
  rewrite <- (take_drop 4 (drop 11 v)) at 1. f_equal. now rewrite drop_drop.
Qed.

Lemma key_parts (k : bytes) : k = take 32 k ++ drop 32 k.
Proof. now rewrite take_drop. Qed.

Lemma app_inj_length {A} (a b c d : list A) :
  length a = length c -> a ++ b = c ++ d -> a = c /\ b = d.
Proof. intros Hl E. now apply app_inj_1. Qed.

(** Two well-formed entries that share a record key are one entry. *)
Lemma record_key_inj file k1 v1 k2 v2 key val1 val2 :
  entry_wf file k1 v1 -> entry_wf file k2 v2 ->
  record_of k1 v1 key val1 -> record_of k2 v2 key val2 -> k1 = k2.
Proof.
  intros (Hk1 & Hv1 & Hh1) (Hk2 & Hv2 & Hh2) R1 R2.
  assert (Hsfx : drop 32 k1 = drop 32 k2 /\ take 4 (drop 11 v1) = take 4 (drop 11 v2)).
  { destruct R1 as [[-> _]|[-> _]], R2 as [[E _]|[E _]];
      rewrite ?hkey_of_wf, ?ukey_of_wf in E by done;
      try (cbn in E; discriminate).
    - apply app_inj_length in E as [_ E]; [|done].
      apply app_inj_length in E as [_ E]; [|rewrite !length_take; lia].
      apply app_inj_length in E as [? ?]; [done|rewrite !length_drop; lia].
    - apply app_inj_length in E as [_ E]; [|done].
      apply app_inj_length in E as [_ E]; [|rewrite !length_take; lia].
      apply app_inj_length in E as [? ?]; [done|rewrite !length_drop; lia]. }
  destruct Hsfx as [Hi Hn]. unfold value_tx_num in *.
  rewrite Hn, Hh2 in Hh1. injection Hh1 as Hh.
  rewrite (key_parts k1), (key_parts k2). congruence.
Qed.



End Records.

(** ** Committing a batch *)

Definition op_key (o : batch_op) : bytes :=
  match o with BPut k _ => k | BDelete k => k end.

Section Commit.

Lemma commit_app db ops1 ops2 : commit db (ops1 ++ ops2) = commit (commit db ops1) ops2.
Proof. unfold commit. apply foldl_app. Qed.

Lemma commit_snoc db ops o : commit db (ops ++ [o]) = apply_op (commit db ops) o.
Proof. now rewrite commit_app. Qed.

(** A key no write of the batch names keeps its value. *)
Lemma commit_untouched db ops key :
  key ∉ map op_key ops -> commit db ops !! key = db !! key.
Proof.
  induction ops as [|o ops IH] using rev_ind; [done|].
  rewrite map_app, not_elem_of_app. intros [H1 H2]. rewrite commit_snoc.
  cbn in H2. apply not_elem_of_cons in H2 as [H2 _].
  destruct o as [k v|k]; cbn in *.
  - rewrite lookup_insert_ne by done. now apply IH.
  - rewrite lookup_delete_ne by done. now apply IH.
Qed.


(** A key that the batch only puts, always with one value, ends with
    that value. *)
Lemma commit_puts db ops key val :
  BPut key val ∈ ops ->
  (forall o, o ∈ ops -> op_key o = key -> o = BPut key val) ->
  commit db ops !! key = Some val.
Proof.
  induction ops as [|o ops IH] using rev_ind; [intros H; now apply elem_of_nil in H|].
  intros Hin Hall. rewrite commit_snoc.
  destruct (decide (op_key o = key)) as [Hk|Hk].
  - rewrite (Hall o); [|apply elem_of_app; right; apply list_elem_of_here|done].
    cbn. apply lookup_insert_eq.
  - assert (commit db ops !! key = Some val) as <-.
    { apply IH.
      - apply elem_of_app in Hin as [?|Hin]; [done|].
        apply list_elem_of_singleton in Hin as <-. cbn in Hk. done.
      - intros o' Ho'. apply Hall. apply elem_of_app. now left. }
    destruct o as [k v|k]; cbn in *.
    + now rewrite lookup_insert_ne.
    + now rewrite lookup_delete_ne.
Qed.

Lemma elem_of_utxo_puts (cache : gmap bytes bytes) o :
  o ∈ flat_map utxo_puts (map_to_list cache) <->
  exists k v key val, cache !! k = Some v /\ record_of k v key val /\ o = BPut key val.
Proof.
  rewrite list_elem_of_In, in_flat_map. split.
  - intros ([k v] & Hin & Ho). apply list_elem_of_In, elem_of_map_to_list in Hin.
    cbn in Ho. destruct Ho as [<-|[<-|[]]].
    + exists k, v, (hkey_of k v), (slice_to v (-12)). split; [done|]. split; [|done].
      left. done.
    + exists k, v, (ukey_of k v), (slice_from v (-8)). split; [done|]. split; [|done].
      right. done.
  - intros (k & v & key & val & Hc & Hr & ->). exists (k, v). split.
    + now apply list_elem_of_In, elem_of_map_to_list.
    + cbn. destruct Hr as [[-> ->]|[-> ->]]; [left|right; left]; reflexivity.
Qed.


End Commit.

(** ** The UTXO set behind a state

    Between two flushes the store and the archive do not change.  With
    [Udb] the UTXO set the store represents, the UTXO set of a state is
    [Udb] without the outputs whose keys wait in [db_deletes], overlaid
    with the cache. *)

Section Phase.
Context `{HI : HistoryIndex}.
Variable file : bytes.
Variable Udb : gmap bytes bytes.

Definition phase (st : BlockProcessor) : Prop :=
  represents Udb (utxo_db st) /\
  entries_wf (hashes_file st) Udb /\
  entries_wf file Udb.

Definition sim_raw (cache : gmap bytes bytes) (dels : list bytes)
  (U : gmap bytes bytes) : Prop :=
  entries_wf file cache /\
  exists D : gset bytes,
    (forall key, key ∈ dels <->
       exists k v, k ∈ D /\ Udb !! k = Some v /\ (key = hkey_of k v \/ key = ukey_of k v)) /\
    (forall k, U !! k =
       match cache !! k with
       | Some v => Some v
       | None => if decide (k ∈ D) then None else Udb !! k
       end) /\
    (forall k v, cache !! k = Some v -> k ∉ D -> Udb !! k = None).



Lemma key_record k v key :
  key = hkey_of k v \/ key = ukey_of k v -> exists val, record_of k v key val.
Proof. intros [-> | ->]; eexists; [left|right]; done. Qed.

Lemma record_key k v key val :
  record_of k v key val -> key = hkey_of k v \/ key = ukey_of k v.
Proof. intros [[-> _]|[-> _]]; auto. Qed.

(** One entry has one record per key. *)
Lemma record_val k v key val val' :
  length k = 34%nat -> length v = 23%nat ->
  record_of k v key val -> record_of k v key val' -> val = val'.
Proof.
  intros Hk Hv [[-> ->]|[-> ->]] [[E ->]|[E ->]]; try done;
    rewrite hkey_of_wf, ukey_of_wf in E by done; discriminate.
Qed.



(** The set is a function of the state. *)
Lemma sim_raw_det cache dels U U' :
  entries_wf file Udb -> sim_raw cache dels U -> sim_raw cache dels U' -> U = U'.
Proof.
  intros HwU (_ & D & Hd & HU & _) (_ & D' & Hd' & HU' & _).
  apply map_eq. intros k. rewrite HU, HU'.
  destruct (cache !! k); [done|].
  destruct (Udb !! k) as [v|] eqn:Hu; [|now repeat destruct (decide _)].
  assert (k ∈ D <-> k ∈ D') as HDD.
  { assert (Hgen : forall (E E' : gset bytes),
      (forall key, key ∈ dels <->
         exists k v, k ∈ E /\ Udb !! k = Some v /\ (key = hkey_of k v \/ key = ukey_of k v)) ->
      (forall key, key ∈ dels <->
         exists k v, k ∈ E' /\ Udb !! k = Some v /\ (key = hkey_of k v \/ key = ukey_of k v)) ->
      k ∈ E -> k ∈ E').
    { intros E E' HE HE' Hin.
      assert (hkey_of k v ∈ dels) as Hk by (apply HE; eauto 8).
      apply HE' in Hk as (k0 & v0 & Hin0 & Hu0 & Hk0).
      apply key_record in Hk0 as [val0 Hr0].
      assert (k = k0) as ->; [|done].
      eapply (record_key_inj file k v k0 v0); eauto. left. done. }
    split; eapply Hgen; eauto. }
  destruct (decide (k ∈ D)), (decide (k ∈ D')); tauto.
Qed.




End Phase.

(** ** [spend_utxo] and [put_utxo] on the UTXO set *)

Section SpendSim.
Context `{HI : HistoryIndex}.
Variable file : bytes.
Variable Udb : gmap bytes bytes.

Lemma hkey_slices (k v : bytes) :
  length k = 34%nat -> length v = 23%nat ->
  slice_from (hkey_of k v) (-4) = take 4 (drop 11 v) /\
  slice_from (hkey_of k v) (-6) = drop 32 k ++ take 4 (drop 11 v) /\
  unpack_le 4 (take 4 (drop 11 v)) = Some (value_tx_num v).
Proof.
  intros Hk Hv. rewrite hkey_of_wf by done. split; [|split].
  - replace (h_prefix ++ take 4 k ++ drop 32 k ++ take 4 (drop 11 v))
      with ((h_prefix ++ take 4 k ++ drop 32 k) ++ take 4 (drop 11 v))
      by (now rewrite <- !(assoc_L (++))).
    apply (slice_from_neg_app _ _ 4); [lia|].
    rewrite length_take, length_drop. lia.
  - replace (h_prefix ++ take 4 k ++ drop 32 k ++ take 4 (drop 11 v))
      with ((h_prefix ++ take 4 k) ++ drop 32 k ++ take 4 (drop 11 v))
      by (now rewrite <- !(assoc_L (++))).
    apply (slice_from_neg_app _ _ 6); [lia|].
    rewrite length_app, length_take, !length_drop. lia.
  - unfold unpack_le. rewrite decide_True; [done|].
    rewrite length_take, length_drop. lia.
Qed.




(** The candidates of the prefix scan are ['h'] records of the stored
    set, for the index asked for. *)
Definition stored_candidate (idx_packed : bytes) (c : bytes * bytes) : Prop :=
  exists k v, Udb !! k = Some v /\ c = (hkey_of k v, slice_to v (-12)) /\
    drop 32 k = idx_packed.

(** The turn of the scan on the record of the output asked for. *)
Lemma spend_scan_takes (st : BlockProcessor) tx_hash idx_packed n rest v :
  phase file Udb st ->
  length tx_hash = 32%nat ->
  Udb !! (tx_hash ++ idx_packed) = Some v ->
  spend_scan tx_hash n
    ((hkey_of (tx_hash ++ idx_packed) v, slice_to v (-12)) :: rest) st
  = Ok v (set_db_deletes
            ((db_deletes st ++ [hkey_of (tx_hash ++ idx_packed) v])
               ++ [ukey_of (tx_hash ++ idx_packed) v]) st).
Proof.
  intros (HR & Hwh & _) Hth Hu.
  set (k := tx_hash ++ idx_packed) in *.
  destruct (Hwh _ _ Hu) as (Lk & Lv & Hh).
  destruct (hkey_slices k v Lk Lv) as (S4 & S6 & Hun).
  destruct (value_slices v Lv) as (V11 & _ & V8).
  cbn [spend_scan]. rewrite S4, S6, V11.
  assert (Htake : take 32 k = tx_hash) by (now apply take_app_length').
  assert (Hukey : u_prefix ++ take 11 v ++ drop 32 k ++ take 4 (drop 11 v) = ukey_of k v)
    by (now rewrite ukey_of_wf).
  assert (Hdb : utxo_db st !! ukey_of k v = Some (drop 15 v)).
  { apply HR; [right; eexists; reflexivity|].
    exists k, v. split; [done|]. right. now rewrite V8. }
  assert (Hrest :
    (let* utxo_value_packed :=
       gets (fun st0 : BlockProcessor =>
               utxo_db st0 !! (u_prefix ++ take 11 v ++ drop 32 k ++ take 4 (drop 11 v))) in
     if truthy utxo_value_packed then
       do* modify (fun st0 => set_db_deletes (db_deletes st0 ++ [hkey_of k v]) st0) in
       do* modify (fun st0 => set_db_deletes
             (db_deletes st0 ++ [u_prefix ++ take 11 v ++ drop 32 k ++ take 4 (drop 11 v)])
             st0) in
       ret (take 11 v ++ take 4 (drop 11 v) ++ default [] utxo_value_packed)
     else spend_scan tx_hash n rest) st
    = Ok v (set_db_deletes ((db_deletes st ++ [hkey_of k v]) ++ [ukey_of k v]) st)).
  { rewrite Hukey. unfold bind at 1, gets at 1. rewrite Hdb.
    assert (Ht : truthy (Some (drop 15 v)) = true).
    { apply truthy_Some. eexists. split; [done|].
      intros E. apply (f_equal length) in E. rewrite length_drop in E. cbn in E. lia. }
    rewrite Ht. unfold bind, modify, ret. cbn [default].
    rewrite <- (value_parts v Lv) at 1. now destruct st. }
  unfold bind at 1.
  destruct (decide (1 < n)%nat).
  - unfold bind at 1, struct_op. rewrite Hun. unfold ret at 1, bind at 1, gets at 1.
    rewrite fs_tx_hash_hash_at, Hh, Htake. rewrite decide_True by done.
    unfold ret at 1. exact Hrest.
  - unfold ret at 1. exact Hrest.
Qed.

(** The turn of the scan on the record of another output. *)
Lemma spend_scan_skips (st : BlockProcessor) tx_hash idx_packed n rest c v :
  phase file Udb st ->
  length tx_hash = 32%nat ->
  stored_candidate idx_packed c ->
  Udb !! (tx_hash ++ idx_packed) = Some v ->
  c.1 <> hkey_of (tx_hash ++ idx_packed) v ->
  (1 < n)%nat ->
  spend_scan tx_hash n (c :: rest) st = spend_scan tx_hash n rest st.
Proof.
  intros (HR & Hwh & _) Hth (k' & v' & Hu' & -> & Hidx) Hu Hne Hn.
  cbn [fst] in Hne.
  destruct (Hwh _ _ Hu') as (Lk & Lv & Hh).
  destruct (hkey_slices k' v' Lk Lv) as (S4 & S6 & Hun).
  cbn [spend_scan]. rewrite S4.
  unfold bind at 1. rewrite decide_True by done.
  unfold bind at 1, struct_op. rewrite Hun. unfold ret at 1, bind at 1, gets at 1.
  rewrite fs_tx_hash_hash_at, Hh.
  destruct (decide (Some (take 32 k') = Some tx_hash)) as [[= E]|E].
  - exfalso. apply Hne. assert (k' = tx_hash ++ idx_packed) as ->.
    { rewrite (key_parts k'). congruence. }
    congruence.
  - unfold bind at 1, py_assert. rewrite bool_decide_true by done.
    unfold ret at 1 2. reflexivity.
Qed.

(** The scan returns the value of the output asked for, whatever other
    candidates share its prefix. *)
Lemma spend_scan_finds (st : BlockProcessor) tx_hash idx_packed n cands v :
  phase file Udb st ->
  length tx_hash = 32%nat ->
  Udb !! (tx_hash ++ idx_packed) = Some v ->
  Forall (stored_candidate idx_packed) cands ->
  (hkey_of (tx_hash ++ idx_packed) v, slice_to v (-12)) ∈ cands ->
  ((1 < n)%nat \/ cands = [(hkey_of (tx_hash ++ idx_packed) v, slice_to v (-12))]) ->
  spend_scan tx_hash n cands st
  = Ok v (set_db_deletes
            ((db_deletes st ++ [hkey_of (tx_hash ++ idx_packed) v])
               ++ [ukey_of (tx_hash ++ idx_packed) v]) st).
Proof.
  intros Hp Hth Hu Hall Hin Hn.
  induction cands as [|c rest IH]; [now apply elem_of_nil in Hin|].
  apply Forall_cons in Hall as [Hc Hall].
  destruct (decide (c = (hkey_of (tx_hash ++ idx_packed) v, slice_to v (-12)))) as [->|Hne].
  - now apply spend_scan_takes.
  - destruct Hn as [Hn|[= E _]]; [|done].
    apply elem_of_cons in Hin as [Hin|Hin]; [congruence|].
    rewrite (spend_scan_skips st tx_hash idx_packed n rest c v); auto.
    intros E. apply Hne.
    destruct Hc as (k' & v' & Hu' & -> & Hidx). cbn [fst] in E.
    destruct Hp as (_ & Hwh & _).
    assert (k' = tx_hash ++ idx_packed) as ->.
    { eapply (record_key_inj (hashes_file st) k' v' (tx_hash ++ idx_packed) v);
        [eauto|eauto|left; split; reflexivity|left; split; [exact E|reflexivity]]. }
    congruence.
Qed.

(** The candidates of the scan for an output of the stored set. *)
Lemma candidates_stored (st : BlockProcessor) tx_hash idx_packed v :
  phase file Udb st ->
  length tx_hash = 32%nat -> length idx_packed = 2%nat ->
  Udb !! (tx_hash ++ idx_packed) = Some v ->
  let cands := db_iterator (h_prefix ++ slice_to tx_hash 4 ++ idx_packed) (utxo_db st) in
  Forall (stored_candidate idx_packed) cands /\
  (hkey_of (tx_hash ++ idx_packed) v, slice_to v (-12)) ∈ cands.
Proof.
  intros (HR & Hwh & _) Hth Hidx Hu cands.
  assert (Hs4 : slice_to tx_hash 4 = take 4 tx_hash).
  { unfold slice_to, py_index. rewrite Hth. done. }
  split.
  - apply Forall_forall. intros [hk hx] Hin.
    apply elem_of_db_iterator in Hin as [Hdb Hpre].
    assert (Hk : is_utxo_key hk).
    { left. etransitivity; [|exact Hpre]. eexists; reflexivity. }
    apply (HR hk hx Hk) in Hdb as (k' & v' & Hu' & Hr).
    destruct (Hwh _ _ Hu') as (Lk & Lv & _).
    destruct Hr as [[-> ->]|[-> ->]]; cycle 1.
    { rewrite ukey_of_wf in Hpre by done. destruct Hpre as [x E]. discriminate. }
    exists k', v'. split; [done|]. split; [done|].
    rewrite hkey_of_wf, Hs4 in Hpre by done. destruct Hpre as [x E].
    injection E as E. rewrite <- !(assoc_L (++)) in E.
    apply app_inj_length in E as [_ E]; [|rewrite !length_take; lia].
    apply app_inj_length in E as [E _]; [done|rewrite length_drop; lia].
  - apply elem_of_db_iterator.
    destruct (Hwh _ _ Hu) as (Lk & Lv & _). split.
    + apply HR; [left; eexists; reflexivity|].
      exists (tx_hash ++ idx_packed), v. split; [done|]. left. done.
    + rewrite hkey_of_wf, Hs4 by done.
      rewrite take_app_le by lia. rewrite drop_app_length' by done.
      exists (take 4 (drop 11 v)). now rewrite <- !(assoc_L (++)).
Qed.


End SpendSim.

(** ** The effect of blocks on the UTXO set

    The unspent outputs as one finite map from [tx_hash ++ pack('<H', idx)]
    to the 23 byte value, and what a valid sequence of blocks does to
    it: every input spends an output of the set, every new output is
    new to the set.  [None] when the blocks are not valid over the set. *)

Section Effect.
Context `{CN : Coin}.








(** Each block builds on the one before it, the first on [tip]. *)
Fixpoint linked (tip : bytes) (blocks : list Block) : Prop :=
  match blocks with
  | [] => True
  | block :: rest =>
      header_prevhash (header block) = tip /\
      linked (header_hash (header block)) rest
  end.


End Effect.

Section EffectSim.
Context `{HI : HistoryIndex} `{CN : Coin}.
Variable file : bytes.
Variable Udb : gmap bytes bytes.






End EffectSim.

(** ** Advancing, on the UTXO set *)




Section Forward.
Context `{HI : HistoryIndex} `{CN : Coin}.
Variable file : bytes.
Variable Udb : gmap bytes bytes.




(** The state after [advance_blocks]'s loop, from the state before it. *)
Definition advanced (st : BlockProcessor) c d t hist txh tc tcs ui rbf : BlockProcessor :=
  set_raw_block_files rbf
    (set_undo_infos ui
       (set_tx_counts tcs
          (set_tx_count tc
             (set_history hist
                (set_tx_hashes txh
                   (set_touched t (set_db_deletes d (set_utxo_cache c st)))))))).

Lemma advanced_refl (st : BlockProcessor) :
  st = advanced st (utxo_cache st) (db_deletes st) (touched st) (history st)
         (tx_hashes st) (tx_count st) (tx_counts st) (undo_infos st) (raw_block_files st).
Proof. now destruct st. Qed.

Lemma advanced_twice (st : BlockProcessor) c d t hist txh tc tcs ui rbf
    c' d' t' hist' txh' tc' tcs' ui' rbf' :
  advanced (advanced st c d t hist txh tc tcs ui rbf) c' d' t' hist' txh' tc' tcs' ui' rbf'
  = advanced st c' d' t' hist' txh' tc' tcs' ui' rbf'.
Proof. now destruct st. Qed.




End Forward.

(** ** The loop of [advance_blocks] *)

Section ForwardBlocks.
Context `{HI : HistoryIndex} `{CN : Coin}.

(** The transaction hashes of the blocks, one by one and block by block. *)
Definition block_hashes (blocks : list Block) : list bytes :=
  flat_map (fun b => map snd (transactions b)) blocks.

Definition block_tx_hashes (blocks : list Block) : list bytes :=
  map (fun b => concat (map snd (transactions b))) blocks.

Definition total_txs (blocks : list Block) : Z :=
  Z.of_nat (length (block_hashes blocks)).

(** The running transaction counts after each block. *)
Fixpoint block_counts (tx_num : Z) (blocks : list Block) : list Z :=
  match blocks with
  | [] => []
  | b :: rest =>
      let n := tx_num + Z.of_nat (length (transactions b)) in
      n :: block_counts n rest
  end.


(** The hash of the last block, the tip after the blocks. *)
Definition block_tip (tip : bytes) (blocks : list Block) : bytes :=
  match last blocks with
  | Some b => header_hash (header b)
  | None => tip
  end.

Lemma total_txs_cons b rest :
  total_txs (b :: rest) = Z.of_nat (length (transactions b)) + total_txs rest.
Proof.
  unfold total_txs, block_hashes. cbn [flat_map].
  rewrite length_app, length_map. lia.
Qed.





Variable file : bytes.
Variable Udb : gmap bytes bytes.

Lemma advanced_proj (st : BlockProcessor) c d t hist txh tc tcs ui rbf :
  let st' := advanced st c d t hist txh tc tcs ui rbf in
  tx_count st' = tc /\ tx_hashes st' = txh /\ tx_counts st' = tcs /\ undo_infos st' = ui.
Proof. destruct st. unfold advanced. simpl_state. done. Qed.



End ForwardBlocks.

(** ** The batch of a flush *)

Section FlushRun.
Context `{HI : HistoryIndex} `{CN : Coin}.









Variable file : bytes.
Variable Udb : gmap bytes bytes.





End FlushRun.

(** ** Backing up, on the UTXO set *)

Section EffectFacts.
Context `{CN : Coin}.


Section Wf.
Variable file : bytes.





End Wf.
End EffectFacts.






Section Backward.
Context `{HI : HistoryIndex} `{CN : Coin}.
Variable file : bytes.
Variable Udb : gmap bytes bytes.









End Backward.

(** * Further properties of the UTXO cache *)

Section SpendMore.
Context `{HI : HistoryIndex}.

(** A scan that raises has changed nothing. *)
Lemma spend_scan_Raise tx_hash n cands (st : BlockProcessor) e st' :
  spend_scan tx_hash n cands st = Raise e st' ->
  st' = st /\ (e = ChainError UtxoNotFound \/ e = StructError \/ e = AssertionError).
Proof.
  induction cands as [|[hk hx] rest IH].
  - cbn. unfold raise. intros [= <- <-]. auto.
  - cbn [spend_scan].
    assert (Htake :
      (let udb_key := u_prefix ++ hx ++ slice_from hk (-6) in
       let* utxo_value_packed := gets (fun st => utxo_db st !! udb_key) in
       if truthy utxo_value_packed then
         do* modify (fun st => set_db_deletes (db_deletes st ++ [hk]) st) in
         do* modify (fun st => set_db_deletes (db_deletes st ++ [udb_key]) st) in
         ret (hx ++ slice_from hk (-4) ++ default [] utxo_value_packed)
       else spend_scan tx_hash n rest) st = Raise e st' ->
      st' = st /\ (e = ChainError UtxoNotFound \/ e = StructError \/ e = AssertionError)).
    { cbv zeta. unfold bind at 1, gets at 1.
      destruct (truthy _); [|exact IH]. unfold bind, modify, ret. discriminate. }
    unfold bind at 1.
    destruct (decide (1 < n)%nat) as [Hn|Hn].
    + unfold bind at 1, struct_op.
      destruct (unpack_le 4 (slice_from hk (-4))) as [tx_num|];
        [|unfold raise; intros [= <- <-]; auto].
      unfold ret at 1, bind at 1, gets at 1.
      destruct (decide (fs_tx_hash st tx_num = Some tx_hash)) as [Eh|Eh].
      * unfold ret at 1. exact Htake.
      * unfold bind at 1, py_assert.
        destruct (bool_decide (fs_tx_hash st tx_num <> None)).
        -- unfold ret at 1 2. exact IH.
        -- unfold raise. intros [= <- <-]. auto.
    + unfold ret at 1. exact Htake.
Qed.

(** X1. A [spend_utxo] that raises leaves the processor as it was: no
    cache entry is popped and nothing is queued for deletion (the cache
    holding no empty value, which no writer of it produces).  It raises
    nothing but [struct.error], the no-UTXO [ChainError] and the
    assertion on [fs_tx_hash]. *)
Theorem spend_utxo_raise_keeps_state (st : BlockProcessor) tx_hash tx_idx e st' :
  (forall k, utxo_cache st !! k <> Some []) ->
  spend_utxo tx_hash tx_idx st = Raise e st' ->
  st' = st /\ (e = ChainError UtxoNotFound \/ e = StructError \/ e = AssertionError).
Proof.
  intros Hne. unfold spend_utxo, bind at 1, struct_op.
  destruct (pack_le 2 tx_idx) as [idx_packed|]; [|unfold raise; intros [= <- <-]; auto].
  unfold ret at 1, bind at 1, cache_pop.
  destruct (utxo_cache st !! (tx_hash ++ idx_packed)) as [[|b v]|] eqn:Hc.
  - now apply Hne in Hc.
  - cbn [truthy]. unfold ret. discriminate.
  - cbn [truthy]. unfold bind at 1, gets at 1. apply spend_scan_Raise.
Qed.

(** X2. An output put in the cache is spent from the cache: [spend_utxo]
    right after [put_utxo] returns the value put, takes the entry out
    again and neither reads the store nor queues a delete. *)
Theorem put_then_spend_utxo (st : BlockProcessor) tx_hash tx_idx v :
  0 <= tx_idx < 65536 -> v <> [] ->
  (do* put_utxo (tx_hash ++ le_bytes 2 tx_idx) v in spend_utxo tx_hash tx_idx) st
  = Ok v (set_utxo_cache (delete (tx_hash ++ le_bytes 2 tx_idx) (utxo_cache st)) st).
Proof.
  intros Hidx Hv. unfold bind at 1, put_utxo, modify.
  unfold spend_utxo, bind at 1, struct_op.
  rewrite pack_le_in_range by (change (256 ^ Z.of_nat 2) with 65536; lia).
  unfold ret at 1, bind at 1, cache_pop.
  assert (Hc : utxo_cache (set_utxo_cache (<[tx_hash ++ le_bytes 2 tx_idx := v]> (utxo_cache st)) st)
               = <[tx_hash ++ le_bytes 2 tx_idx := v]> (utxo_cache st)) by (now destruct st).
  rewrite Hc, lookup_insert_eq.
  destruct v as [|b v]; [done|]. cbn [truthy default from_option id]. unfold ret.
  f_equal. rewrite delete_insert_eq. destruct st. simpl_state. reflexivity.
Qed.

(** X3. Hash-prefix collisions are resolved: when the two tables hold
    exactly the records of a set of outputs whose ordinals are archived
    with their hashes, spending an output of the set that is not in the
    cache returns its 23 byte value and queues its ['h'] and ['u'] keys
    for deletion, however many other outputs share its prefix. *)
Theorem spend_utxo_finds_stored (st : BlockProcessor) U tx_hash tx_idx v :
  represents U (utxo_db st) -> entries_wf (hashes_file st) U ->
  0 <= tx_idx < 65536 ->
  utxo_cache st !! (tx_hash ++ le_bytes 2 tx_idx) = None ->
  U !! (tx_hash ++ le_bytes 2 tx_idx) = Some v ->
  spend_utxo tx_hash tx_idx st
  = Ok v (set_db_deletes
            (db_deletes st ++ [hkey_of (tx_hash ++ le_bytes 2 tx_idx) v;
                               ukey_of (tx_hash ++ le_bytes 2 tx_idx) v]) st).
Proof.
  intros HR Hw Hidx Hc Hu.
  assert (Hp : phase (hashes_file st) U st) by done.
  assert (Hth : length tx_hash = 32%nat).
  { destruct (Hw _ _ Hu) as (Lk & _). rewrite length_app, length_le_bytes in Lk. lia. }
  rewrite (spend_utxo_miss_unfold st tx_hash tx_idx (le_bytes 2 tx_idx));
    [|apply pack_le_in_range; change (256 ^ Z.of_nat 2) with 65536; lia|done].
  cbv zeta.
  destruct (candidates_stored (hashes_file st) U st tx_hash (le_bytes 2 tx_idx) v Hp Hth
              (length_le_bytes _ _) Hu) as [Hall Hin].
  rewrite (spend_scan_finds (hashes_file st) U st tx_hash (le_bytes 2 tx_idx) _ _ v
             Hp Hth Hu Hall Hin).
  - now rewrite <- (assoc_L (++)).
  - match goal with |- (1 < length ?l)%nat \/ _ => destruct l as [|c [|c' l']] eqn:El end.
    + now apply elem_of_nil in Hin.
    + right. apply list_elem_of_singleton in Hin as <-. done.
    + left. cbn. lia.
Qed.

End SpendMore.

(** A checker for [entries_wf] on a given set. *)
Definition entry_wfb (file : bytes) (kv : bytes * bytes) : bool :=
  bool_decide (length kv.1 = 34%nat) && bool_decide (length kv.2 = 23%nat) &&
  bool_decide (hash_at file (value_tx_num kv.2) = Some (take 32 kv.1)).

Lemma entries_wfb_spec (file : bytes) (U : gmap bytes bytes) :
  forallb (entry_wfb file) (map_to_list U) = true -> entries_wf file U.
Proof.
  intros H k v Hk. apply elem_of_map_to_list, list_elem_of_In in Hk.
  rewrite forallb_forall in H. specialize (H _ Hk). unfold entry_wfb in H.
  cbn [fst snd] in H. apply andb_true_iff in H as [H H3].
  apply andb_true_iff in H as [H1 H2].
  apply bool_decide_eq_true in H1, H2, H3. done.
Qed.

(** The store written from an empty one by the records of a set holds
    exactly these records. *)
Lemma represents_records (file : bytes) (U : gmap bytes bytes) :
  entries_wf file U ->
  represents U (commit ∅ (flat_map utxo_puts (map_to_list U))).
Proof.
  intros Hw key val Hkey. split.
  - intros Hdb.
    destruct (decide (key ∈ map op_key (flat_map utxo_puts (map_to_list U)))) as [Hin|Hin].
    + apply list_elem_of_fmap in Hin as (o & -> & Hin).
      pose proof Hin as Hin'.
      apply elem_of_utxo_puts in Hin as (k & v & key & val' & Hu & Hr & ->).
      exists k, v. split; [done|]. cbn [op_key] in *.
      rewrite (commit_puts _ _ key val') in Hdb.
      * now injection Hdb as <-.
      * done.
      * intros o Ho Hk. apply elem_of_utxo_puts in Ho as (k2 & v2 & key2 & val2 & Hu2 & Hr2 & ->).
        cbn [op_key] in Hk. subst key2.
        assert (k2 = k) as -> by (eapply record_key_inj; eauto).
        assert (v2 = v) as -> by congruence.
        destruct (Hw _ _ Hu) as (Lk & Lv & _).
        now rewrite (record_val k v key val2 val' Lk Lv Hr2 Hr).
    + rewrite commit_untouched in Hdb by done. now rewrite lookup_empty in Hdb.
  - intros (k & v & Hu & Hr). apply commit_puts.
    + apply elem_of_utxo_puts. eauto 10.
    + intros o Ho Hk. apply elem_of_utxo_puts in Ho as (k2 & v2 & key2 & val2 & Hu2 & Hr2 & ->).
      cbn [op_key] in Hk. subst key2.
      assert (k2 = k) as -> by (eapply record_key_inj; eauto).
      assert (v2 = v) as -> by congruence.
      destruct (Hw _ _ Hu) as (Lk & Lv & _).
      now rewrite (record_val k v key val2 val Lk Lv Hr2 Hr).
Qed.

Lemma represents_empty : represents ∅ ∅.
Proof.
  intros key val _. rewrite lookup_empty. split; [discriminate|].
  intros (k & v & H & _). now rewrite lookup_empty in H.
Qed.

(** Writing the two records of one more output. *)
Lemma represents_insert (file : bytes) (U db : gmap bytes bytes) (k v : bytes) :
  represents U db -> entries_wf file (<[k := v]> U) -> U !! k = None ->
  represents (<[k := v]> U)
    (<[hkey_of k v := slice_to v (-12)]> (<[ukey_of k v := slice_from v (-8)]> db)).
Proof.
  intros HR Hw Hk key val Hkey.
  assert (Hkv : entry_wf file k v) by (apply Hw; now rewrite lookup_insert_eq).
  destruct Hkv as (Lk & Lv & Hh).
  assert (Hown : forall k' v' val', <[k := v]> U !! k' = Some v' ->
            record_of k' v' key val' ->
            key = hkey_of k v \/ key = ukey_of k v -> k' = k /\ v' = v).
  { intros k' v' val' Hu' Hr' Hkk.
    destruct (key_record k v key Hkk) as [val0 Hr0].
    assert (k' = k) as ->.
    { eapply (record_key_inj file k' v' k v); eauto. apply Hw. now rewrite lookup_insert_eq. }
    rewrite lookup_insert_eq in Hu'. now injection Hu' as <-. }
  destruct (decide (key = hkey_of k v)) as [E|E];
    [|destruct (decide (key = ukey_of k v)) as [E'|E']].
  - rewrite E, lookup_insert_eq. rewrite E in Hown. split.
    + intros [= <-]. exists k, v. split; [now rewrite lookup_insert_eq|now left].
    + intros (k' & v' & Hu' & Hr'). destruct (Hown k' v' val Hu' Hr') as [-> ->]; [now left|].
      f_equal. apply (record_val k v (hkey_of k v)); [done|done|now left|done].
  - rewrite lookup_insert_ne by congruence. rewrite E', lookup_insert_eq. rewrite E' in Hown.
    split.
    + intros [= <-]. exists k, v. split; [now rewrite lookup_insert_eq|now right].
    + intros (k' & v' & Hu' & Hr'). destruct (Hown k' v' val Hu' Hr') as [-> ->]; [now right|].
      f_equal. apply (record_val k v (ukey_of k v)); [done|done|now right|done].
  - rewrite !lookup_insert_ne by congruence. rewrite (HR key val Hkey). split.
    + intros (k' & v' & Hu' & Hr'). exists k', v'. split; [|done].
      rewrite lookup_insert_ne; [done|]. intros <-. congruence.
    + intros (k' & v' & Hu' & Hr'). exists k', v'. split; [|done].
      destruct (decide (k = k')) as [<-|Hne]; [|now rewrite lookup_insert_ne in Hu'].
      rewrite lookup_insert_eq in Hu'. injection Hu' as <-.
      apply record_key in Hr'. tauto.
Qed.

(** * Further properties of the flush coordinator *)

Section FlushMore.
Context `{HI : HistoryIndex} `{CN : Coin}.

Lemma assert_flushed_Raise (st : BlockProcessor) :
  ~ flushed st -> assert_flushed st = Raise AssertionError st.
Proof.
  intros Hnf. unfold assert_flushed, bind, get, py_assert, ret, raise.
  repeat case_bool_decide; destruct (hist_flushed (history st)) eqn:Eh; try reflexivity.
  exfalso. apply Hnf. unfold flushed. rewrite Eh. tauto.
Qed.

(** What [flush] needs to go through: with nothing to flush,
    [assert_flushed]; else the two assertions of [fs_flush]. *)
Definition flush_ready (st : BlockProcessor) : Prop :=
  if decide (height st = db_height st) then flushed st
  else fs_height st + Z.of_nat (length (headers st)) = height st /\
       last (tx_counts st) = Some (tx_count st).

Lemma flush_work_runs b (st : BlockProcessor) :
  height st <> db_height st ->
  fs_height st + Z.of_nat (length (headers st)) = height st ->
  last (tx_counts st) = Some (tx_count st) ->
  exists st', flush b st = Ok tt st'.
Proof.
  intros Hne Hfs Hlast. unfold flush, bind at 1, get. rewrite decide_False by done.
  destruct st. simpl_state_in Hfs. simpl_state_in Hlast.
  unfold fs_flush, fs_update, flush_utxos, flush_state, time_time, write_utxo_state,
    bind, get, gets, modify, py_assert, ret, raise.
  simpl_state. rewrite Hlast. rewrite !bool_decide_true by done.
  destruct b; eexists; reflexivity.
Qed.

Lemma flush_work_fails b (st : BlockProcessor) :
  height st <> db_height st ->
  ~ (fs_height st + Z.of_nat (length (headers st)) = height st /\
     last (tx_counts st) = Some (tx_count st)) ->
  flush b st = Raise AssertionError st.
Proof.
  intros Hne Hnot. unfold flush, bind at 1, get. rewrite decide_False by done.
  unfold fs_flush, bind at 1 2, get, py_assert.
  case_bool_decide as Hfs; [|reflexivity].
  unfold ret at 1, bind at 1.
  destruct (last (tx_counts st)) as [c|] eqn:Hlast; [|reflexivity].
  case_bool_decide as Hc; [|reflexivity].
  exfalso. apply Hnot. split; [done|congruence].
Qed.

(** X4. [flush] either goes through or fails an assertion before it has
    changed anything.  It goes through exactly when, with nothing new
    above the store's height, everything is flushed, and otherwise when
    the headers held in memory reach from [fs_height] to [height] and the
    last entry of [tx_counts] is [tx_count]; in particular a flush with
    work to do and an empty [tx_counts] always fails. *)
Theorem flush_outcome b (st : BlockProcessor) :
  (flush_ready st -> exists st', flush b st = Ok tt st') /\
  (~ flush_ready st -> flush b st = Raise AssertionError st) /\
  (height st <> db_height st -> tx_counts st = [] ->
   flush b st = Raise AssertionError st).
Proof.
  unfold flush_ready. destruct (decide (height st = db_height st)) as [E|E].
  - split; [|split].
    + intros Hf. exists st. unfold flush, bind at 1, get. rewrite decide_True by done.
      now apply assert_flushed_Ok.
    + intros Hf. unfold flush, bind at 1, get. rewrite decide_True by done.
      now apply assert_flushed_Raise.
    + done.
  - split; [|split].
    + intros [Hfs Hlast]. now apply flush_work_runs.
    + now apply flush_work_fails.
    + intros _ Hempty. apply flush_work_fails; [done|]. rewrite Hempty. now intros [_ [=]].
Qed.

End FlushMore.

(** * Further properties of advancing and backing up *)

Section AdvanceMore.
Context `{HI : HistoryIndex} `{CN : Coin}.

(** What [advance_txs] changes. *)
Lemma advance_txs_Ok_inv txs (st : BlockProcessor) u st' :
  advance_txs txs st = Ok u st' ->
  exists c d t hist,
    st' = advanced st c d t hist (tx_hashes st ++ [concat (map snd txs)])
            (tx_count st + Z.of_nat (length txs))
            (tx_counts st ++ [tx_count st + Z.of_nat (length txs)])
            (undo_infos st) (raw_block_files st).
Proof.
  unfold advance_txs. intros H.
  apply bind_Ok_inv in H as ([] & st1 & H1 & H). injection H1 as <-.
  apply bind_Ok_inv in H as (n0 & st2 & H2 & H). injection H2 as <- <-.
  apply bind_Ok_inv in H as ([[n u'] h] & st3 & H3 & H).
  pose proof (advance_txs_loop_tx_num _ _ _ _ _ _ _ _ _ H3) as Hn.
  apply advance_txs_loop_caches in H3 as (c & d & t & ->).
  revert H. unfold tx_counts_append, bind, modify, ret, raise.
  destruct (_ && _); [|discriminate].
  intros [= _ <-]. subst n.
  exists c, d, t, (hist_add_unflushed h (tx_count st) (history st)).
  destruct st. unfold advanced. simpl_state. reflexivity.
Qed.

(** The heights above [h] at or above [min_height], for [n] blocks. *)
Definition kept_heights (min_height h : Z) (n : nat) : list Z :=
  filter (fun x => min_height <= x) (map (fun i => h + 1 + Z.of_nat i) (seq 0 n)).

(** The raw block archive after the loop. *)
Fixpoint kept_raw_blocks (min_height h : Z) (blocks : list Block) (files : gmap Z bytes)
  : gmap Z bytes :=
  match blocks with
  | [] => files
  | b :: rest =>
      kept_raw_blocks min_height (h + 1) rest
        (if min_height <=? h + 1 then <[h + 1 := raw b]> files else files)
  end.

Lemma kept_heights_cons min_height h n :
  kept_heights min_height h (S n)
  = (if min_height <=? h + 1 then [h + 1] else []) ++ kept_heights min_height (h + 1) n.
Proof.
  unfold kept_heights. cbn [seq map]. rewrite <- seq_shift, map_map, Z.add_0_r.
  rewrite filter_cons.
  assert (Hext : map (fun x : nat => h + 1 + Z.of_nat (S x)) (seq 0 n)
                 = map (fun i : nat => h + 1 + 1 + Z.of_nat i) (seq 0 n)).
  { apply map_ext. intros. lia. }
  rewrite Hext. destruct (Z.leb_spec min_height (h + 1)).
  - now rewrite decide_True by done.
  - now rewrite decide_False by lia.
Qed.

Lemma advance_blocks_loop_Ok_inv min_height blocks :
  forall h (st : BlockProcessor) h' st',
  advance_blocks_loop blocks min_height h st = Ok h' st' ->
  exists c d t hist ui,
    st' = advanced st c d t hist (tx_hashes st ++ block_tx_hashes blocks)
            (tx_count st + total_txs blocks)
            (tx_counts st ++ block_counts (tx_count st) blocks)
            (undo_infos st ++ ui)
            (kept_raw_blocks min_height h blocks (raw_block_files st)) /\
    map snd ui = kept_heights min_height h (length blocks).
Proof.
  induction blocks as [|b rest IH]; intros h st h' st'; cbn [advance_blocks_loop].
  - intros [= _ <-].
    exists (utxo_cache st), (db_deletes st), (touched st), (history st), [].
    split; [|done]. cbn [block_tx_hashes map block_counts kept_raw_blocks].
    unfold total_txs. cbn [block_hashes flat_map length].
    rewrite !app_nil_r, Z.add_0_r. apply advanced_refl.
  - intros H.
    apply bind_Ok_inv in H as (u & st1 & H1 & H).
    apply advance_txs_Ok_inv in H1 as (c & d & t & hist & ->).
    apply bind_Ok_inv in H as ([] & st2 & H2 & H).
    set (tc1 := tx_count st + Z.of_nat (length (transactions b))) in *.
    set (txh1 := tx_hashes st ++ [concat (map snd (transactions b))]) in *.
    assert (Hst2 : exists ui1,
      st2 = advanced st c d t hist txh1 tc1 (tx_counts st ++ [tc1]) (undo_infos st ++ ui1)
              (if min_height <=? h + 1 then <[h + 1 := raw b]> (raw_block_files st)
               else raw_block_files st) /\
      map snd ui1 = if min_height <=? h + 1 then [h + 1] else []).
    { destruct (min_height <=? h + 1).
      - exists [(u, h + 1)]. split; [|done].
        unfold bind, modify, write_raw_block in H2. injection H2 as <-.
        destruct st. unfold advanced. simpl_state. reflexivity.
      - exists []. split; [|done]. injection H2 as <-. now rewrite app_nil_r. }
    destruct Hst2 as (ui1 & -> & Hui1).
    apply IH in H as (c' & d' & t' & hist' & ui2 & -> & Hui2).
    match goal with |- context [advanced (advanced st ?a1 ?a2 ?a3 ?a4 ?a5 ?a6 ?a7 ?a8 ?a9)] =>
      destruct (advanced_proj st a1 a2 a3 a4 a5 a6 a7 a8 a9) as (P1 & P2 & P3 & P4);
      assert (P5 : raw_block_files (advanced st a1 a2 a3 a4 a5 a6 a7 a8 a9) = a9)
        by (destruct st; unfold advanced; simpl_state; reflexivity)
    end.
    rewrite P1, P2, P3, P4, P5, advanced_twice.
    exists c', d', t', hist', (ui1 ++ ui2). split.
    + rewrite total_txs_cons. cbn [block_tx_hashes map block_counts kept_raw_blocks].
      fold tc1. fold (block_tx_hashes rest). subst txh1.
      rewrite <- !(assoc_L (++)). cbn [app].
      replace (tc1 + total_txs rest)
        with (tx_count st + (Z.of_nat (length (transactions b)) + total_txs rest)) by lia.
      reflexivity.
    + cbn [length]. now rewrite map_app, Hui1, Hui2, kept_heights_cons.
Qed.

(** X5. [advance_blocks] on an empty list raises [IndexError] (there is
    no last header to take the tip from) and leaves the processor as it
    was. *)
Theorem advance_blocks_empty (st : BlockProcessor) :
  advance_blocks [] st = Raise IndexError st.
Proof.
  unfold advance_blocks, bind, gets, modify, raise. cbn [advance_blocks_loop map last].
  unfold ret. f_equal. destruct st. simpl_state. now rewrite app_nil_r.
Qed.

(** X6. Undo information and raw blocks are kept for the heights at or
    above [min_height] and for no other: after the loop of
    [advance_blocks] over blocks for the heights above [h], [undo_infos]
    has grown by one entry for each such height, in order, and the raw
    block archive by the raw blocks of these heights; the transaction
    count has grown by the number of transactions and [tx_counts] by
    the running count after each block. *)
Theorem advance_blocks_loop_keeps_undo min_height blocks h (st : BlockProcessor) h' st' :
  advance_blocks_loop blocks min_height h st = Ok h' st' ->
  h' = h + Z.of_nat (length blocks) /\
  (exists ui, undo_infos st' = undo_infos st ++ ui /\
     map snd ui = kept_heights min_height h (length blocks)) /\
  raw_block_files st' = kept_raw_blocks min_height h blocks (raw_block_files st) /\
  tx_count st' = tx_count st + total_txs blocks /\
  tx_counts st' = tx_counts st ++ block_counts (tx_count st) blocks /\
  tx_hashes st' = tx_hashes st ++ block_tx_hashes blocks.
Proof.
  intros H. split; [exact (advance_blocks_loop_height _ _ _ _ _ _ H)|].
  apply advance_blocks_loop_Ok_inv in H as (c & d & t & hist & ui & -> & Hui).
  match goal with |- context [advanced st ?a1 ?a2 ?a3 ?a4 ?a5 ?a6 ?a7 ?a8 ?a9] =>
    destruct (advanced_proj st a1 a2 a3 a4 a5 a6 a7 a8 a9) as (P1 & P2 & P3 & P4);
    assert (P5 : raw_block_files (advanced st a1 a2 a3 a4 a5 a6 a7 a8 a9) = a9)
      by (destruct st; unfold advanced; simpl_state; reflexivity)
  end.
  rewrite P1, P2, P3, P4, P5. split; [eauto|done].
Qed.

End AdvanceMore.

Section BackupMore.
Context `{HI : HistoryIndex} `{CN : Coin}.

Lemma assert_flushed_cases (st : BlockProcessor) :
  (flushed st /\ assert_flushed st = Ok tt st) \/
  (~ flushed st /\ assert_flushed st = Raise AssertionError st).
Proof.
  destruct (assert_flushed st) as [[] s|e s] eqn:Ha.
  - apply assert_flushed_Ok in Ha as [-> Hf]. now left.
  - right. assert (Hnf : ~ flushed st).
    { intros Hf. assert (H : assert_flushed st = Ok tt st) by (now apply assert_flushed_Ok).
      congruence. }
    split; [done|]. rewrite <- Ha. now apply assert_flushed_Raise.
Qed.

(** X7. [backup_blocks] fails an assertion, and changes nothing, when
    the processor is not flushed, when it is given more blocks than the
    height, and when it is given no block at all (the flush at its end
    asserts that the height has gone below the store's). *)
Theorem backup_blocks_asserts raw_blocks (st : BlockProcessor) :
  ~ flushed st \/ height st < Z.of_nat (length raw_blocks) \/ raw_blocks = [] ->
  backup_blocks raw_blocks st = Raise AssertionError st.
Proof.
  intros Hcase. unfold backup_blocks, bind at 1.
  destruct (assert_flushed_cases st) as [[Hf ->]|[Hnf ->]]; [|reflexivity].
  unfold bind at 1, gets at 1, bind at 1, py_assert.
  destruct (Z.leb_spec (Z.of_nat (length raw_blocks)) (height st)) as [Hle|Hlt];
    [|reflexivity].
  destruct Hcase as [Hnf|[Hlt| ->]]; [done|lia|].
  unfold ret at 1. cbn [for_each]. unfold bind at 1, ret at 1.
  unfold backup_flush, bind at 1, get, bind at 1, py_assert.
  destruct Hf as (_ & (E1 & E2) & _).
  rewrite bool_decide_false by lia. reflexivity.
Qed.

(** X8. A block that is the tip but whose height has no undo
    information stored is not backed up: [backup_blocks]'s loop raises
    the fatal [ChainError]; the tip has then already been moved to the
    block's predecessor while the height is still the block's. *)
Theorem backup_block_no_undo raw_block (st : BlockProcessor) :
  header_hash (header (coin_block raw_block (height st))) = tip st ->
  read_undo_info st (height st) = None ->
  backup_block raw_block st
  = Raise (ChainError NoUndoInfo)
      (set_tip (header_prevhash (header (coin_block raw_block (height st)))) st).
Proof.
  intros Htip Hundo. unfold backup_block, bind at 1, get.
  rewrite decide_False by (intros H; now apply H).
  unfold bind at 1, modify at 1, bind at 1, backup_txs, bind at 1, gets at 1.
  assert (E : forall t, read_undo_info (set_tip t st) (height (set_tip t st))
                        = read_undo_info st (height st)) by (intros; now destruct st).
  now rewrite E, Hundo.
Qed.

(** The transactions of the blocks [backup_blocks] walks, from height
    [h] down. *)
Fixpoint backup_tx_total (h : Z) (raw_blocks : list bytes) : Z :=
  match raw_blocks with
  | [] => 0
  | raw_block :: rest =>
      Z.of_nat (length (transactions (coin_block raw_block h)))
      + backup_tx_total (h - 1) rest
  end.

Lemma backup_txs_Ok_inv txs (st st' : BlockProcessor) :
  backup_txs txs st = Ok tt st' ->
  exists c d t,
    st' = set_tx_count (tx_count st - Z.of_nat (length txs))
            (set_touched t (set_db_deletes d (set_utxo_cache c st))).
Proof.
  unfold backup_txs. intros H.
  apply bind_Ok_inv in H as (u & st0 & H0 & H). injection H0 as _ <-.
  destruct u as [undo_info|]; [|discriminate].
  apply bind_Ok_inv in H as (n & st1 & H1 & H).
  apply backup_txs_loop_caches in H1 as (c & d & t & ->).
  apply bind_Ok_inv in H as ([] & st2 & H2 & H).
  unfold py_assert in H2. destruct (bool_decide (n = 0)); [|discriminate].
  injection H2 as <-. injection H as <-.
  exists c, d, t. destruct st. simpl_state. reflexivity.
Qed.

Lemma backup_block_counts raw_block (st st' : BlockProcessor) :
  backup_block raw_block st = Ok tt st' ->
  tx_count st' = tx_count st
                 - Z.of_nat (length (transactions (coin_block raw_block (height st)))) /\
  tx_counts st <> [] /\ tx_counts st' = removelast (tx_counts st) /\
  height st' = height st - 1.
Proof.
  intros H. pose proof (backup_block_Ok_inv _ _ _ H) as (_ & _ & Hh).
  split; [|split; [|split; [|exact Hh]]]; clear Hh; revert H;
    unfold backup_block; unfold bind at 1, get;
    (destruct (decide _) as [Hne|He]; [discriminate|]); intros H;
    apply bind_Ok_inv in H as ([] & st1 & H1 & H); injection H1 as <-;
    apply bind_Ok_inv in H as ([] & st2 & H2 & H);
    apply backup_txs_Ok_inv in H2 as (c & d & t & Hst2);
    apply bind_Ok_inv in H as ([] & st3 & H3 & H); injection H3 as <-;
    unfold tx_counts_pop, bind, gets, modify in H;
    (destruct (tx_counts _) as [|c0 cs] eqn:Ec; [discriminate|]); injection H as <-;
    revert Ec; subst st2; destruct st; simpl_state; intros Ec.
  - reflexivity.
  - now rewrite Ec.
  - now rewrite Ec.
Qed.

Lemma removelast_take {A} (l : list A) (n : nat) :
  removelast (take (length l - n) l) = take (length l - S n) l.
Proof.
  rewrite !removelast_firstn_len, length_take, take_take. f_equal. lia.
Qed.

Lemma backup_loop_counts raw_blocks : forall (st st' : BlockProcessor),
  for_each raw_blocks backup_block st = Ok tt st' ->
  tx_count st' = tx_count st - backup_tx_total (height st) raw_blocks /\
  (length raw_blocks <= length (tx_counts st))%nat /\
  tx_counts st' = take (length (tx_counts st) - length raw_blocks) (tx_counts st).
Proof.
  induction raw_blocks as [|raw_block rest IH]; intros st st'; cbn [for_each].
  - intros [= <-]. cbn [backup_tx_total length]. rewrite Nat.sub_0_r, firstn_all.
    repeat split; lia.
  - intros H. apply bind_Ok_inv in H as ([] & st1 & H1 & H).
    apply backup_block_counts in H1 as (Hc & Hne & Hcs & Hh).
    apply IH in H as (Hc' & Hlen & Hcs').
    rewrite Hh in Hc'. rewrite Hcs in Hlen, Hcs'.
    assert (Hl : length (removelast (tx_counts st)) = (length (tx_counts st) - 1)%nat).
    { rewrite removelast_firstn_len, length_take. lia. }
    assert (Hpos : (0 < length (tx_counts st))%nat).
    { destruct (tx_counts st); [done|cbn; lia]. }
    rewrite Hl in Hlen, Hcs'. cbn [backup_tx_total length].
    split; [lia|]. split; [lia|].
    rewrite Hcs', removelast_firstn_len, take_take. f_equal. lia.
Qed.

(** X9. A [backup_blocks] that returns has taken the transactions of
    the blocks it was given, parsed at the heights it walked down,
    off [tx_count], and one entry per block off the end of [tx_counts];
    it leaves the UTXO cache, the pending deletes and the undo
    information empty, and the store's copy of the chain state equal to
    the one in memory. *)
Theorem backup_blocks_counts raw_blocks (st st' : BlockProcessor) :
  backup_blocks raw_blocks st = Ok tt st' ->
  tx_count st' = tx_count st - backup_tx_total (height st) raw_blocks /\
  (length raw_blocks <= length (tx_counts st))%nat /\
  tx_counts st' = take (length (tx_counts st) - length raw_blocks) (tx_counts st) /\
  utxo_cache st' = ∅ /\ db_deletes st' = [] /\ undo_infos st' = [] /\
  db_height st' = height st' /\ db_tx_count st' = tx_count st' /\ db_tip st' = tip st'.
Proof.
  unfold backup_blocks. intros H.
  apply bind_Ok_inv in H as ([] & st0 & H0 & H).
  apply assert_flushed_Ok in H0 as [-> _].
  apply bind_Ok_inv in H as (h & st0 & H0 & H). injection H0 as _ <-.
  apply bind_Ok_inv in H as ([] & st0 & H0 & H).
  unfold py_assert in H0. destruct (_ <=? _); [|discriminate]. injection H0 as <-.
  apply bind_Ok_inv in H as ([] & st1 & H1 & H).
  apply backup_loop_counts in H1 as (Hc & Hlen & Hcs).
  assert (Htcs : tx_counts st' = tx_counts st1).
  { revert H. destruct st1.
    unfold backup_flush, flush_utxos, flush_state, time_time,
      bind, get, gets, modify, py_assert, ret, raise.
    simpl_state.
    case_bool_decide; [|discriminate].
    destruct (hist_flushed _); [|discriminate].
    case_bool_decide; [|discriminate].
    case_bool_decide; [|discriminate].
    intros Hrun; injection Hrun as <-; simpl_state. reflexivity. }
  apply backup_flush_Ok_inv in H
    as (_ & _ & _ & _ & Hh' & Ht' & Htip & _ & _ & Hdh & Hdt & Hdtip & Hu & Hcache & Hd).
  rewrite Htcs, Ht', Hdh, Hdt, Hdtip, Hh', Htip. done.
Qed.

End BackupMore.

(** X10. [diff_pos] of [reorg_hashes]: the result is the first index at
    which the two lists differ, the lists agreeing before it; when they
    agree wherever both have an entry it is the length of the enclosing
    scope's [hashes], whatever the lengths of the lists compared. *)
Theorem diff_pos_first_difference (hashes hashes1 hashes2 : list bytes) :
  (exists i x y,
     diff_pos hashes hashes1 hashes2 = Z.of_nat i /\
     take i hashes1 = take i hashes2 /\
     hashes1 !! i = Some x /\ hashes2 !! i = Some y /\ x <> y) \/
  (diff_pos hashes hashes1 hashes2 = Z.of_nat (length hashes) /\
   forall i x y, hashes1 !! i = Some x -> hashes2 !! i = Some y -> x = y).
Proof.
  unfold diff_pos.
  assert (Hgen : forall (l1 l2 : list bytes) n,
    (exists i x y, diff_pos_zip n l1 l2 = Some (n + Z.of_nat i) /\
       take i l1 = take i l2 /\ l1 !! i = Some x /\ l2 !! i = Some y /\ x <> y) \/
    (diff_pos_zip n l1 l2 = None /\
     forall i x y, l1 !! i = Some x -> l2 !! i = Some y -> x = y)).
  { induction l1 as [|a l1 IH]; intros [|b l2] n; cbn [diff_pos_zip];
      try (right; split; [reflexivity|intros [|i] x y; discriminate]).
    destruct (decide (a <> b)) as [Hne|He].
    - left. exists 0%nat, a, b. rewrite Z.add_0_r. done.
    - apply dec_stable in He as ->.
      destruct (IH l2 (n + 1)) as [(i & x & y & E & Ht & H1 & H2 & Hxy)|[E Hall]].
      + left. exists (S i), x, y. rewrite E. cbn. rewrite Ht.
        repeat split; try done. f_equal. lia.
      + right. split; [done|]. intros [|i] x y; cbn.
        * congruence.
        * apply Hall. }
  destruct (Hgen hashes1 hashes2 0) as [(i & x & y & E & H)|[E Hall]].
  - left. exists i, x, y. now rewrite E.
  - right. now rewrite E.
Qed.

(** * Properties of the prefetcher *)

Definition pf_state (r : pf_result) : Prefetcher :=
  match r with PfOk _ p => p | PfRaise _ p => p end.

(** The bytes of raw blocks waiting in a queue. *)
Fixpoint queue_bytes (q : list work) : Z :=
  match q with
  | [] => 0
  | RAW_BLOCKS blocks _ :: rest => blocks_size blocks + queue_bytes rest
  | _ :: rest => queue_bytes rest
  end.

(** The number of raw blocks in a list of work items. *)
Fixpoint batch_blocks (items : list work) : Z :=
  match items with
  | [] => 0
  | RAW_BLOCKS blocks _ :: rest => Z.of_nat (length blocks) + batch_blocks rest
  | _ :: rest => batch_blocks rest
  end.

(** Batches of 1 to 500 raw blocks for the heights that follow
    [fetched], each batch starting where the one before it ends. *)
Fixpoint batches_from (fetched : Z) (items : list work) : Prop :=
  match items with
  | [] => True
  | RAW_BLOCKS blocks first :: rest =>
      first = fetched + 1 /\ (1 <= length blocks <= 500)%nat /\
      batches_from (fetched + Z.of_nat (length blocks)) rest
  | _ => False
  end.

(** The notice queued when the prefetcher finds it has caught up for
    the first time. *)
Definition caught_up_notice (p : Prefetcher) (r : pf_result) : list work :=
  match r with
  | PfOk false _ => if caught_up p then [] else [PREFETCHER_CAUGHT_UP]
  | _ => []
  end.

Lemma queue_bytes_app q1 q2 : queue_bytes (q1 ++ q2) = queue_bytes q1 + queue_bytes q2.
Proof.
  induction q1 as [|[blocks first| |count] q1 IH]; cbn [app queue_bytes]; lia.
Qed.

Section PrefetchProps.
Variable genesis_block : bytes -> bytes.
Variable d : Daemon.
Variable daemon_height : Z.

Lemma fetch_count_bounds fetched p :
  0 <= fetch_count daemon_height fetched p <= 500 /\
  (fetch_count daemon_height fetched p <> 0 ->
   fetch_count daemon_height fetched p <= daemon_height - fetched).
Proof. unfold fetch_count. lia. Qed.

Lemma nothing_queued (p p' : Prefetcher) (notice : list work) (E : Prop) :
  queue p' = queue p ++ notice -> cache_size p' = cache_size p ->
  min_cache_size p' = min_cache_size p -> fetched_height p' = fetched_height p -> E ->
  exists items,
    queue p' = queue p ++ items ++ notice /\
    cache_size p' = cache_size p + queue_bytes items /\
    min_cache_size p' = min_cache_size p /\
    match fetched_height p with
    | None => items = [] /\ fetched_height p' = None
    | Some fetched =>
        batches_from fetched items /\
        fetched_height p' = Some (fetched + batch_blocks items) /\
        (fetched <= daemon_height -> fetched + batch_blocks items <= daemon_height)
    end /\ E.
Proof.
  intros Hq Hc Hm Hf HE. exists []. cbn [app queue_bytes batch_blocks batches_from].
  rewrite Z.add_0_r. repeat (split; [done|]). split; [|done].
  destruct (fetched_height p) as [fetched|]; [|done].
  rewrite Z.add_0_r. repeat split; try done. 
Qed.

Lemma prefetch_loop_spec fuel : forall p r,
  prefetch_loop genesis_block fuel d daemon_height p = Some r ->
  exists items,
    queue (pf_state r) = queue p ++ items ++ caught_up_notice p r /\
    cache_size (pf_state r) = cache_size p + queue_bytes items /\
    min_cache_size (pf_state r) = min_cache_size p /\
    match fetched_height p with
    | None => items = [] /\ fetched_height (pf_state r) = None
    | Some fetched =>
        batches_from fetched items /\
        fetched_height (pf_state r) = Some (fetched + batch_blocks items) /\
        (fetched <= daemon_height -> fetched + batch_blocks items <= daemon_height)
    end /\
    match r with
    | PfOk true p' =>
        min_cache_size p' <= cache_size p' /\ refill_event p' = false /\
        caught_up p' = caught_up p
    | PfOk false p' =>
        cache_size p' < min_cache_size p' /\ refill_event p' = refill_event p /\
        caught_up p' = true /\
        exists fetched', fetched_height p' = Some fetched' /\
          fetch_count daemon_height fetched' p' = 0
    | PfRaise e p' =>
        cache_size p' < min_cache_size p' /\ refill_event p' = refill_event p /\
        caught_up p' = caught_up p
    end.
Proof.
  induction fuel as [|fuel IH]; intros p r Hrun; cbn [prefetch_loop] in Hrun;
    destruct (Z.ltb_spec (cache_size p) (min_cache_size p)) as [Hlt|Hge];
    try discriminate.
  1,3: injection Hrun as <-; cbn [pf_state caught_up_notice]; apply nothing_queued;
       cbn; rewrite ?app_nil_r; repeat split; try done; lia.
  destruct (Z.eqb_spec (ave_size p) 0) as [Hz|Hnz].
  { injection Hrun as <-. cbn [pf_state caught_up_notice]. apply nothing_queued;
      rewrite ?app_nil_r; repeat split; try done; lia. }
  destruct (fetched_height p) as [fetched|] eqn:Hf in Hrun.
  2:{ injection Hrun as <-. cbn [pf_state caught_up_notice]. apply nothing_queued;
      rewrite ?app_nil_r; repeat split; try done; lia. }
  pose proof (fetch_count_bounds fetched p) as [Hc Hdh].
  destruct (Z.eqb_spec (fetch_count daemon_height fetched p) 0) as [Hc0|Hc0].
  { destruct (caught_up p) eqn:Hcu in Hrun; injection Hrun as <-;
      cbn [pf_state caught_up_notice]; rewrite ?Hcu; apply nothing_queued; cbn;
      rewrite ?app_nil_r; repeat split; try done; try lia; exists fetched; split; done. }
  set (count := fetch_count daemon_height fetched p) in *.
  set (hex_hashes := block_hex_hashes d (fetched + 1) count) in *.
  destruct (caught_up p && bool_decide (hex_hashes = [])) eqn:Hidx.
  { injection Hrun as <-. cbn [pf_state caught_up_notice]. apply nothing_queued;
      rewrite ?app_nil_r; repeat split; try done; lia. }
  destruct (Z.eqb_spec count (Z.of_nat (length (raw_blocks d hex_hashes)))) as [Hlen|Hlen];
    cbn [negb] in Hrun.
  2:{ injection Hrun as <-. cbn [pf_state caught_up_notice]. apply nothing_queued;
      rewrite ?app_nil_r; repeat split; try done; lia. }
  destruct ((fetched + 1 =? 0) && bool_decide (hex_hashes = [])) eqn:Hidx0.
  { injection Hrun as <-. cbn [pf_state caught_up_notice]. apply nothing_queued;
      rewrite ?app_nil_r; repeat split; try done; lia. }
  set (blocks := if fetched + 1 =? 0
                 then match raw_blocks d hex_hashes with
                      | b :: rest => genesis_block b :: rest
                      | [] => []
                      end
                 else raw_blocks d hex_hashes) in *.
  assert (Hblen : Z.of_nat (length blocks) = count).
  { subst blocks. destruct (fetched + 1 =? 0); [|lia].
    destruct (raw_blocks d hex_hashes); cbn [length] in *; lia. }
  apply IH in Hrun as (items & Hq & Hcs & Hmin & Hfh & Hres).
  cbn [queue cache_size min_cache_size fetched_height caught_up refill_event] in *.
  exists (RAW_BLOCKS blocks (fetched + 1) :: items).
  destruct Hfh as (Hb & Hfh & Hle).
  assert (Hnotice : caught_up_notice p r
    = caught_up_notice
        {| caught_up := caught_up p; fetched_height := Some (fetched + count);
           refill_event := refill_event p;
           cache_size := cache_size p + blocks_size blocks;
           min_cache_size := min_cache_size p;
           ave_size := if 10 <=? count then blocks_size blocks / count
                       else (blocks_size blocks + (10 - count) * ave_size p) / 10;
           queue := queue p ++ [RAW_BLOCKS blocks (fetched + 1)] |} r)
    by (now destruct r as [[] ?|? ?]).
  split; [rewrite Hq, Hnotice, <- !(assoc_L (++)); reflexivity|].
  split; [cbn [queue_bytes]; lia|]. split; [done|].
  split.
  - rewrite Hf. cbn [batches_from batch_blocks]. rewrite Hblen.
    split; [repeat split; [lia|lia|done]|].
    split; [rewrite Hfh; f_equal; lia|]. intros Hfd. lia.
  - exact Hres.
Qed.

Lemma prefetch_loop_runs fuel : forall p,
  (Z.to_nat (daemon_height - default daemon_height (fetched_height p)) < fuel)%nat ->
  exists r, prefetch_loop genesis_block fuel d daemon_height p = Some r.
Proof.
  induction fuel as [|fuel IH]; intros p Hfuel; [lia|]. cbn [prefetch_loop].
  destruct (cache_size p <? min_cache_size p); [|eauto].
  destruct (ave_size p =? 0); [eauto|].
  destruct (fetched_height p) as [fetched|] eqn:Hf; [|eauto].
  pose proof (fetch_count_bounds fetched p) as [Hc Hdh].
  destruct (Z.eqb_spec (fetch_count daemon_height fetched p) 0) as [Hc0|Hc0].
  { destruct (caught_up p); eauto. }
  destruct (_ && _); [eauto|]. destruct (negb _); [eauto|]. destruct (_ && _); [eauto|].
  apply IH. cbn [fetched_height default from_option id] in *. lia.
Qed.

(** X11. [_prefetch_blocks] ends: a turn of its loop that does not
    leave the loop fetches at least one block and no more than the
    daemon has above [fetched_height]. *)
Theorem prefetch_blocks_ends p :
  exists r, prefetch_blocks genesis_block d daemon_height p = Some r.
Proof. apply prefetch_loop_runs. lia. Qed.

(** X12. What [_prefetch_blocks] puts on the queue, however it ends:
    batches of 1 to 500 raw blocks, the first batch for the height
    after [fetched_height] and each batch for the height after the one
    before it, then the caught-up notice if it returns [False] and had
    not caught up before.  [fetched_height] moves up by the number of
    blocks queued and never past the daemon's height, and [cache_size]
    grows by their size. *)
Theorem prefetch_blocks_batches p fetched r :
  fetched_height p = Some fetched ->
  prefetch_blocks genesis_block d daemon_height p = Some r ->
  exists items,
    queue (pf_state r) = queue p ++ items ++ caught_up_notice p r /\
    batches_from fetched items /\
    fetched_height (pf_state r) = Some (fetched + batch_blocks items) /\
    (fetched <= daemon_height -> fetched + batch_blocks items <= daemon_height) /\
    cache_size (pf_state r) = cache_size p + queue_bytes items.
Proof.
  intros Hf Hrun. apply prefetch_loop_spec in Hrun as (items & Hq & Hcs & _ & Hfh & _).
  rewrite Hf in Hfh. exists items. tauto.
Qed.

(** X13. What the result of [_prefetch_blocks] means.  [True]: the
    cache is full ([cache_size >= min_cache_size]) and [refill_event] is
    cleared.  [False]: the cache is not full but there is nothing to
    fetch (the count computed from [fetched_height] is 0), and
    [caught_up] is set.  An exception leaves [caught_up] and
    [refill_event] as they were. *)
Theorem prefetch_blocks_result p r :
  prefetch_blocks genesis_block d daemon_height p = Some r ->
  match r with
  | PfOk true p' =>
      min_cache_size p' <= cache_size p' /\ refill_event p' = false /\
      caught_up p' = caught_up p
  | PfOk false p' =>
      cache_size p' < min_cache_size p' /\ refill_event p' = refill_event p /\
      caught_up p' = true /\
      exists fetched', fetched_height p' = Some fetched' /\
        fetch_count daemon_height fetched' p' = 0
  | PfRaise e p' =>
      cache_size p' < min_cache_size p' /\ refill_event p' = refill_event p /\
      caught_up p' = caught_up p
  end.
Proof.
  intros Hrun. apply prefetch_loop_spec in Hrun as (items & _ & _ & _ & _ & Hres).
  exact Hres.
Qed.

End PrefetchProps.

(** * Properties of the queue worker *)

Section ServerProps.
Context `{HI : HistoryIndex} `{CN : Coin}.

(** The chain state in memory. *)
Definition chain_same (st st' : BlockProcessor) : Prop :=
  height st' = height st /\ tip st' = tip st /\ tx_count st' = tx_count st.

Lemma flush_chain_same b (st st' : BlockProcessor) :
  flush b st = Ok tt st' -> chain_same st st'.
Proof.
  intros H. apply flush_Ok_inv in H as [(_ & -> & _)|(_ & Hh & Ht & Htip & _)].
  - done.
  - done.
Qed.

Lemma check_cache_size_chain_same (st st' : BlockProcessor) :
  check_cache_size st = Ok tt st' -> chain_same st st'.
Proof.
  rewrite check_cache_size_unfold. destruct (cache_flush_decision st).
  - apply flush_chain_same.
  - now intros [= <-].
Qed.

Lemma last_map_header (blocks : list Block) (t : bytes) lh :
  last (map header blocks) = Some lh -> header_hash lh = block_tip t blocks.
Proof.
  unfold block_tip. rewrite fmap_last. destruct (last blocks); [|discriminate].
  now intros [= <-].
Qed.

(** What a successful [advance_blocks] does to the chain state. *)
Lemma advance_blocks_Ok_chain blocks (st st' : BlockProcessor) :
  advance_blocks blocks st = Ok tt st' ->
  blocks <> [] /\
  height st' = height st + Z.of_nat (length blocks) /\
  tip st' = block_tip (tip st) blocks /\
  tx_count st' = tx_count st + total_txs blocks.
Proof.
  unfold advance_blocks. intros H.
  apply bind_Ok_inv in H as (mh & st0 & H0 & H). injection H0 as <- <-.
  apply bind_Ok_inv in H as (h0 & st0 & H0 & H). injection H0 as <- <-.
  apply bind_Ok_inv in H as (h & st0 & Hloop & H).
  pose proof (advance_blocks_loop_height _ _ _ _ _ _ Hloop) as ->.
  apply advance_blocks_loop_Ok_inv in Hloop as (c & d & t & hist & ui & Hst0 & _).
  apply bind_Ok_inv in H as ([] & st1 & H1 & H). injection H1 as <-.
  apply bind_Ok_inv in H as ([] & st2 & H2 & H). injection H2 as <-.
  apply bind_Ok_inv in H as (lh & st3 & H3 & H).
  destruct (last (map header blocks)) as [lh'|] eqn:Hlast; [|discriminate].
  injection H3 as -> <-.
  assert (Hne : blocks <> []) by (intros ->; discriminate).
  split; [done|].
  apply (last_map_header _ (tip st)) in Hlast.
  apply bind_Ok_inv in H as ([] & st4 & H4 & H). injection H4 as <-.
  apply bind_Ok_inv in H as (cu & st5 & H5 & H). injection H5 as _ <-.
  match type of H with (if cu then _ else _) ?s = _ => set (stm := s) in * end.
  assert (Hm : height stm = height st + Z.of_nat (length blocks) /\
               tip stm = header_hash lh /\
               tx_count stm = tx_count st + total_txs blocks).
  { subst stm st0. destruct st. unfold advanced. simpl_state. done. }
  clearbody stm. clear Hst0.
  assert (Hsame : chain_same stm st').
  { destruct cu; [now apply flush_chain_same in H|].
    apply bind_Ok_inv in H as (now & st6 & H6' & H).
    unfold time_time in H6'. injection H6' as _ <-.
    apply bind_Ok_inv in H as (nx & st7 & H7' & H). injection H7' as _ <-.
    destruct (nx <? now).
    - apply bind_Ok_inv in H as ([] & st8 & H8 & H).
      apply check_cache_size_chain_same in H8 as (E1 & E2 & E3).
      apply bind_Ok_inv in H as (now' & st9 & H9 & H).
      unfold time_time in H9. injection H9 as _ <-. injection H as <-.
      revert E1 E2 E3. destruct stm, st8. unfold chain_same. simpl_state. done.
    - injection H as <-. destruct stm. unfold chain_same. simpl_state. done. }
  destruct Hsame as (E1 & E2 & E3), Hm as (M1 & M2 & M3).
  rewrite E1, E2, E3, M1, M2, M3, Hlast. done.
Qed.

(** X14. An [advance_blocks] that returns was given at least one block
    and leaves the height higher by the number of blocks, the tip at
    the hash of the last block's header and [tx_count] higher by the
    number of transactions of the blocks, whether or not it flushed. *)
Theorem advance_blocks_chain blocks (st st' : BlockProcessor) :
  advance_blocks blocks st = Ok tt st' ->
  blocks <> [] /\
  height st' = height st + Z.of_nat (length blocks) /\
  tip st' = block_tip (tip st) blocks /\
  tx_count st' = tx_count st + total_txs blocks.
Proof. apply advance_blocks_Ok_chain. Qed.

(** [hprevs == chain] of [check_and_advance_blocks]: the blocks are
    linked, the first to the tip. *)
Lemma chain_linked (blocks : list Block) : forall t : bytes,
  map header_prevhash (map header blocks)
  = t :: map header_hash (removelast (map header blocks)) <->
  blocks <> [] /\ linked t blocks.
Proof.
  induction blocks as [|b rest IH]; intros t.
  - cbn. split; [discriminate|intros [[] _]; done].
  - destruct rest as [|b' rest'].
    + cbn. split.
      * intros [= E]. done.
      * intros [_ [-> _]]. done.
    + assert (R : removelast (map header (b :: b' :: rest'))
                  = header b :: removelast (map header (b' :: rest'))) by reflexivity.
      rewrite R. clear R. remember (b' :: rest') as l eqn:El.
      cbn [map linked]. split.
      * intros E. injection E as E1 E2. apply IH in E2 as [_ E2]. done.
      * intros [_ [-> Hl]]. f_equal. apply IH. split; [now subst l|done].
Qed.

Variable hash_to_hex_str : bytes -> bytes.

Lemma backup_blocks_Ok_height raw_blocks (st st' : BlockProcessor) :
  backup_blocks raw_blocks st = Ok tt st' ->
  height st' = height st - Z.of_nat (length raw_blocks).
Proof.
  unfold backup_blocks. intros H.
  apply bind_Ok_inv in H as ([] & st0 & H0 & H).
  apply assert_flushed_Ok in H0 as [-> _].
  apply bind_Ok_inv in H as (h & st0 & H0 & H). injection H0 as _ <-.
  apply bind_Ok_inv in H as ([] & st0 & H0 & H).
  unfold py_assert in H0. destruct (_ <=? _); [|discriminate]. injection H0 as <-.
  apply bind_Ok_inv in H as ([] & st1 & H1 & H).
  apply backup_loop_Ok_inv in H1 as [_ Hh].
  apply backup_flush_Ok_inv in H as (_ & _ & _ & _ & Hh' & _).
  now rewrite Hh'.
Qed.

Lemma reorg_backup_loop_height d hash_chunks : forall last (st st' : BlockProcessor),
  reorg_backup_loop d hash_chunks last st = Ok tt st' -> height st' <= height st.
Proof.
  induction hash_chunks as [|hs rest IH]; intros last st st'; cbn [reorg_backup_loop].
  - intros [= <-]. lia.
  - unfold bind at 1, get. intros H.
    apply bind_Ok_inv in H as ([] & st1 & H1 & H).
    apply backup_blocks_Ok_height in H1. apply IH in H. lia.
Qed.

Lemma reorg_chain_Ok_height d count (st st' : BlockProcessor) :
  reorg_chain hash_to_hex_str d count st = Some (Ok tt st') -> height st' <= height st.
Proof.
  unfold reorg_chain. destruct (flush true st) as [[] st1|err st1] eqn:Hf; [|discriminate].
  apply flush_chain_same in Hf as (Hh & _).
  destruct (reorg_hashes _ _ _ _) as [[start hashes]|]; [|discriminate].
  intros [= H]. apply reorg_backup_loop_height in H. lia.
Qed.

(** X15. [check_and_advance_blocks] moves the chain forward only with
    blocks that build on the tip: if it returns with a greater height,
    then [first] was the next height, the blocks parsed at their heights
    are linked, the first to the old tip, the height has grown by their
    number and the tip is the hash of the last; [touched] has been
    emptied, and [notifications.on_block] was called once with the set
    touched and the new height if the processor had caught up, and not
    at all if it had not. *)
Theorem check_and_advance_blocks_links d raw_blocks first (sv sv' : Server) :
  check_and_advance_blocks hash_to_hex_str d raw_blocks first sv = Some (Ok tt sv') ->
  height (bp sv) < height (bp sv') ->
  first = height (bp sv) + 1 /\
  linked (tip (bp sv)) (parse_blocks raw_blocks first) /\
  height (bp sv') = height (bp sv) + Z.of_nat (length raw_blocks) /\
  tip (bp sv') = block_tip (tip (bp sv)) (parse_blocks raw_blocks first) /\
  touched (bp sv') = ∅ /\
  (if caught_up_event (bp sv')
   then exists t, notified sv' = notified sv ++ [(t, height (bp sv'))]
   else notified sv' = notified sv).
Proof.
  unfold check_and_advance_blocks. cbv zeta.
  set (sv0 := set_prefetcher (processing_blocks raw_blocks (prefetcher sv)) sv).
  assert (Hbp : bp sv0 = bp sv) by reflexivity.
  assert (Hno : notified sv0 = notified sv) by reflexivity.
  rewrite !Hbp. clearbody sv0.
  destruct (decide (first <> height (bp sv) + 1)) as [Hne|He].
  { intros [= <-]. rewrite Hbp. lia. }
  apply dec_stable in He.
  set (blocks := parse_blocks raw_blocks first).
  assert (Hlen : length blocks = length raw_blocks).
  { subst blocks. unfold parse_blocks. now rewrite length_imap. }
  destruct (decide (map header_prevhash (map header blocks)
                    = tip (bp sv) :: map header_hash (removelast (map header blocks))))
    as [Hchain|Hchain].
  - apply chain_linked in Hchain as [Hne Hl].
    unfold bind at 1, time_time at 1.
    destruct (advance_blocks blocks _) as [[] st1|err st1] eqn:Hadv; [|discriminate].
    apply advance_blocks_Ok_chain in Hadv as (_ & Hh & Ht & _).
    assert (Hh0 : forall n, height (set_ticks n (bp sv)) = height (bp sv))
      by (intros; now destruct (bp sv)).
    assert (Ht0 : forall n, tip (set_ticks n (bp sv)) = tip (bp sv))
      by (intros; now destruct (bp sv)).
    rewrite Hh0 in Hh. rewrite Ht0 in Ht.
    set (st2 := if first_sync sv0 then st1 else state_of (time_time st1)).
    assert (Hst2 : height st2 = height st1 /\ tip st2 = tip st1).
    { subst st2. destruct (first_sync sv0); [done|]. unfold time_time. cbn [state_of].
      now destruct st1. }
    destruct Hst2 as [Hh2 Ht2].
    intros [= <-] _.
    assert (E : forall (s : Server) (x : BlockProcessor),
              bp (set_bp (set_touched ∅ x) s) = set_touched ∅ x) by reflexivity.
    assert (Hhe : forall x : BlockProcessor, height (set_touched ∅ x) = height x)
      by (intros; now destruct x).
    assert (Hte : forall x : BlockProcessor, tip (set_touched ∅ x) = tip x)
      by (intros; now destruct x).
    assert (Hce : forall x : BlockProcessor,
              caught_up_event (set_touched ∅ x) = caught_up_event x)
      by (intros; now destruct x).
    assert (Hto : forall x : BlockProcessor, touched (set_touched ∅ x) = ∅)
      by (intros; now destruct x).
    rewrite E, Hhe, Hte, Hce, Hto.
    destruct (caught_up_event st2) eqn:Hcu; cbn [bp on_block set_bp notified];
      rewrite ?Hcu, Hh2, Ht2, Hh, Ht, Hlen, Hno; repeat split; try done.
    eexists. reflexivity.
  - destruct (map header_prevhash (map header blocks)) as [|hprev hprevs]; [discriminate|].
    destruct (decide (hprev <> tip (bp sv))).
    + unfold reorg_chain_server. rewrite Hbp.
      destruct (reorg_chain _ _ _ _) as [[[] st1|err st1]|] eqn:Hre; try discriminate.
      apply reorg_chain_Ok_height in Hre. intros [= <-]. cbn [bp set_prefetcher set_bp]. lia.
    + intros [= <-]. cbn [bp set_prefetcher]. rewrite Hbp. lia.
Qed.

(** X16. The edge cases of [check_and_advance_blocks].  A batch that
    does not start at the next height is dropped: the block processor
    is not touched and nothing is notified, the prefetcher only takes
    the size of the batch off [cache_size].  An empty batch for the next
    height raises [IndexError] ([hprevs[0]] of an empty list). *)
Theorem check_and_advance_blocks_edges d raw_blocks first (sv : Server) :
  (first <> height (bp sv) + 1 ->
   check_and_advance_blocks hash_to_hex_str d raw_blocks first sv
   = Some (Ok tt (set_prefetcher (processing_blocks raw_blocks (prefetcher sv)) sv))) /\
  (first = height (bp sv) + 1 ->
   check_and_advance_blocks hash_to_hex_str d [] first sv
   = Some (Raise IndexError (set_prefetcher (processing_blocks [] (prefetcher sv)) sv))).
Proof.
  split; intros Hf; unfold check_and_advance_blocks; cbv zeta; cbn [bp set_prefetcher].
  - now rewrite decide_True.
  - rewrite decide_False by (intros H; now apply H).
    cbn [parse_blocks imap map removelast]. now rewrite decide_False.
Qed.

(** What every outcome of [check_and_advance_blocks] leaves of the
    prefetcher's accounts. *)
Lemma check_and_advance_blocks_accounts d raw_blocks first (sv : Server) r :
  check_and_advance_blocks hash_to_hex_str d raw_blocks first sv = Some r ->
  cache_size (prefetcher (state_of r))
  = cache_size (prefetcher sv) - blocks_size raw_blocks /\
  queue (prefetcher (state_of r)) = queue (prefetcher sv).
Proof.
  unfold check_and_advance_blocks. cbv zeta.
  set (sv0 := set_prefetcher (processing_blocks raw_blocks (prefetcher sv)) sv).
  assert (H0 : cache_size (prefetcher sv0) = cache_size (prefetcher sv) - blocks_size raw_blocks
               /\ queue (prefetcher sv0) = queue (prefetcher sv)) by done.
  clearbody sv0.
  destruct (decide _); [now intros [= <-]|].
  destruct (decide _).
  - destruct (bind _ _ _) as [[] st1|err st1]; [|now intros [= <-]].
    intros [= <-]. cbn [state_of].
    destruct (caught_up_event _); exact H0.
  - destruct (map header_prevhash _) as [|hprev hprevs]; [now intros [= <-]|].
    destruct (decide _).
    + unfold reorg_chain_server.
      destruct (reorg_chain _ _ _ _) as [[[] st1|err st1]|]; try discriminate;
        intros [= <-]; exact H0.
    + intros [= <-]. exact H0.
Qed.

Lemma reorg_chain_server_accounts d count (sv : Server) r :
  reorg_chain_server hash_to_hex_str d count sv = Some r ->
  cache_size (prefetcher (state_of r)) = cache_size (prefetcher sv) /\
  queue (prefetcher (state_of r)) = queue (prefetcher sv).
Proof.
  unfold reorg_chain_server.
  destruct (reorg_chain _ _ _ _) as [[[] st1|err st1]|]; try discriminate;
    intros [= <-]; done.
Qed.

(** X17. [cache_size] is the size of the raw blocks waiting in the
    queue: this is kept by [_prefetch_blocks], by a turn of the queue
    worker and by [force_chain_reorg], however they end. *)
Theorem cache_size_accounts_queue genesis_block d daemon_height :
  (forall p r,
     cache_size p = queue_bytes (queue p) ->
     prefetch_blocks genesis_block d daemon_height p = Some r ->
     cache_size (pf_state r) = queue_bytes (queue (pf_state r))) /\
  (forall (sv : Server) r,
     cache_size (prefetcher sv) = queue_bytes (queue (prefetcher sv)) ->
     process_work hash_to_hex_str d sv = Some r ->
     cache_size (prefetcher (state_of r))
     = queue_bytes (queue (prefetcher (state_of r)))) /\
  (forall (sv : Server) count,
     cache_size (prefetcher sv) = queue_bytes (queue (prefetcher sv)) ->
     cache_size (prefetcher (force_chain_reorg count sv).2)
     = queue_bytes (queue (prefetcher (force_chain_reorg count sv).2))).
Proof.
  split; [|split].
  - intros p r Hinv Hrun.
    apply prefetch_loop_spec in Hrun as (items & Hq & Hcs & _).
    rewrite Hq, Hcs, !queue_bytes_app, Hinv.
    assert (queue_bytes (caught_up_notice p r) = 0); [|lia].
    unfold caught_up_notice. destruct r as [[] ?|? ?]; try done. now destruct (caught_up p).
  - intros sv r Hinv. unfold process_work. cbv zeta.
    destruct (queue (prefetcher sv)) as [|w rest] eqn:Hq;
      [intros [= <-]; cbn [state_of]; now rewrite Hq|].
    destruct w as [raw_blocks first| |count].
    + intros Hrun. apply check_and_advance_blocks_accounts in Hrun as [-> ->].
      cbn [prefetcher set_prefetcher cache_size queue]. cbn [queue_bytes] in Hinv. lia.
    + intros [= <-]. cbn. cbn [queue_bytes] in Hinv. exact Hinv.
    + intros Hrun. apply reorg_chain_server_accounts in Hrun as [-> ->].
      cbn [prefetcher set_prefetcher cache_size queue]. cbn [queue_bytes] in Hinv. lia.
  - intros sv count Hinv. unfold force_chain_reorg.
    destruct (caught_up_event (bp sv)); cbn; [|exact Hinv].
    rewrite queue_bytes_app. cbn. lia.
Qed.

End ServerProps.

(** ** [advance_blocks] while serving: the blocks are flushed *)

Section EffectBlocks.
Context `{CN : Coin}.





End EffectBlocks.

Section ForwardFlush.
Context `{HI : HistoryIndex} `{CN : Coin}.





End ForwardFlush.

(** ** Backing up the blocks just advanced *)



Section BackwardBlocks.
Context `{HI : HistoryIndex} `{CN : Coin}.








Variable file : bytes.
Variable Udb : gmap bytes bytes.



End BackwardBlocks.

(** * The round trip of advancing and backing up *)

Section RoundTrip.
Context `{HI : HistoryIndex} `{CN : Coin}.







End RoundTrip.

(** * Worked examples *)

(** ** [spend_utxo] on colliding hash prefixes *)

(** C3 at work: A and B collide; spending output 0 of B passes over A's
    record (its ordinal maps to [hash_A]) and takes B's. *)
Lemma spend_utxo_cache_miss_witness :
  pack_le 2 0 = Some [x00; x00] /\
  utxo_cache two_colliding !! (hash_B ++ [x00; x00]) = None /\
  spend_utxo hash_B 0 two_colliding =
    Ok (hashX_B ++ le_bytes 4 1 ++ le_bytes 8 70)
       (set_db_deletes
          [h_prefix ++ take 4 hash_B ++ le_bytes 2 0 ++ le_bytes 4 1;
           u_prefix ++ hashX_B ++ le_bytes 2 0 ++ le_bytes 4 1] two_colliding) /\
  (let candidates :=
     db_iterator (h_prefix ++ slice_to hash_B 4 ++ [x00; x00]) (utxo_db two_colliding) in
   exists hdb_key hashX amount,
     (hdb_key, hashX) ∈ candidates /\
     ((1 < length candidates)%nat -> exists tx_num,
         unpack_le 4 (slice_from hdb_key (-4)) = Some tx_num /\
         fs_tx_hash two_colliding tx_num = Some hash_B) /\
     utxo_db two_colliding !! (u_prefix ++ hashX ++ slice_from hdb_key (-6)) = Some amount /\
     set_db_deletes
       [h_prefix ++ take 4 hash_B ++ le_bytes 2 0 ++ le_bytes 4 1;
        u_prefix ++ hashX_B ++ le_bytes 2 0 ++ le_bytes 4 1] two_colliding =
     set_db_deletes
       (db_deletes two_colliding
          ++ [hdb_key; u_prefix ++ hashX ++ slice_from hdb_key (-6)]) two_colliding /\
     hashX_B ++ le_bytes 4 1 ++ le_bytes 8 70 = hashX ++ slice_from hdb_key (-4) ++ amount /\
     (utxo_tables_wf (utxo_db two_colliding) ->
      length (hashX_B ++ le_bytes 4 1 ++ le_bytes 8 70) = 23%nat)).
Proof.
  assert (H1 : pack_le 2 0 = Some [x00; x00]) by reflexivity.
  assert (H2 : utxo_cache two_colliding !! (hash_B ++ [x00; x00]) = None)
    by (vm_compute; reflexivity).
  assert (H3 : spend_utxo hash_B 0 two_colliding =
    Ok (hashX_B ++ le_bytes 4 1 ++ le_bytes 8 70)
       (set_db_deletes
          [h_prefix ++ take 4 hash_B ++ le_bytes 2 0 ++ le_bytes 4 1;
           u_prefix ++ hashX_B ++ le_bytes 2 0 ++ le_bytes 4 1] two_colliding))
    by (vm_compute; reflexivity).
  split; [exact H1|]. split; [exact H2|]. split; [exact H3|].
  exact (spend_utxo_cache_miss two_colliding hash_B 0 [x00; x00] _ _ H1 H2 H3).
Defined.

(** C10 at work: only A's output 0 is stored; asking for output 0 of B,
    which is not stored anywhere, spends A's. *)
Lemma spend_utxo_lone_candidate_witness :
  pack_le 2 0 = Some [x00; x00] /\
  utxo_cache one_stored !! (hash_B ++ [x00; x00]) = None /\
  db_iterator (h_prefix ++ slice_to hash_B 4 ++ [x00; x00]) (utxo_db one_stored)
    = [(h_prefix ++ take 4 hash_A ++ le_bytes 2 0 ++ le_bytes 4 0, hashX_A)] /\
  utxo_db one_stored
    !! udb_key_of (h_prefix ++ take 4 hash_A ++ le_bytes 2 0 ++ le_bytes 4 0) hashX_A
    = Some (le_bytes 8 50) /\
  le_bytes 8 50 <> [] /\
  fs_tx_hash one_stored 0 = Some hash_A /\ hash_A <> hash_B /\
  matching_entry one_stored hash_B 0 = false /\
  spend_utxo hash_B 0 one_stored =
    Ok (hashX_A ++ slice_from (h_prefix ++ take 4 hash_A ++ le_bytes 2 0 ++ le_bytes 4 0) (-4)
          ++ le_bytes 8 50)
       (set_db_deletes
          (db_deletes one_stored ++
           [h_prefix ++ take 4 hash_A ++ le_bytes 2 0 ++ le_bytes 4 0;
            udb_key_of (h_prefix ++ take 4 hash_A ++ le_bytes 2 0 ++ le_bytes 4 0) hashX_A])
          one_stored).
Proof.
  assert (H1 : pack_le 2 0 = Some [x00; x00]) by reflexivity.
  assert (H2 : utxo_cache one_stored !! (hash_B ++ [x00; x00]) = None)
    by (vm_compute; reflexivity).
  assert (H3 : db_iterator (h_prefix ++ slice_to hash_B 4 ++ [x00; x00]) (utxo_db one_stored)
    = [(h_prefix ++ take 4 hash_A ++ le_bytes 2 0 ++ le_bytes 4 0, hashX_A)])
    by (vm_compute; reflexivity).
  assert (H4 : utxo_db one_stored
    !! udb_key_of (h_prefix ++ take 4 hash_A ++ le_bytes 2 0 ++ le_bytes 4 0) hashX_A
    = Some (le_bytes 8 50)) by (vm_compute; reflexivity).
  assert (H5 : le_bytes 8 50 <> []) by discriminate.
  repeat (split; [first [assumption | vm_compute; reflexivity | discriminate]|]).
  exact (spend_utxo_lone_candidate one_stored hash_B 0 _ _ _ _ H1 H2 H3 H4 H5).
Defined.

(** C4 refuted as stated: nothing matches output 1 of B, neither in the
    cache nor in the tables, and yet no [ChainError] is raised: output 1
    of A is returned and marked for deletion. *)
Lemma spend_utxo_no_match_no_error :
  matching_entry lone_collision hash_B 1 = false /\
  spend_utxo hash_B 1 lone_collision =
    Ok (hashX_A ++ le_bytes 4 0 ++ le_bytes 8 70)
       (set_db_deletes
          [h_prefix ++ take 4 hash_A ++ le_bytes 2 1 ++ le_bytes 4 0;
           u_prefix ++ hashX_A ++ le_bytes 2 1 ++ le_bytes 4 0] lone_collision).
Proof. split; vm_compute; reflexivity. Qed.

(** ** Flushing *)

(** C5 at work: block 1 is advanced while syncing, flushed, and flushed
    again. *)
Lemma flush_idempotent_witness :
  flush true syncing_at_1 = Ok tt syncing_at_1_flushed /\
  height syncing_at_1_flushed = db_height syncing_at_1_flushed /\
  flush true syncing_at_1_flushed = Ok tt syncing_at_1_flushed /\
  assert_flushed syncing_at_1_flushed = Ok tt syncing_at_1_flushed.
Proof.
  assert (H : flush true syncing_at_1 = Ok tt syncing_at_1_flushed)
    by (vm_compute; reflexivity).
  split; [exact H|]. exact (flush_idempotent _ _ H).
Defined.




(** C6 refuted as stated: with a budget of 5 MB the UTXO side is
    estimated at 4104205 bytes, more than 80% of the budget, the history
    side at less than 1 MB; [check_cache_size] does not flush. *)
Lemma check_cache_size_no_flush_above_80_percent :
  cache_MB many_deletes = 5 /\
  Z.of_nat (size (utxo_cache many_deletes)) * 205
    + Z.of_nat (length (db_deletes many_deletes)) * 57 = 4104205 /\
  height many_deletes = 1 /\ db_height many_deletes = 0 /\
  cache_flush_decision many_deletes = None /\
  check_cache_size many_deletes = Ok tt many_deletes.
Proof.
  assert (Hd : cache_flush_decision many_deletes = None) by (vm_compute; reflexivity).
  split; [reflexivity|]. split; [vm_compute; reflexivity|].
  split; [vm_compute; reflexivity|]. split; [reflexivity|]. split; [exact Hd|].
  rewrite check_cache_size_unfold, Hd. reflexivity.
Qed.

(** ** A reorganisation of three blocks *)

(** C8, the failing input: a real reorg ([count = None]) at height 10
    with the fork at height 8.  The hashes to undo are those of heights
    10, 9, 8, but [last] is set to the fork height, so the archive is
    read at heights 8, 7, 6; the blocks found there are handed to
    [backup_blocks], which raises [ChainError] on the first.  The
    simulated reorg of the same three blocks reads heights 10, 9, 8 and
    ends at height 7. *)
Lemma reorg_chain_real_reads_wrong_heights :
  reorg_hashes (CN := long_coin) (fun h => h) reorged_daemon None at_10
    = Some (8, [[x08]; [x09]; [x0a]]) /\
  raw_block_heights (reorg_last None 8) [[x0a]; [x09]; [x08]] = [8; 7; 6] /\
  get_raw_blocks reorged_daemon at_10 (reorg_last None 8) [[x0a]; [x09]; [x08]]
    = [[x08]; [x07]; [x06]] /\
  @reorg_chain toy_history long_coin (fun h => h) reorged_daemon None at_10
    = Some (Raise (ChainError BackupNotTip) at_10) /\
  raw_block_heights (reorg_last (Some 3) 8) [[x0a]; [x09]; [x08]] = [10; 9; 8] /\
  option_map (fun r => match r with Ok _ st => Some (height st) | Raise _ _ => None end)
    (@reorg_chain toy_history long_coin (fun h => h) reorged_daemon (Some 3) at_10)
    = Some (Some 7).
Proof. repeat split; vm_compute; reflexivity. Qed.

(** * Worked examples of the further properties *)

(** X1 at work: nothing is stored at genesis, the spend raises and the
    state is the one before. *)
Lemma spend_utxo_raise_keeps_state_witness :
  (forall k, utxo_cache genesis !! k <> Some []) /\
  spend_utxo hash_A 0 genesis = Raise (ChainError UtxoNotFound) genesis /\
  (genesis = genesis /\
   (ChainError UtxoNotFound = ChainError UtxoNotFound \/
    ChainError UtxoNotFound = StructError \/ ChainError UtxoNotFound = AssertionError)).
Proof.
  assert (H1 : forall k, utxo_cache genesis !! k <> Some []).
  { intros k. change (utxo_cache genesis) with (∅ : gmap bytes bytes).
    now rewrite lookup_empty. }
  assert (H2 : spend_utxo hash_A 0 genesis = Raise (ChainError UtxoNotFound) genesis)
    by (vm_compute; reflexivity).
  split; [exact H1|]. split; [exact H2|].
  exact (spend_utxo_raise_keeps_state genesis hash_A 0 _ _ H1 H2).
Defined.

(** X2 at work. *)
Lemma put_then_spend_utxo_witness :
  0 <= 3 < 65536 /\ hashX_A ++ le_bytes 4 0 ++ le_bytes 8 50 <> [] /\
  (do* put_utxo (hash_A ++ le_bytes 2 3) (hashX_A ++ le_bytes 4 0 ++ le_bytes 8 50) in
   spend_utxo hash_A 3) genesis
  = Ok (hashX_A ++ le_bytes 4 0 ++ le_bytes 8 50)
       (set_utxo_cache (delete (hash_A ++ le_bytes 2 3) (utxo_cache genesis)) genesis).
Proof.
  assert (H1 : 0 <= 3 < 65536) by lia.
  assert (H2 : hashX_A ++ le_bytes 4 0 ++ le_bytes 8 50 <> []) by discriminate.
  split; [exact H1|]. split; [exact H2|].
  exact (put_then_spend_utxo genesis hash_A 3 _ H1 H2).
Defined.

(** The outputs stored in [two_colliding]. *)
Definition two_colliding_set : gmap bytes bytes :=
  <[hash_A ++ le_bytes 2 0 := hashX_A ++ le_bytes 4 0 ++ le_bytes 8 50]>
    (<[hash_B ++ le_bytes 2 0 := hashX_B ++ le_bytes 4 1 ++ le_bytes 8 70]> ∅).

Lemma two_colliding_wf : entries_wf (hashes_file two_colliding) two_colliding_set.
Proof. apply entries_wfb_spec. vm_compute. reflexivity. Qed.

Lemma two_colliding_represents : represents two_colliding_set (utxo_db two_colliding).
Proof.
  apply (represents_insert (hashes_file two_colliding));
    [|exact two_colliding_wf|vm_compute; reflexivity].
  apply (represents_insert (hashes_file two_colliding));
    [exact represents_empty| |vm_compute; reflexivity].
  apply entries_wfb_spec. vm_compute. reflexivity.
Qed.

(** X3 at work: A and B share their first four bytes and both have an
    output 0 stored; each spend returns its own value. *)
Lemma spend_utxo_finds_stored_witness :
  represents two_colliding_set (utxo_db two_colliding) /\
  entries_wf (hashes_file two_colliding) two_colliding_set /\
  0 <= 0 < 65536 /\
  utxo_cache two_colliding !! (hash_B ++ le_bytes 2 0) = None /\
  two_colliding_set !! (hash_B ++ le_bytes 2 0)
    = Some (hashX_B ++ le_bytes 4 1 ++ le_bytes 8 70) /\
  spend_utxo hash_B 0 two_colliding
  = Ok (hashX_B ++ le_bytes 4 1 ++ le_bytes 8 70)
       (set_db_deletes
          (db_deletes two_colliding ++
           [hkey_of (hash_B ++ le_bytes 2 0) (hashX_B ++ le_bytes 4 1 ++ le_bytes 8 70);
            ukey_of (hash_B ++ le_bytes 2 0) (hashX_B ++ le_bytes 4 1 ++ le_bytes 8 70)])
          two_colliding).
Proof.
  assert (H3 : 0 <= 0 < 65536) by lia.
  assert (H4 : utxo_cache two_colliding !! (hash_B ++ le_bytes 2 0) = None)
    by (vm_compute; reflexivity).
  assert (H5 : two_colliding_set !! (hash_B ++ le_bytes 2 0)
               = Some (hashX_B ++ le_bytes 4 1 ++ le_bytes 8 70))
    by (vm_compute; reflexivity).
  split; [exact two_colliding_represents|]. split; [exact two_colliding_wf|].
  split; [exact H3|]. split; [exact H4|]. split; [exact H5|].
  exact (spend_utxo_finds_stored two_colliding two_colliding_set hash_B 0 _
           two_colliding_represents two_colliding_wf H3 H4 H5).
Defined.

(** X6 at work: blocks 1 and 2 are advanced with undo information kept
    from height 2 on. *)
Definition loop_from_genesis : @BlockProcessor toy_history :=
  state_of (@advance_blocks_loop toy_history toy_chain_coin [block1; block2] 2 0 genesis).

Lemma advance_blocks_loop_keeps_undo_witness :
  @advance_blocks_loop toy_history toy_chain_coin [block1; block2] 2 0 genesis
    = Ok 2 loop_from_genesis /\
  2 = 0 + Z.of_nat (length [block1; block2]) /\
  (exists ui, undo_infos loop_from_genesis = undo_infos genesis ++ ui /\
     map snd ui = kept_heights 2 0 (length [block1; block2])) /\
  raw_block_files loop_from_genesis
    = kept_raw_blocks 2 0 [block1; block2] (raw_block_files genesis) /\
  tx_count loop_from_genesis
    = tx_count genesis + total_txs [block1; block2] /\
  tx_counts loop_from_genesis
    = tx_counts genesis ++ block_counts (tx_count genesis) [block1; block2] /\
  tx_hashes loop_from_genesis
    = tx_hashes genesis ++ block_tx_hashes [block1; block2].
Proof.
  assert (H : @advance_blocks_loop toy_history toy_chain_coin [block1; block2] 2 0 genesis
              = Ok 2 loop_from_genesis) by (vm_compute; reflexivity).
  split; [exact H|].
  exact (advance_blocks_loop_keeps_undo (CN := toy_chain_coin) 2 [block1; block2] 0 genesis
           2 loop_from_genesis H).
Defined.

(** X7 at work: no block to back up. *)
Lemma backup_blocks_asserts_witness :
  (~ flushed genesis \/ height genesis < Z.of_nat (length (@nil bytes)) \/ @nil bytes = []) /\
  @backup_blocks toy_history toy_chain_coin [] genesis = Raise AssertionError genesis.
Proof.
  assert (H : ~ flushed genesis \/ height genesis < Z.of_nat (length (@nil bytes))
              \/ @nil bytes = []) by (right; right; reflexivity).
  split; [exact H|].
  exact (backup_blocks_asserts (CN := toy_chain_coin) [] genesis H).
Defined.

(** Block 1 advanced and flushed far below the daemon's height: no undo
    information is kept for it. *)
Definition deep_at_1 : @BlockProcessor toy_history :=
  state_of (@advance_blocks toy_history toy_chain_coin [block1]
              (set_daemon_height 5 (set_reorg_limit 2 genesis))).

(** X8 at work. *)
Lemma backup_block_no_undo_witness :
  header_hash (Coin := toy_chain_coin)
    (header (coin_block (Coin := toy_chain_coin) [x01] (height deep_at_1))) = tip deep_at_1 /\
  read_undo_info deep_at_1 (height deep_at_1) = None /\
  @backup_block toy_history toy_chain_coin [x01] deep_at_1
  = Raise (ChainError NoUndoInfo)
      (set_tip (header_prevhash (Coin := toy_chain_coin)
                  (header (coin_block (Coin := toy_chain_coin) [x01] (height deep_at_1))))
         deep_at_1).
Proof.
  assert (H1 : header_hash (Coin := toy_chain_coin)
    (header (coin_block (Coin := toy_chain_coin) [x01] (height deep_at_1))) = tip deep_at_1)
    by (vm_compute; reflexivity).
  assert (H2 : read_undo_info deep_at_1 (height deep_at_1) = None)
    by (vm_compute; reflexivity).
  split; [exact H1|]. split; [exact H2|].
  exact (backup_block_no_undo (CN := toy_chain_coin) [x01] deep_at_1 H1 H2).
Defined.

(** Blocks 1 and 2 advanced and flushed, then block 2 backed up. *)
Definition at_2 : @BlockProcessor toy_history :=
  state_of (@advance_blocks toy_history toy_chain_coin [block1; block2] genesis).
Definition back_at_1 : @BlockProcessor toy_history :=
  state_of (@backup_blocks toy_history toy_chain_coin [[x02]] at_2).

(** X9 at work. *)
Lemma backup_blocks_counts_witness :
  @backup_blocks toy_history toy_chain_coin [[x02]] at_2 = Ok tt back_at_1 /\
  tx_count back_at_1
    = tx_count at_2 - backup_tx_total (CN := toy_chain_coin) (height at_2) [[x02]] /\
  (length [[x02]] <= length (tx_counts at_2))%nat /\
  tx_counts back_at_1
    = take (length (tx_counts at_2) - length [[x02]]) (tx_counts at_2) /\
  utxo_cache back_at_1 = ∅ /\ db_deletes back_at_1 = [] /\ undo_infos back_at_1 = [] /\
  db_height back_at_1 = height back_at_1 /\ db_tx_count back_at_1 = tx_count back_at_1 /\
  db_tip back_at_1 = tip back_at_1.
Proof.
  assert (H : @backup_blocks toy_history toy_chain_coin [[x02]] at_2 = Ok tt back_at_1)
    by (vm_compute; reflexivity).
  split; [exact H|].
  exact (backup_blocks_counts (CN := toy_chain_coin) [[x02]] at_2 back_at_1 H).
Defined.

(** ** The prefetcher *)

(** A prefetcher at height 0 with room for 4 bytes of blocks of 1 byte
    on average, and the daemon at height 10 serving blocks of 1 byte. *)
Definition prefetcher_at_0 : Prefetcher :=
  {| caught_up := false; fetched_height := Some 0; refill_event := true;
     cache_size := 0; min_cache_size := 4; ave_size := 1; queue := [] |}.

Definition prefetcher_at_4 : Prefetcher :=
  {| caught_up := false; fetched_height := Some 4; refill_event := false;
     cache_size := 4; min_cache_size := 4; ave_size := 1;
     queue := [RAW_BLOCKS [[x01]; [x02]; [x03]; [x04]] 1] |}.

(** X12 at work: one batch of 4 blocks fills the cache. *)
Lemma prefetch_blocks_batches_witness :
  fetched_height prefetcher_at_0 = Some 0 /\
  prefetch_blocks (fun b => b) reorged_daemon 10 prefetcher_at_0
    = Some (PfOk true prefetcher_at_4) /\
  exists items,
    queue (pf_state (PfOk true prefetcher_at_4))
      = queue prefetcher_at_0 ++ items
        ++ caught_up_notice prefetcher_at_0 (PfOk true prefetcher_at_4) /\
    batches_from 0 items /\
    fetched_height (pf_state (PfOk true prefetcher_at_4)) = Some (0 + batch_blocks items) /\
    (0 <= 10 -> 0 + batch_blocks items <= 10) /\
    cache_size (pf_state (PfOk true prefetcher_at_4))
      = cache_size prefetcher_at_0 + queue_bytes items.
Proof.
  assert (H1 : fetched_height prefetcher_at_0 = Some 0) by reflexivity.
  assert (H2 : prefetch_blocks (fun b => b) reorged_daemon 10 prefetcher_at_0
               = Some (PfOk true prefetcher_at_4)) by (vm_compute; reflexivity).
  split; [exact H1|]. split; [exact H2|].
  exact (prefetch_blocks_batches (fun b => b) reorged_daemon 10 prefetcher_at_0 0 _ H1 H2).
Defined.

(** A prefetcher that has fetched all the daemon has. *)
Definition prefetcher_at_10 : Prefetcher :=
  {| caught_up := false; fetched_height := Some 10; refill_event := true;
     cache_size := 0; min_cache_size := 4; ave_size := 1; queue := [] |}.

Definition prefetcher_caught_up : Prefetcher :=
  {| caught_up := true; fetched_height := Some 10; refill_event := true;
     cache_size := 0; min_cache_size := 4; ave_size := 1;
     queue := [PREFETCHER_CAUGHT_UP] |}.

(** X13 at work: nothing to fetch. *)
Lemma prefetch_blocks_result_witness :
  prefetch_blocks (fun b => b) reorged_daemon 10 prefetcher_at_10
    = Some (PfOk false prefetcher_caught_up) /\
  cache_size prefetcher_caught_up < min_cache_size prefetcher_caught_up /\
  refill_event prefetcher_caught_up = refill_event prefetcher_at_10 /\
  caught_up prefetcher_caught_up = true /\
  exists fetched', fetched_height prefetcher_caught_up = Some fetched' /\
    fetch_count 10 fetched' prefetcher_caught_up = 0.
Proof.
  assert (H : prefetch_blocks (fun b => b) reorged_daemon 10 prefetcher_at_10
              = Some (PfOk false prefetcher_caught_up)) by (vm_compute; reflexivity).
  split; [exact H|].
  exact (prefetch_blocks_result (fun b => b) reorged_daemon 10 prefetcher_at_10 _ H).
Defined.

(** ** The queue worker *)

(** X14 at work. *)
Lemma advance_blocks_chain_witness :
  @advance_blocks toy_history toy_chain_coin [block1; block2] genesis = Ok tt at_2 /\
  [block1; block2] <> [] /\
  height at_2 = height genesis + Z.of_nat (length [block1; block2]) /\
  tip at_2 = block_tip (CN := toy_chain_coin) (tip genesis) [block1; block2] /\
  tx_count at_2 = tx_count genesis + total_txs [block1; block2].
Proof.
  assert (H : @advance_blocks toy_history toy_chain_coin [block1; block2] genesis
              = Ok tt at_2) by (vm_compute; reflexivity).
  split; [exact H|].
  exact (advance_blocks_chain (CN := toy_chain_coin) [block1; block2] genesis at_2 H).
Defined.

(** A server at genesis whose queue has just given up a batch of two
    raw blocks, and the server after the batch. *)
Definition server_at_0 : @Server toy_history :=
  {| bp := genesis;
     prefetcher := {| caught_up := true; fetched_height := Some 2; refill_event := false;
                      cache_size := 2; min_cache_size := 4; ave_size := 1; queue := [] |};
     first_sync := false; notified := [] |}.

Definition server_at_2 : @Server toy_history :=
  match @check_and_advance_blocks toy_history toy_chain_coin (fun h => h) reorged_daemon
          [[x01]; [x02]] 1 server_at_0 with
  | Some r => state_of r
  | None => server_at_0
  end.

(** X15 at work. *)
Lemma check_and_advance_blocks_links_witness :
  @check_and_advance_blocks toy_history toy_chain_coin (fun h => h) reorged_daemon
     [[x01]; [x02]] 1 server_at_0 = Some (Ok tt server_at_2) /\
  height (bp server_at_0) < height (bp server_at_2) /\
  1 = height (bp server_at_0) + 1 /\
  linked (CN := toy_chain_coin) (tip (bp server_at_0))
    (parse_blocks (CN := toy_chain_coin) [[x01]; [x02]] 1) /\
  height (bp server_at_2) = height (bp server_at_0) + Z.of_nat (length [[x01]; [x02]]) /\
  tip (bp server_at_2)
    = block_tip (CN := toy_chain_coin) (tip (bp server_at_0))
        (parse_blocks (CN := toy_chain_coin) [[x01]; [x02]] 1) /\
  touched (bp server_at_2) = ∅ /\
  (if caught_up_event (bp server_at_2)
   then exists t, notified server_at_2 = notified server_at_0 ++ [(t, height (bp server_at_2))]
   else notified server_at_2 = notified server_at_0).
Proof.
  assert (H1 : @check_and_advance_blocks toy_history toy_chain_coin (fun h => h)
                 reorged_daemon [[x01]; [x02]] 1 server_at_0 = Some (Ok tt server_at_2))
    by (vm_compute; reflexivity).
  assert (H2 : height (bp server_at_0) < height (bp server_at_2))
    by (vm_compute; reflexivity).
  split; [exact H1|]. split; [exact H2|].
  exact (check_and_advance_blocks_links (CN := toy_chain_coin) (fun h => h) reorged_daemon
           [[x01]; [x02]] 1 server_at_0 server_at_2 H1 H2).
Defined.
(** ** The round trip *)







